(** * editbox: poster gallery, upload pipeline and customization engine

    A shallow embedding of the TypeScript sources

      - [src/app/api/upload/route.ts]   (the upload route [POST] and, after
        it, the user dashboard component [UserDashboard]),
      - [src/app/admin/posters/page.tsx] (the admin page [AdminPosters]),

    together with the properties the specification states about them.

    Conventions of the embedding.

      - A JavaScript [number] is a rational ([Q]): the arithmetic of the
        handlers ([+], [-], [*], [/], [Math.max], [Math.min], [%]) is exact
        on rationals, so rounding of IEEE doubles is not part of the model;
        equalities between numbers are stated with [==].
      - A React state setter [setX(prev => f prev)] is the function [f] on
        the state; values a handler closes over (the zoom level of the
        render, the start size of a resize gesture) are explicit arguments.
      - Calls to the hosted backend are steps of a small control-flow monad
        over a world that holds the backend's table, its storage, and the
        outcome each call is going to have. *)

From Stdlib Require Import QArith Qminmax Qround Lqa ZArith Lia String Ascii.
From stdpp Require Import base option list gmap strings pretty sorting.

(** ** JavaScript built-ins used by the sources *)

Module JS.

(** *** Numbers *)

Definition number := Q.

(** [Math.max] and [Math.min] on two arguments. *)
Definition Math_max (a b : Q) : Q := Qmax a b.
Definition Math_min (a b : Q) : Q := Qmin a b.

(** [Math.trunc]: rounding toward zero. *)
Definition Math_trunc (q : Q) : Z :=
  if Qle_bool 0 q then Qfloor q else Qceiling q.

(** The remainder operator [a % b]: the result takes the sign of the
    dividend, [a - b * trunc (a / b)]. *)
Definition rem (a b : Q) : Q := (a - b * inject_Z (Math_trunc (a / b)))%Q.

(** [x || 0] on a possibly absent integer column. *)
Definition orZero (x : option Z) : Z := default 0%Z x.

(** *** Strings *)

Definition isUpperAscii (c : ascii) : bool :=
  ((65 <=? nat_of_ascii c) && (nat_of_ascii c <=? 90))%nat.

Definition lowerAscii (c : ascii) : ascii :=
  if isUpperAscii c then ascii_of_nat (nat_of_ascii c + 32) else c.

(** [s.toLowerCase()], on the ASCII letters. *)
Fixpoint toLowerCase (s : string) : string :=
  match s with
  | EmptyString => EmptyString
  | String c s' => String (lowerAscii c) (toLowerCase s')
  end.

(** [s.includes(sub)]. *)
Fixpoint includes (s sub : string) : bool :=
  String.prefix sub s ||
  match s with
  | EmptyString => false
  | String _ s' => includes s' sub
  end.

(** [s.split(sep)] for a one-character separator; the result is never
    empty. *)
Fixpoint split (sep : ascii) (s : string) : list string :=
  match s with
  | EmptyString => [EmptyString]
  | String c s' =>
      if Ascii.eqb c sep then EmptyString :: split sep s'
      else match split sep s' with
           | [] => [String c EmptyString]
           | seg :: rest => String c seg :: rest
           end
  end.

(** [arr.pop()], as far as its result is concerned. *)
Definition pop {A} (l : list A) : option A := last l.

(** The characters matched by [\s], among the ASCII ones. *)
Definition isSpace (c : ascii) : bool :=
  let n := nat_of_ascii c in
  ((n =? 32) || ((9 <=? n) && (n <=? 13)))%nat.

(** [s.replace(/\s+/g, '-')]: every maximal run of white space becomes one
    dash.  [inRun] tells whether the previous character was white space. *)
Fixpoint replaceSpaces (inRun : bool) (s : string) : string :=
  match s with
  | EmptyString => EmptyString
  | String c s' =>
      if isSpace c then
        if inRun then replaceSpaces true s'
        else String "-" (replaceSpaces true s')
      else String c (replaceSpaces false s')
  end.

(** *** [Array.prototype.sort]

    ECMAScript (2019 and later) specifies [sort] as stable: with a
    consistent comparator the result is the one sorted permutation that
    keeps elements comparing equal in their input order.  The model is the
    stable insertion sort; [cmp a b <= 0] keeps [a] before [b]. *)

Section Sort.
Context {A : Type} (cmp : A → A → Z).

Fixpoint insertBy (x : A) (l : list A) : list A :=
  match l with
  | [] => [x]
  | y :: l' =>
      if (cmp x y <=? 0)%Z then x :: y :: l' else y :: insertBy x l'
  end.

Definition sort (l : list A) : list A := foldr insertBy [] l.
End Sort.

End JS.

(** ** Control flow of the asynchronous handlers

    A handler runs over a world [W] and either falls through to the next
    statement, leaves the function by [return], or throws. *)

Module Flow.

Inductive Step (W R A : Type) : Type :=
| Next (a : A) (w : W)
| Return (r : R) (w : W)
| Throw (msg : string) (w : W).
Arguments Next {W R A} a w.
Arguments Return {W R A} r w.
Arguments Throw {W R A} msg w.

Definition M (W R A : Type) : Type := W → Step W R A.

Section Ops.
Context {W R : Type}.

Definition ret {A} (a : A) : M W R A := λ w, Next a w.

Definition bind {A B} (m : M W R A) (k : A → M W R B) : M W R B :=
  λ w, match m w with
       | Next a w' => k a w'
       | Return r w' => Return r w'
       | Throw msg w' => Throw msg w'
       end.

Definition get : M W R W := λ w, Next w w.
Definition modify (f : W → W) : M W R unit := λ w, Next tt (f w).
Definition returnWith {A} (r : R) : M W R A := λ w, Return r w.
Definition throw {A} (msg : string) : M W R A := λ w, Throw msg w.

(** [try { body } catch (error) { handler error }]. *)
Definition tryCatch {A} (body : M W R A) (handler : string → M W R A)
  : M W R A :=
  λ w, match body w with
       | Throw msg w' => handler msg w'
       | other => other
       end.

(** [try { body } finally { cleanup }]: [cleanup] runs however [body]
    is left. *)
Definition tryFinally {A} (body : M W R A) (cleanup : W → W) : M W R A :=
  λ w, match body w with
       | Next a w' => Next a (cleanup w')
       | Return r w' => Return r (cleanup w')
       | Throw msg w' => Throw msg (cleanup w')
       end.

(** The world a call of the function ends in. *)
Definition finalWorld {A} (s : Step W R A) : W :=
  match s with
  | Next _ w | Return _ w | Throw _ w => w
  end.
End Ops.

End Flow.

(** The monad operations, under stdpp's [x ← m; k] and [m;; k]. *)
Global Instance flow_ret {W R} : MRet (Flow.M W R) := @Flow.ret W R.
Global Instance flow_bind {W R} : MBind (Flow.M W R) :=
  λ A B k m, Flow.bind m k.

(** ** The poster record

    [interface Poster] of both components.  The admin page declares it
    without [download_count]; the dashboard reads the column with
    [download_count || 0], so an absent or null count is [None]. *)

Inductive Category : Type := Festival | Birthday | Marriage.

Definition categoryName (c : Category) : string :=
  match c with
  | Festival => "Festival"
  | Birthday => "Birthday"
  | Marriage => "Marriage"
  end.

Record Poster : Type := mkPoster {
  id : Z;
  title : string;
  category : Category;
  download_url : string;
  psd_url : option string;
  font_family : option string;
  is_editable : bool;
  created_at : string;
  download_count : option Z
}.

(** [{ ...poster, download_count: n }]. *)
Definition withDownloadCount (n : Z) (p : Poster) : Poster :=
  {| id := id p; title := title p; category := category p;
     download_url := download_url p; psd_url := psd_url p;
     font_family := font_family p; is_editable := is_editable p;
     created_at := created_at p; download_count := Some n |}.

(** A [File] of a form: [name], [size] (bytes) and [type]. *)
Record File : Type := mkFile {
  file_name : string;
  file_size : Z;
  file_type : string
}.

(** [file.name.split('.').pop()?.toLowerCase()]. *)
Definition fileExt (fileName : string) : option string :=
  JS.toLowerCase <$> JS.pop (JS.split "." fileName).

(** [fileExt === 'psd']. *)
Definition isPsdName (fileName : string) : bool :=
  match fileExt fileName with
  | Some ext => String.eqb ext "psd"
  | None => false
  end.

Definition MAX_FILE_SIZE : Z := 50 * 1024 * 1024.

(** The size test both the route and the admin form make:
    [file.size > MAX_FILE_SIZE ||
     (thumbnail && thumbnail.size > MAX_FILE_SIZE)]. *)
Definition exceedsMaxFileSize (file : File) (thumbnail : option File) : bool :=
  (MAX_FILE_SIZE <? file_size file)%Z
  || match thumbnail with
     | Some t => (MAX_FILE_SIZE <? file_size t)%Z
     | None => false
     end.

(** The message of the size test,
    [`File size exceeds maximum limit of ${MAX_FILE_SIZE / (1024 * 1024)}MB`]. *)
Definition sizeErrorMessage : string :=
  "File size exceeds maximum limit of "
  +:+ pretty (MAX_FILE_SIZE / (1024 * 1024))%Z +:+ "MB".

(** ** The user dashboard ([UserDashboard]) *)

Module Dashboard.

(** *** The filter and sort effect *)

Inductive SortBy : Type := latest | popular.

(** The callback of the search filter. *)
Definition matchesQuery (searchQuery : string) (poster : Poster) : bool :=
  JS.includes (JS.toLowerCase (title poster)) (JS.toLowerCase searchQuery)
  || JS.includes (JS.toLowerCase (categoryName (category poster)))
                 (JS.toLowerCase searchQuery).

(** The two [filter] steps: the search one runs when the query is not
    empty, the category one when the selection is not ['All']. *)
Definition filterPosters (posters : list Poster)
    (searchQuery selectedCategory : string) : list Poster :=
  let result := posters in
  let result :=
    if String.eqb searchQuery "" then result
    else List.filter (matchesQuery searchQuery) result in
  let result :=
    if String.eqb selectedCategory "All" then result
    else List.filter
           (λ poster, String.eqb (categoryName (category poster))
                                 selectedCategory) result in
  result.

(** The comparator of the [popular] mode. *)
Definition byDownloads (a b : Poster) : Z :=
  (JS.orZero (download_count b) - JS.orZero (download_count a))%Z.

Section FilterSort.
(** [new Date(s).getTime()], the time stamp a [created_at] string denotes. *)
Variable getTime : string → Z.

(** The comparator of the [latest] mode. *)
Definition byCreation (a b : Poster) : Z :=
  (getTime (created_at b) - getTime (created_at a))%Z.

(** The value the effect stores in [filteredPosters]. *)
Definition filterSort (posters : list Poster)
    (searchQuery selectedCategory : string) (sortBy : SortBy) : list Poster :=
  let result := filterPosters posters searchQuery selectedCategory in
  match sortBy with
  | popular => JS.sort byDownloads result
  | latest => JS.sort byCreation result
  end.
End FilterSort.

(** *** The overlay model of a customization session *)

Record Point : Type := mkPoint { x : Q; y : Q }.
Record Size : Type := mkSize { width : Q; height : Q }.

(** The uploaded overlay image, as far as the handlers look at it. *)
Record ImageFile : Type := mkImageFile {
  imageType : string;
  imageBytes : Z
}.

Record EditFormData : Type := mkEditFormData {
  name : string;
  image : option ImageFile;
  textColor : string;
  imagePosition : Point;
  textPosition : Point;
  fontSize : Q;
  fontFamily : string;
  fontStyle : string;
  fontWeight : string;
  textRotation : Q;
  imageRotation : Q;
  imageSize : Size
}.

(** The state [useState] starts with, and both [closeEditModal] and a
    finished [handleEditSave] reset to. *)
Definition initialEditFormData : EditFormData :=
  {| name := ""; image := None; textColor := "#FFFFFF";
     imagePosition := mkPoint 50 180; textPosition := mkPoint 200 240;
     fontSize := 24; fontFamily := "Arial"; fontStyle := "normal";
     fontWeight := "normal"; textRotation := 0; imageRotation := 0;
     imageSize := mkSize 100 100 |}.

Definition initialZoomLevel : Q := 1.

Definition setTextPosition (p : Point) (prev : EditFormData) : EditFormData :=
  {| name := name prev; image := image prev; textColor := textColor prev;
     imagePosition := imagePosition prev; textPosition := p;
     fontSize := fontSize prev; fontFamily := fontFamily prev;
     fontStyle := fontStyle prev; fontWeight := fontWeight prev;
     textRotation := textRotation prev; imageRotation := imageRotation prev;
     imageSize := imageSize prev |}.

Definition setImagePosition (p : Point) (prev : EditFormData) : EditFormData :=
  {| name := name prev; image := image prev; textColor := textColor prev;
     imagePosition := p; textPosition := textPosition prev;
     fontSize := fontSize prev; fontFamily := fontFamily prev;
     fontStyle := fontStyle prev; fontWeight := fontWeight prev;
     textRotation := textRotation prev; imageRotation := imageRotation prev;
     imageSize := imageSize prev |}.

Definition setImageSize (s : Size) (prev : EditFormData) : EditFormData :=
  {| name := name prev; image := image prev; textColor := textColor prev;
     imagePosition := imagePosition prev; textPosition := textPosition prev;
     fontSize := fontSize prev; fontFamily := fontFamily prev;
     fontStyle := fontStyle prev; fontWeight := fontWeight prev;
     textRotation := textRotation prev; imageRotation := imageRotation prev;
     imageSize := s |}.

Definition setFontSize (n : Q) (prev : EditFormData) : EditFormData :=
  {| name := name prev; image := image prev; textColor := textColor prev;
     imagePosition := imagePosition prev; textPosition := textPosition prev;
     fontSize := n; fontFamily := fontFamily prev;
     fontStyle := fontStyle prev; fontWeight := fontWeight prev;
     textRotation := textRotation prev; imageRotation := imageRotation prev;
     imageSize := imageSize prev |}.

Definition setTextRotation (r : Q) (prev : EditFormData) : EditFormData :=
  {| name := name prev; image := image prev; textColor := textColor prev;
     imagePosition := imagePosition prev; textPosition := textPosition prev;
     fontSize := fontSize prev; fontFamily := fontFamily prev;
     fontStyle := fontStyle prev; fontWeight := fontWeight prev;
     textRotation := r; imageRotation := imageRotation prev;
     imageSize := imageSize prev |}.

Definition setImageRotation (r : Q) (prev : EditFormData) : EditFormData :=
  {| name := name prev; image := image prev; textColor := textColor prev;
     imagePosition := imagePosition prev; textPosition := textPosition prev;
     fontSize := fontSize prev; fontFamily := fontFamily prev;
     fontStyle := fontStyle prev; fontWeight := fontWeight prev;
     textRotation := textRotation prev; imageRotation := r;
     imageSize := imageSize prev |}.

(** *** Drag *)

(** [handleTextDrag]: [textBox] is what [textRef.current] measures
    ([offsetWidth], [offsetHeight]), [None] while the text is not mounted,
    where [?.offsetWidth || 0] gives 0. *)
Definition handleTextDrag (textBox : option Size) (zoomLevel : Q)
    (delta : Point) (prev : EditFormData) : EditFormData :=
  let scaledWidth := (from_option width 0 textBox * zoomLevel)%Q in
  let scaledHeight := (from_option height 0 textBox * zoomLevel)%Q in
  let newX :=
    JS.Math_max 0 (JS.Math_min (400 - scaledWidth)
                     (x (textPosition prev) + x delta / zoomLevel))%Q in
  let newY :=
    JS.Math_max 0 (JS.Math_min (280 - scaledHeight)
                     (y (textPosition prev) + y delta / zoomLevel))%Q in
  setTextPosition (mkPoint newX newY) prev.

Definition handleImageDrag (zoomLevel : Q) (delta : Point)
    (prev : EditFormData) : EditFormData :=
  let scaledWidth := (width (imageSize prev) * zoomLevel)%Q in
  let scaledHeight := (height (imageSize prev) * zoomLevel)%Q in
  let newX :=
    JS.Math_max 0 (JS.Math_min (400 - scaledWidth)
                     (x (imagePosition prev) + x delta / zoomLevel))%Q in
  let newY :=
    JS.Math_max 0 (JS.Math_min (280 - scaledHeight)
                     (y (imagePosition prev) + y delta / zoomLevel))%Q in
  setImagePosition (mkPoint newX newY) prev.

(** *** Buttons *)

Definition handleFontSizeChange (delta : Q) (prev : EditFormData)
  : EditFormData :=
  setFontSize (JS.Math_max 10 (fontSize prev + delta)) prev.

Definition handleImageSizeChange (deltaWidth deltaHeight : Q)
    (prev : EditFormData) : EditFormData :=
  setImageSize
    (mkSize (JS.Math_max 50 (width (imageSize prev) + deltaWidth))
            (JS.Math_max 50 (height (imageSize prev) + deltaHeight))) prev.

Inductive RotationTarget : Type := text | image_.

Definition handleRotationChange (type : RotationTarget) (delta : Q)
    (prev : EditFormData) : EditFormData :=
  match type with
  | text => setTextRotation (JS.rem (textRotation prev + delta) 360) prev
  | image_ => setImageRotation (JS.rem (imageRotation prev + delta) 360) prev
  end.

Definition handleZoom (delta : Q) (prev : Q) : Q :=
  JS.Math_min (JS.Math_max 0.5 (prev + delta)) 3.

(** *** Resize gesture *)

Inductive Handle : Type := bottom_right | top_left.

(** A mouse event carries its own client position; a touch event the list
    [touches], of which the handlers read the first. *)
Inductive PointerEvent : Type :=
| MouseEvent (clientX clientY : Q)
| TouchEvent (touch0 : Point) (touches : list Point).

Definition clientX (e : PointerEvent) : Q :=
  match e with MouseEvent cx _ => cx | TouchEvent t _ => x t end.
Definition clientY (e : PointerEvent) : Q :=
  match e with MouseEvent _ cy => cy | TouchEvent t _ => y t end.

(** What [handleResizeMove] closes over: the constants of
    [handleResizeStart] and the zoom level of that render. *)
Record ResizeGesture : Type := mkResizeGesture {
  handle : Handle;
  startX : Q;
  startY : Q;
  startWidth : Q;
  startHeight : Q;
  gestureZoom : Q
}.

Definition handleResizeStart (e : PointerEvent) (h : Handle)
    (editFormData : EditFormData) (zoomLevel : Q) : ResizeGesture :=
  {| handle := h; startX := clientX e; startY := clientY e;
     startWidth := width (imageSize editFormData);
     startHeight := height (imageSize editFormData);
     gestureZoom := zoomLevel |}.

Definition handleResizeMove (g : ResizeGesture) (moveEvent : PointerEvent)
    (prev : EditFormData) : EditFormData :=
  let zoomLevel := gestureZoom g in
  let deltaX := ((clientX moveEvent - startX g) / zoomLevel)%Q in
  let deltaY := ((clientY moveEvent - startY g) / zoomLevel)%Q in
  let '(newWidth, newHeight) :=
    match handle g with
    | bottom_right =>
        (JS.Math_max 50 (startWidth g + deltaX),
         JS.Math_max 50 (startHeight g + deltaY))
    | top_left =>
        (JS.Math_max 50 (startWidth g - deltaX),
         JS.Math_max 50 (startHeight g - deltaY))
    end in
  (* Maintain aspect ratio: this assignment replaces the height above *)
  let aspectRatio := (startWidth g / startHeight g)%Q in
  let newHeight := (newWidth / aspectRatio)%Q in
  let scaledWidth := (newWidth * zoomLevel)%Q in
  let scaledHeight := (newHeight * zoomLevel)%Q in
  let maxX := (400 - scaledWidth)%Q in
  let maxY := (280 - scaledHeight)%Q in
  let newX := JS.Math_max 0 (JS.Math_min maxX (x (imagePosition prev))) in
  let newY := JS.Math_max 0 (JS.Math_min maxY (y (imagePosition prev))) in
  setImagePosition (mkPoint newX newY)
    (setImageSize (mkSize newWidth newHeight) prev).

(** [handleRotateMove], with the angle [atan2 (...) * (180 / PI)] as its
    argument. *)
Definition handleRotateMove (angle : Q) (prev : EditFormData) : EditFormData :=
  setImageRotation angle prev.

(** *** Text inputs of the customization form *)

Inductive InputName : Type :=
| input_name | input_textColor | input_fontFamily | input_fontStyle
| input_fontWeight.

(** The [else] branch of [handleEditInputChange]:
    [{ ...prev, [name]: value }]. *)
Definition handleEditInputChange (field : InputName) (value : string)
    (prev : EditFormData) : EditFormData :=
  {| name := match field with input_name => value | _ => name prev end;
     image := image prev;
     textColor :=
       match field with input_textColor => value | _ => textColor prev end;
     imagePosition := imagePosition prev; textPosition := textPosition prev;
     fontSize := fontSize prev;
     fontFamily :=
       match field with input_fontFamily => value | _ => fontFamily prev end;
     fontStyle :=
       match field with input_fontStyle => value | _ => fontStyle prev end;
     fontWeight :=
       match field with input_fontWeight => value | _ => fontWeight prev end;
     textRotation := textRotation prev; imageRotation := imageRotation prev;
     imageSize := imageSize prev |}.

(** The [image] branch: a file over 5 MB leaves the form as it is (and
    reports an error), any other choice stores the file when it is a PNG and
    [null] otherwise. *)
Definition handleImageInputChange (file : option ImageFile)
    (prev : EditFormData) : EditFormData :=
  match file with
  | Some f =>
      if (5 * 1024 * 1024 <? imageBytes f)%Z then prev
      else
        {| name := name prev;
           image := if String.eqb (imageType f) "image/png" then Some f
                    else None;
           textColor := textColor prev;
           imagePosition := imagePosition prev;
           textPosition := textPosition prev;
           fontSize := fontSize prev; fontFamily := fontFamily prev;
           fontStyle := fontStyle prev; fontWeight := fontWeight prev;
           textRotation := textRotation prev;
           imageRotation := imageRotation prev;
           imageSize := imageSize prev |}
  | None =>
      {| name := name prev; image := None; textColor := textColor prev;
         imagePosition := imagePosition prev;
         textPosition := textPosition prev;
         fontSize := fontSize prev; fontFamily := fontFamily prev;
         fontStyle := fontStyle prev; fontWeight := fontWeight prev;
         textRotation := textRotation prev;
         imageRotation := imageRotation prev;
         imageSize := imageSize prev |}
  end.

(** *** Sessions

    The states of one customization session: the form and the zoom level,
    from the initial values through any sequence of the interactions the
    modal offers.  A resize move belongs to a gesture that started in an
    earlier state of the session. *)

Record Session : Type := mkSession {
  form : EditFormData;
  zoomLevel : Q
}.

Definition initialSession : Session :=
  mkSession initialEditFormData initialZoomLevel.

Inductive reachable : Session → Prop :=
| reach_initial : reachable initialSession
| reach_input s field value :
    reachable s →
    reachable (mkSession (handleEditInputChange field value (form s))
                         (zoomLevel s))
| reach_image s file :
    reachable s →
    reachable (mkSession (handleImageInputChange file (form s)) (zoomLevel s))
| reach_text_drag s textBox delta :
    reachable s →
    reachable (mkSession (handleTextDrag textBox (zoomLevel s) delta (form s))
                         (zoomLevel s))
| reach_image_drag s delta :
    reachable s →
    reachable (mkSession (handleImageDrag (zoomLevel s) delta (form s))
                         (zoomLevel s))
| reach_font_size s (up : bool) :
    reachable s →
    reachable (mkSession
                 (handleFontSizeChange (if up then 2 else -2) (form s))
                 (zoomLevel s))
| reach_image_size s (up : bool) :
    reachable s →
    reachable (mkSession
                 (if up then handleImageSizeChange 10 10 (form s)
                  else handleImageSizeChange (-10) (-10) (form s))
                 (zoomLevel s))
| reach_rotation s type (up : bool) :
    reachable s →
    reachable (mkSession
                 (handleRotationChange type (if up then 15 else -15) (form s))
                 (zoomLevel s))
| reach_zoom s (up : bool) :
    reachable s →
    reachable (mkSession (form s)
                         (handleZoom (if up then 0.1 else -0.1) (zoomLevel s)))
| reach_resize s0 s e h moveEvent :
    reachable s0 → reachable s →
    reachable (mkSession
                 (handleResizeMove
                    (handleResizeStart e h (form s0) (zoomLevel s0))
                    moveEvent (form s))
                 (zoomLevel s))
| reach_rotate s angle :
    reachable s →
    reachable (mkSession (handleRotateMove angle (form s)) (zoomLevel s)).

(** *** Gallery download ([handleDownload])

    The backend of the dashboard: the [download_count] column of the
    [posters] table by row id, and the outcome the calls of one run are
    going to have (a failure of [select] or [update], the answer to the
    [fetch] of the asset). *)

Inductive AssetResponse : Type :=
| AssetOk                       (** [response.ok] *)
| AssetNotOk                    (** a response with [ok = false] *)
| AssetNetworkError (msg : string).  (** [fetch] rejects *)

Record Backend : Type := mkBackend {
  table : gmap Z (option Z);
  selectError : option string;
  updateError : option string;
  assetResponse : AssetResponse
}.

(** What a run does outside the component, in order. *)
Inductive Call : Type :=
| CallSelectCount (posterId : Z)
| CallUpdateCount (posterId : Z) (newCount : Z)
| CallFetchAsset (url : string)
| CallSaveFile (download : string).

Record World : Type := mkWorld {
  posters : list Poster;
  filteredPosters : list Poster;
  countdowns : gmap Z Z;
  errorMessage : option string;
  backend : Backend;
  calls : list Call
}.

Definition setPosters (f : list Poster → list Poster) (w : World) : World :=
  mkWorld (f (posters w)) (filteredPosters w) (countdowns w)
          (errorMessage w) (backend w) (calls w).
Definition setFilteredPosters (f : list Poster → list Poster) (w : World)
  : World :=
  mkWorld (posters w) (f (filteredPosters w)) (countdowns w)
          (errorMessage w) (backend w) (calls w).
Definition setCountdowns (f : gmap Z Z → gmap Z Z) (w : World) : World :=
  mkWorld (posters w) (filteredPosters w) (f (countdowns w))
          (errorMessage w) (backend w) (calls w).
Definition setErrorMessage (msg : option string) (w : World) : World :=
  mkWorld (posters w) (filteredPosters w) (countdowns w) msg (backend w)
          (calls w).
Definition logCall (c : Call) (w : World) : World :=
  mkWorld (posters w) (filteredPosters w) (countdowns w) (errorMessage w)
          (backend w) (calls w ++ [c]).
Definition setTable (f : gmap Z (option Z) → gmap Z (option Z)) (w : World)
  : World :=
  mkWorld (posters w) (filteredPosters w) (countdowns w) (errorMessage w)
          (mkBackend (f (table (backend w))) (selectError (backend w))
                     (updateError (backend w)) (assetResponse (backend w)))
          (calls w).

(** [supabase.from('posters').select('download_count').eq('id', id)
    .single()]: an error when the call fails or no row has the id. *)
Definition selectDownloadCount (posterId : Z)
  : Flow.M World unit (string + option Z) :=
  λ w,
    let w' := logCall (CallSelectCount posterId) w in
    match selectError (backend w) with
    | Some e => Flow.Next (inl e) w'
    | None =>
        match table (backend w) !! posterId with
        | Some count => Flow.Next (inr count) w'
        | None => Flow.Next (inl "no rows returned") w'
        end
    end.

(** [supabase.from('posters').update({ download_count: newCount })
    .eq('id', id)]: writes the column of the rows with the id. *)
Definition updateDownloadCount (posterId newCount : Z)
  : Flow.M World unit (option string) :=
  λ w,
    let w' := logCall (CallUpdateCount posterId newCount) w in
    match updateError (backend w) with
    | Some e => Flow.Next (Some e) w'
    | None =>
        Flow.Next None (setTable (alter (λ _, Some newCount) posterId) w')
    end.

(** [fetch(url, { mode: 'cors' })] and the [response.ok] test after it. *)
Definition fetchAsset (url : string) : Flow.M World unit unit :=
  λ w,
    let w' := logCall (CallFetchAsset url) w in
    match assetResponse (backend w) with
    | AssetOk => Flow.Next tt w'
    | AssetNotOk => Flow.Throw "Failed to fetch image" w'
    | AssetNetworkError msg => Flow.Throw msg w'
    end.

(** The patch both [setPosters] and [setFilteredPosters] apply. *)
Definition patchCount (posterId newCount : Z) (prev : list Poster)
  : list Poster :=
  map (λ poster,
         if (id poster =? posterId)%Z then withDownloadCount newCount poster
         else poster) prev.

(** The callback of the one-second interval. *)
Definition countdownTick (posterId : Z) (prev : gmap Z Z) : gmap Z Z :=
  let newCount :=
    ((match prev !! posterId with
      | Some c => if (c =? 0)%Z then 5 else c
      | None => 5
      end) - 1)%Z in
  if (newCount <=? 0)%Z then <[posterId := 0%Z]> prev
  else <[posterId := newCount]> prev.

(** [handleDownload(id, url, title)].  The five seconds of waiting and the
    ticks of the interval during them are not part of the run, and neither
    is the filter and sort effect: it runs again once [setPosters] has
    changed the catalog and then stores [filterSort] of the new catalog in
    [filteredPosters], in place of the list the updater below leaves. *)
Definition handleDownload (posterId : Z) (url title : string)
  : Flow.M World unit unit :=
  Flow.tryFinally
    (Flow.tryCatch
       (Flow.modify (setCountdowns (<[posterId := 5%Z]>));;
        fetched ← selectDownloadCount posterId;
        match fetched with
        | inl fetchError =>
            Flow.modify
              (setErrorMessage (Some "Failed to update download count."));;
            Flow.returnWith tt
        | inr count =>
            let newCount := (JS.orZero count + 1)%Z in
            updateError ← updateDownloadCount posterId newCount;
            match updateError with
            | Some _ =>
                Flow.modify
                  (setErrorMessage (Some "Failed to update download count."));;
                Flow.returnWith tt
            | None =>
                Flow.modify (setPosters (patchCount posterId newCount));;
                Flow.modify (setFilteredPosters (patchCount posterId newCount));;
                fetchAsset url;;
                Flow.modify
                  (logCall (CallSaveFile
                              (if String.eqb title "" then "poster"
                               else title)))
            end
        end)
       (λ _,
          Flow.modify
            (setErrorMessage
               (Some "Failed to download the poster. Please try again."))))
    (setCountdowns (delete posterId)).

End Dashboard.

(** ** The upload route ([POST /api/upload]) *)

Module UploadRoute.

(** The parts of the multipart form; [formData.get] gives [null] for a part
    that was not sent. *)
Record FormData : Type := mkFormData {
  get_file : option File;
  get_thumbnail : option File;
  get_title : option string;
  get_category : option string;
  get_isEditable : option string;
  get_fontFamily : option string
}.

(** [request.formData()] rejects on a body that is not a form. *)
Inductive Request : Type :=
| Multipart (formData : FormData)
| Malformed (reason : string).

(** The record given to [insert]. *)
Record Row : Type := mkRow {
  row_title : string;
  row_category : string;
  row_download_url : string;
  row_psd_url : option string;
  row_font_family : option string;
  row_is_editable : bool;
  row_created_at : string
}.

Inductive Body : Type :=
| ErrorBody (error : string)
| UploadedBody (downloadLink title category : string) (isEditable : bool)
    (fontFamily : option string).

Record Response : Type := mkResponse {
  status : Z;
  body : Body
}.

(** The hosted backend as the route sees it: the bucket (path to content
    type), the table, the clock, and the outcome of each call of one run. *)
Record World : Type := mkWorld {
  bucket : gmap string string;
  rows : list Row;
  publicUrlOf : string → string;
  nowFile : Z;
  nowThumbnail : Z;
  nowISO : string;
  uploadError : option string;
  thumbnailError : option string;
  dbError : option string
}.

Definition setBucket (f : gmap string string → gmap string string)
    (w : World) : World :=
  mkWorld (f (bucket w)) (rows w) (publicUrlOf w) (nowFile w)
          (nowThumbnail w) (nowISO w) (uploadError w) (thumbnailError w)
          (dbError w).

Definition setRows (f : list Row → list Row) (w : World) : World :=
  mkWorld (bucket w) (f (rows w)) (publicUrlOf w) (nowFile w)
          (nowThumbnail w) (nowISO w) (uploadError w) (thumbnailError w)
          (dbError w).

Definition json {A} (b : Body) (st : Z) : Flow.M World Response A :=
  Flow.returnWith (mkResponse st b).

(** [await request.formData()]. *)
Definition formDataOf (request : Request) : Flow.M World Response FormData :=
  match request with
  | Multipart fd => mret fd
  | Malformed reason => Flow.throw reason
  end.

(** [supabase.storage.from('posters').upload(path, buffer,
    { contentType, upsert: true })], with the error the world holds for
    it. *)
Definition storageUpload (outcome : World → option string)
    (path contentType : string) : Flow.M World Response (option string) :=
  λ w, match outcome w with
       | Some e => Flow.Next (Some e) w
       | None => Flow.Next None (setBucket (<[path := contentType]>) w)
       end.

(** [supabase.from('posters').insert([row])]. *)
Definition tableInsert (row : Row) : Flow.M World Response (option string) :=
  λ w, match dbError w with
       | Some e => Flow.Next (Some e) w
       | None => Flow.Next None (setRows (λ rs, rs ++ [row]) w)
       end.

(** A string is falsy when it is absent or empty. *)
Definition truthy (s : option string) : option string :=
  match s with
  | Some v => if String.eqb v "" then None else Some v
  | None => None
  end.

Definition POST (request : Request) : Flow.M World Response Empty_set :=
  Flow.tryCatch
    (formData ← formDataOf request;
     let thumbnail := get_thumbnail formData in
     let isEditable :=
       match get_isEditable formData with
       | Some v => String.eqb v "true"
       | None => false
       end in
     let fontFamily := get_fontFamily formData in
     match get_file formData, truthy (get_title formData),
           truthy (get_category formData) with
     | Some file, Some title, Some category =>
         if exceedsMaxFileSize file thumbnail then
           json (ErrorBody sizeErrorMessage) 400
         else
           w ← Flow.get;
           let fileExt := default "undefined" (fileExt (file_name file)) in
           let isPsd := isPsdName (file_name file) in
           let fileName :=
             pretty (nowFile w) +:+ "-" +:+ JS.replaceSpaces false title
             +:+ "." +:+ fileExt in
           let uploadPath :=
             if isPsd then "psd/" +:+ fileName
             else "thumbnails/" +:+ fileName in
           uploadError ← storageUpload uploadError uploadPath (file_type file);
           match uploadError with
           | Some msg => json (ErrorBody ("Upload failed: " +:+ msg)) 400
           | None =>
               let publicUrl := publicUrlOf w uploadPath in
               thumbnailUrl ←
                 match thumbnail with
                 | Some thumbnail =>
                     let thumbnailName :=
                       pretty (nowThumbnail w) +:+ "-"
                       +:+ JS.replaceSpaces false title +:+ "-thumb.png" in
                     let thumbnailPath := "thumbnails/" +:+ thumbnailName in
                     thumbnailError ←
                       storageUpload thumbnailError thumbnailPath
                         (file_type thumbnail);
                     match thumbnailError with
                     | Some msg =>
                         json (ErrorBody ("Thumbnail upload failed: " +:+ msg))
                              400
                     | None => mret (publicUrlOf w thumbnailPath)
                     end
                 | None => mret ""
                 end;
               dbError ←
                 tableInsert
                   {| row_title := title;
                      row_category := category;
                      row_download_url :=
                        if isPsd then thumbnailUrl else publicUrl;
                      row_psd_url := if isPsd then Some publicUrl else None;
                      row_font_family := fontFamily;
                      row_is_editable := isEditable;
                      row_created_at := nowISO w |};
               match dbError with
               | Some msg =>
                   json (ErrorBody ("Database insert failed: " +:+ msg)) 400
               | None =>
                   json (UploadedBody
                           (if isPsd then thumbnailUrl else publicUrl)
                           title category isEditable fontFamily) 200
               end
           end
     | _, _, _ => json (ErrorBody "Missing file, title, or category") 400
     end)
    (λ message, json (ErrorBody ("Upload failed: " +:+ message)) 500).

(** The response of a call and the world it leaves. *)
Definition respond (request : Request) (w : World) : Response * World :=
  match POST request w with
  | Flow.Return r w' => (r, w')
  | Flow.Throw msg w' => (mkResponse 500 (ErrorBody msg), w')
  | Flow.Next a _ => match a with end
  end.

End UploadRoute.

(** ** The admin page ([AdminPosters]) *)

Module Admin.

(** *** The realtime subscription *)

(** A [postgres_changes] payload: [eventType] with [payload.new], or for a
    deletion the [id] of [payload.old]. *)
Inductive Payload : Type :=
| INSERT (new : Poster)
| DELETE (old_id : Z)
| UPDATE (new : Poster).

(** The state update the subscription callback makes. *)
Definition onChange (payload : Payload) (prev : list Poster) : list Poster :=
  match payload with
  | INSERT new => new :: prev
  | DELETE old_id => List.filter (λ p, negb (id p =? old_id)%Z) prev
  | UPDATE new => map (λ p, if (id p =? id new)%Z then new else p) prev
  end.

(** The catalog after the events arrived in order. *)
Definition onChanges (payloads : list Payload) (fetched : list Poster)
  : list Poster :=
  foldl (λ prev payload, onChange payload prev) fetched payloads.

(** The ids of a catalog, in order. *)
Definition ids (catalog : list Poster) : list Z := map id catalog.

(** The events of a run in which every [INSERT] brings an id the catalog
    does not hold at that moment. *)
Fixpoint insertsFresh (payloads : list Payload) (catalog : list Poster)
  : Prop :=
  match payloads with
  | [] => True
  | payload :: rest =>
      match payload with
      | INSERT new => id new ∉ ids catalog
      | _ => True
      end
      ∧ insertsFresh rest (onChange payload catalog)
  end.

(** *** The upload form ([handleSave]) *)

Record FormState : Type := mkFormState {
  form_category : Category;
  form_title : string;
  form_file : option File;
  form_thumbnail : option File;
  form_isEditable : bool;
  form_fontFamily : string
}.

(** The form [useState] starts with and a successful save resets to. *)
Definition emptyForm : FormState :=
  mkFormState Festival "" None None false "Roboto".

(** The page and what it talks to: the route's backend, the requests sent
    to [/api/upload] so far, and whether [fetch] itself is going to fail. *)
Record World : Type := mkWorld {
  formData : FormState;
  saving : bool;
  uploadProgress : Z;
  error : option string;
  requests : list UploadRoute.FormData;
  server : UploadRoute.World;
  networkError : option string
}.

Definition setSaving (b : bool) (w : World) : World :=
  mkWorld (formData w) b (uploadProgress w) (error w) (requests w)
          (server w) (networkError w).
Definition setError (e : option string) (w : World) : World :=
  mkWorld (formData w) (saving w) (uploadProgress w) e (requests w)
          (server w) (networkError w).
Definition setUploadProgress (n : Z) (w : World) : World :=
  mkWorld (formData w) (saving w) n (error w) (requests w) (server w)
          (networkError w).
Definition setFormData (f : FormState) (w : World) : World :=
  mkWorld f (saving w) (uploadProgress w) (error w) (requests w) (server w)
          (networkError w).

(** The multipart body [formDataToSend]. *)
Definition formDataToSend (file : File) (f : FormState)
  : UploadRoute.FormData :=
  {| UploadRoute.get_file := Some file;
     UploadRoute.get_thumbnail := form_thumbnail f;
     UploadRoute.get_title := Some (form_title f);
     UploadRoute.get_category := Some (categoryName (form_category f));
     UploadRoute.get_isEditable :=
       Some (if form_isEditable f then "true" else "false");
     UploadRoute.get_fontFamily := Some (form_fontFamily f) |}.

(** [fetch('/api/upload', { method: 'POST', body })]: the request is
    recorded; unless the network fails, the route runs on the server. *)
Definition fetchUpload (body : UploadRoute.FormData)
  : Flow.M World unit UploadRoute.Response :=
  λ w,
    let sent :=
      mkWorld (formData w) (saving w) (uploadProgress w) (error w)
              (requests w ++ [body]) (server w) (networkError w) in
    match networkError w with
    | Some msg => Flow.Throw msg sent
    | None =>
        let '(response, server') :=
          UploadRoute.respond (UploadRoute.Multipart body) (server w) in
        Flow.Next response
          (mkWorld (formData w) (saving w) (uploadProgress w) (error w)
                   (requests w ++ [body]) server' (networkError w))
    end.

(** [!value] on a file input that holds a file or [null]. *)
Definition missing {A} (value : option A) : bool :=
  match value with
  | None => true
  | Some _ => false
  end.

(** [response.ok]. *)
Definition ok (response : UploadRoute.Response) : bool :=
  (200 <=? UploadRoute.status response)%Z
  && (UploadRoute.status response <=? 299)%Z.

(** [result.error || 'Failed to upload file']. *)
Definition errorOf (response : UploadRoute.Response) : string :=
  match UploadRoute.body response with
  | UploadRoute.ErrorBody e =>
      if String.eqb e "" then "Failed to upload file" else e
  | _ => "Failed to upload file"
  end.

(** [handleSave].  The interval that animates the progress bar while the
    request is pending is not part of the run. *)
Definition handleSave : Flow.M World unit unit :=
  Flow.modify (setSaving true);;
  Flow.modify (setError None);;
  Flow.modify (setUploadProgress 0);;
  w ← Flow.get;
  let f := formData w in
  (* [!formData.title || !formData.file] *)
  match (if String.eqb (form_title f) "" then None else form_file f) with
  | None =>
      Flow.modify (setError (Some "Title and file are required."));;
      Flow.modify (setSaving false);;
      Flow.returnWith tt
  | Some file =>
      if form_isEditable f && isPsdName (file_name file)
         && missing (form_thumbnail f)
      then
        Flow.modify
          (setError
             (Some "Thumbnail image (PNG/JPEG) is required for editable PSDs."));;
        Flow.modify (setSaving false);;
        Flow.returnWith tt
      else if exceedsMaxFileSize file (form_thumbnail f) then
        Flow.modify (setError (Some sizeErrorMessage));;
        Flow.modify (setSaving false);;
        Flow.returnWith tt
      else
        Flow.tryFinally
          (Flow.tryCatch
             (response ← fetchUpload (formDataToSend file f);
              if ok response then
                Flow.modify (setUploadProgress 100);;
                Flow.modify (setFormData emptyForm)
              else Flow.throw (errorOf response))
             (λ message, Flow.modify (setError (Some message))))
          (setSaving false)
  end.

(** The messages the form validation reports. *)
Definition validationErrors : list string :=
  [ "Title and file are required.";
    "Thumbnail image (PNG/JPEG) is required for editable PSDs.";
    sizeErrorMessage ].

End Admin.

(** ** Vocabulary of the properties *)

Module Spec.
Import Dashboard.
Local Open Scope Q_scope.

(** The point of the interval from [lo] to [hi] nearest to [v]. *)
Definition nearest (lo hi v : Q) : Q :=
  if Qlt_le_dec v lo then lo else if Qlt_le_dec hi v then hi else v.

(** Clamping [v] into the range from [lo] to [hi]: the nearest point of the
    range, and the lower bound [lo] when the range is empty. *)
Definition clamp (lo hi v : Q) : Q :=
  if Qlt_le_dec hi lo then lo else nearest lo hi v.

Inductive Layer : Type := TextLayer | ImageLayer.

Definition position (layer : Layer) (f : EditFormData) : Point :=
  match layer with
  | TextLayer => textPosition f
  | ImageLayer => imagePosition f
  end.

(** One drag step on a layer: the [onDrag] handler of that layer. *)
Definition dragStep (layer : Layer) (textBox : option Size) (zoomLevel : Q)
    (delta : Point) (prev : EditFormData) : EditFormData :=
  match layer with
  | TextLayer => handleTextDrag textBox zoomLevel delta prev
  | ImageLayer => handleImageDrag zoomLevel delta prev
  end.

(** The size of a layer on screen: the stored size of the image, the
    measured box of the text (nothing while it is not rendered), times the
    zoom level. *)
Definition scaledSize (layer : Layer) (textBox : option Size) (zoomLevel : Q)
    (f : EditFormData) : Size :=
  match layer with
  | TextLayer =>
      mkSize (from_option width 0 textBox * zoomLevel)
             (from_option height 0 textBox * zoomLevel)
  | ImageLayer =>
      mkSize (width (imageSize f) * zoomLevel)
             (height (imageSize f) * zoomLevel)
  end.

(** Every attribute of the form but the position of [layer]. *)
Definition attributesBut (layer : Layer) (f : EditFormData) :=
  (name f, image f, textColor f, fontSize f, fontFamily f, fontStyle f,
   fontWeight f, textRotation f, imageRotation f, imageSize f,
   match layer with
   | TextLayer => imagePosition f
   | ImageLayer => textPosition f
   end).

(** The bottom-right corner of the image layer, in logical coordinates. *)
Definition bottomRight (f : EditFormData) : Point :=
  mkPoint (x (imagePosition f) + width (imageSize f))
          (y (imagePosition f) + height (imageSize f)).

Definition samePoint (p q : Point) : Prop := x p == x q ∧ y p == y q.

(** The download count the gallery orders by: the count the poster holds,
    and 0 for a poster that holds none. *)
Definition downloads (p : Poster) : Z :=
  match download_count p with
  | Some n => n
  | None => 0%Z
  end.

(** The count fetch of a gallery download fails: the call errors, or no
    row has the id. *)
Definition fetchFails (w : Dashboard.World) (posterId : Z) : Prop :=
  is_Some (selectError (backend w)) ∨ table (backend w) !! posterId = None.

(** The count fetch succeeds and reads [count]. *)
Definition fetches (w : Dashboard.World) (posterId : Z) (count : option Z)
  : Prop :=
  selectError (backend w) = None ∧ table (backend w) !! posterId = Some count.

(** The message of a failed counter update. *)
Definition counterError : string := "Failed to update download count.".

(** The order of a list sorted by a key, largest first. *)
Definition descending {A} (key : A → Z) (a b : A) : Prop :=
  (key b <= key a)%Z.

(** A poster with the given id and count, for the examples. *)
Definition sample (n : Z) (count : option Z) : Poster :=
  mkPoster n "Diwali" Festival "https://cdn/p.png" None None false
           "2025-01-01T00:00:00Z" count.

(** A dashboard with one poster of id 7 and count 3, the backend holding
    the same count; [updateFailure] is the outcome of the write-back. *)
Definition galleryWorld (updateFailure : option string) : Dashboard.World :=
  Dashboard.mkWorld [sample 7 (Some 3%Z)] [sample 7 (Some 3%Z)] ∅ None
    (mkBackend {[ 7%Z := Some 3%Z ]} None updateFailure AssetOk) [].

(** The messages with which the route rejects a request before it calls
    the backend. *)
Definition routeValidationErrors : list string :=
  [ "Missing file, title, or category"; sizeErrorMessage ].

(** The route rejects the form: status 400 with a validation message, and
    the backend is as before. *)
Definition routeRejects (fd : UploadRoute.FormData) : Prop :=
  ∀ w : UploadRoute.World,
    let r := UploadRoute.respond (UploadRoute.Multipart fd) w in
    UploadRoute.status r.1 = 400%Z
    ∧ (∃ msg, UploadRoute.body r.1 = UploadRoute.ErrorBody msg
              ∧ msg ∈ routeValidationErrors)
    ∧ r.2 = w.

(** The form passes the validation of the route: whatever the backend
    does, the answer is not one of the validation messages. *)
Definition routeValidates (fd : UploadRoute.FormData) : Prop :=
  ∀ (w : UploadRoute.World) (msg : string),
    msg ∈ routeValidationErrors →
    UploadRoute.body (UploadRoute.respond (UploadRoute.Multipart fd) w).1
    ≠ UploadRoute.ErrorBody msg.

(** The admin form is rejected: a validation message is shown, no request
    is sent and the backend is as before. *)
Definition formRejects (f : Admin.FormState) : Prop :=
  ∀ w : Admin.World,
    Admin.formData w = f →
    let w' := Flow.finalWorld (Admin.handleSave w) in
    (∃ msg, Admin.error w' = Some msg ∧ msg ∈ Admin.validationErrors)
    ∧ Admin.requests w' = Admin.requests w
    ∧ Admin.server w' = Admin.server w
    ∧ Admin.saving w' = false.

(** The admin form passes its validation: the request is sent. *)
Definition formValidates (f : Admin.FormState) (file : File) : Prop :=
  ∀ w : Admin.World,
    Admin.formData w = f →
    Admin.requests (Flow.finalWorld (Admin.handleSave w))
    = Admin.requests w ++ [Admin.formDataToSend file f].

(** The storage path of a layered-source asset uploaded with [title]. *)
Definition psdPath (w : UploadRoute.World) (title : string) : string :=
  "psd/" +:+ pretty (UploadRoute.nowFile w) +:+ "-"
  +:+ JS.replaceSpaces false title +:+ ".psd".

(** A backend with an empty bucket and table; [uploadFailure] is the
    outcome of the storage upload. *)
Definition routeWorld (uploadFailure : option string) : UploadRoute.World :=
  UploadRoute.mkWorld ∅ [] (λ path, "https://cdn.example/" +:+ path)
    1700000000000 1700000000001 "2025-01-01T00:00:00.000Z"
    uploadFailure None None.

(** An upload of a layered-source file without a thumbnail. *)
Definition psdUpload : UploadRoute.FormData :=
  UploadRoute.mkFormData (Some (mkFile "Card.PSD" 1024 "image/vnd.adobe.photoshop"))
    None (Some "New Year") (Some "Festival") (Some "true") (Some "Roboto").

(** The admin page on that backend, with the same upload in the form. *)
Definition adminWorld (f : Admin.FormState) : Admin.World :=
  Admin.mkWorld f false 0 None [] (routeWorld None) None.

Definition psdForm : Admin.FormState :=
  Admin.mkFormState Festival "New Year"
    (Some (mkFile "Card.PSD" 1024 "image/vnd.adobe.photoshop")) None true
    "Roboto".

(** An upload of a PNG of the given size, as a request and as the admin
    form. *)
Definition pngFile (size : Z) : File := mkFile "card.png" size "image/png".

Definition pngUpload (size : Z) : UploadRoute.FormData :=
  UploadRoute.mkFormData (Some (pngFile size)) None (Some "New Year")
    (Some "Festival") (Some "false") (Some "Roboto").

Definition pngForm (size : Z) : Admin.FormState :=
  Admin.mkFormState Festival "New Year" (Some (pngFile size)) None false
    "Roboto".

End Spec.

(** ** The customized download ([handleEditSave]) and the modal around it *)

Module Editor.
Import Dashboard.

(** The dashboard while the customization modal is in use: the gallery
    state with its backend, the poster being edited, the form and the zoom
    level, whether the canvas element is mounted ([canvasRef.current]), and
    the error [html2canvas] is going to reject with, if any. *)
Record World : Type := mkWorld {
  gallery : Dashboard.World;
  editingPoster : option Poster;
  editFormData : EditFormData;
  zoomLevel : Q;
  canvasMounted : bool;
  renderError : option string
}.

Definition setGallery (f : Dashboard.World → Dashboard.World) (w : World)
  : World :=
  mkWorld (f (gallery w)) (editingPoster w) (editFormData w) (zoomLevel w)
          (canvasMounted w) (renderError w).

(** A step of the gallery, run inside the modal's world. *)
Definition inGallery {R A} (m : Flow.M Dashboard.World R A)
  : Flow.M World R A :=
  λ w, match m (gallery w) with
       | Flow.Next a g => Flow.Next a (setGallery (λ _, g) w)
       | Flow.Return r g => Flow.Return r (setGallery (λ _, g) w)
       | Flow.Throw msg g => Flow.Throw msg (setGallery (λ _, g) w)
       end.

(** [setEditingPoster(null)], the form back to its initial values and
    [setZoomLevel(1)]: the end of a save and all of [closeEditModal]. *)
Definition closeEditModal (w : World) : World :=
  mkWorld (gallery w) None initialEditFormData initialZoomLevel
          (canvasMounted w) (renderError w).

(** [await html2canvas(canvasRef.current, ...)]. *)
Definition html2canvas : Flow.M World unit unit :=
  λ w, match renderError w with
       | Some msg => Flow.Throw msg w
       | None => Flow.Next tt w
       end.

(** [editingPoster!]: reading a property of [null] throws. *)
Definition editingPosterNonNull : Flow.M World unit Poster :=
  λ w, match editingPoster w with
       | Some poster => Flow.Next poster w
       | None =>
           Flow.Throw "Cannot read properties of null (reading 'title')" w
       end.

(** The patch of a customized download:
    [{ ...poster, download_count: (poster.download_count || 0) + 1 }] on
    the entries with the id. *)
Definition bumpCount (posterId : Z) (prev : list Poster) : list Poster :=
  map (λ poster,
         if (id poster =? posterId)%Z
         then withDownloadCount (JS.orZero (download_count poster) + 1) poster
         else poster) prev.

(** [handleEditSave]. *)
Definition handleEditSave : Flow.M World unit unit :=
  w ← Flow.get;
  if negb (canvasMounted w) then
    inGallery
      (Flow.modify (setErrorMessage (Some "Cannot save: Canvas not found")));;
    Flow.returnWith tt
  else
    Flow.tryCatch
      (html2canvas;;
       poster ← editingPosterNonNull;
       inGallery
         (Flow.modify
            (logCall (CallSaveFile (title poster +:+ "-customized.png"))));;
       error ← inGallery
                 (updateDownloadCount (id poster)
                    (JS.orZero (download_count poster) + 1));
       match error with
       | Some _ =>
           inGallery
             (Flow.modify
                (setErrorMessage (Some "Failed to update download count.")))
       | None =>
           inGallery (Flow.modify (setPosters (bumpCount (id poster))));;
           inGallery
             (Flow.modify (setFilteredPosters (bumpCount (id poster))))
       end;;
       Flow.modify closeEditModal)
      (λ message,
         inGallery
           (Flow.modify
              (setErrorMessage
                 (Some ("Failed to save customized poster: " +:+ message))))).

(** The [Edit] button of a card: [setEditingPoster(poster)]. *)
Definition openEditModal (poster : Poster) (w : World) : World :=
  mkWorld (gallery w) (Some poster) (editFormData w) (zoomLevel w)
          (canvasMounted w) (renderError w).

End Editor.

(** ** The category bar ([CategoryScroll]) *)

Module CategoryScroll.

Definition categories : list string :=
  ["All"; "Festival"; "Birthday"; "Marriage"].

Definition categoriesPerSet : Z := 3.

Section Sets.
(** The list the component pages through; [categories] in the source. *)
Variable shown : list string.

(** [shown.slice(1)]. *)
Definition withoutAll : list string := drop 1 shown.

(** [Math.ceil(shown.slice(1).length / categoriesPerSet)]. *)
Definition totalSets : Z :=
  Qceiling (inject_Z (Z.of_nat (length withoutAll))
            / inject_Z categoriesPerSet).

(** [arr.slice(from, to)] for indices that are not negative. *)
Definition slice (from to : Z) (l : list string) : list string :=
  take (Z.to_nat to - Z.to_nat from) (drop (Z.to_nat from) l).

(** What the bar shows: everything on a desktop, one set otherwise. *)
Definition currentCategories (isDesktop : bool) (categorySetIndex : Z)
  : list string :=
  if isDesktop then shown
  else slice (categorySetIndex * categoriesPerSet)
             ((categorySetIndex + 1) * categoriesPerSet) withoutAll.

(** [(prev + 1) % totalSets] and [(prev - 1 + totalSets) % totalSets]. *)
Definition handleNextSet (prev : Z) : Z := Z.rem (prev + 1) totalSets.
Definition handlePrevSet (prev : Z) : Z :=
  Z.rem (prev - 1 + totalSets) totalSets.
End Sets.

End CategoryScroll.

(** ** The table and the bucket behind the admin operations *)

Module Store.

(** How a call to the hosted backend ends: it succeeds, it reports an
    [error], or the client throws. *)
Inductive Outcome : Type :=
| Succeeds
| Fails (message : string)
| Throws (message : string).

(** The rows of the [posters] table by id, the object paths of the
    [posters] bucket, and the outcome of each kind of call. *)
Record Backend : Type := mkBackend {
  rows : gmap Z UploadRoute.Row;
  objects : gset string;
  deleteOutcome : Outcome;
  removeOutcome : Outcome;
  updateOutcome : Outcome
}.

Definition setRows (f : gmap Z UploadRoute.Row → gmap Z UploadRoute.Row)
    (b : Backend) : Backend :=
  mkBackend (f (rows b)) (objects b) (deleteOutcome b) (removeOutcome b)
            (updateOutcome b).

Definition setObjects (f : gset string → gset string) (b : Backend)
  : Backend :=
  mkBackend (rows b) (f (objects b)) (deleteOutcome b) (removeOutcome b)
            (updateOutcome b).

(** A call with the given outcome and effect: the error it reports, if
    any; the effect takes place when it succeeds. *)
Definition call {W R} (outcome : Outcome) (effect : W → W)
  : Flow.M W R (option string) :=
  λ w, match outcome with
       | Succeeds => Flow.Next None (effect w)
       | Fails message => Flow.Next (Some message) w
       | Throws message => Flow.Throw message w
       end.

(** [{ ...row, title, category }]. *)
Definition withTitleCategory (title category : string)
    (row : UploadRoute.Row) : UploadRoute.Row :=
  {| UploadRoute.row_title := title;
     UploadRoute.row_category := category;
     UploadRoute.row_download_url := UploadRoute.row_download_url row;
     UploadRoute.row_psd_url := UploadRoute.row_psd_url row;
     UploadRoute.row_font_family := UploadRoute.row_font_family row;
     UploadRoute.row_is_editable := UploadRoute.row_is_editable row;
     UploadRoute.row_created_at := UploadRoute.row_created_at row |}.

(** [{ ...row, title, category, font_family, is_editable }]. *)
Definition withEdit (title category fontFamily : string) (isEditable : bool)
    (row : UploadRoute.Row) : UploadRoute.Row :=
  {| UploadRoute.row_title := title;
     UploadRoute.row_category := category;
     UploadRoute.row_download_url := UploadRoute.row_download_url row;
     UploadRoute.row_psd_url := UploadRoute.row_psd_url row;
     UploadRoute.row_font_family := Some fontFamily;
     UploadRoute.row_is_editable := isEditable;
     UploadRoute.row_created_at := UploadRoute.row_created_at row |}.

End Store.

(** ** The admin page: delete, edit and update *)

Module AdminOps.

(** The form of the edit modal. *)
Record EditForm : Type := mkEditForm {
  edit_title : string;
  edit_category : Category;
  edit_fontFamily : string;
  edit_isEditable : bool
}.

Definition emptyEditForm : EditForm := mkEditForm "" Festival "Roboto" false.

Record World : Type := mkWorld {
  backend : Store.Backend;
  confirms : bool;               (** the answer to [confirm(...)] *)
  error : option string;
  editingPoster : option Poster;
  editFormData : EditForm
}.

Definition setBackend (f : Store.Backend → Store.Backend) (w : World)
  : World :=
  mkWorld (f (backend w)) (confirms w) (error w) (editingPoster w)
          (editFormData w).

Definition setError (e : option string) (w : World) : World :=
  mkWorld (backend w) (confirms w) e (editingPoster w) (editFormData w).

(** [a || b] on strings. *)
Definition orElse (a b : string) : string :=
  if String.eqb a "" then b else a.

(** [poster.download_url || poster.psd_url || '']. *)
Definition assetUrl (poster : Poster) : string :=
  orElse (orElse (download_url poster) (default "" (psd_url poster))) "".

(** The file name the [Delete] button passes:
    [(poster.download_url || poster.psd_url || '').split('/').pop()!]. *)
Definition deleteFilename (poster : Poster) : string :=
  default "" (JS.pop (JS.split "/" (assetUrl poster))).

(** [filename.includes('psd/') ? filename : `thumbnails/${filename}`]. *)
Definition storagePath (filename : string) : string :=
  if JS.includes filename "psd/" then filename
  else "thumbnails/" +:+ filename.

(** [handleDelete(id, filename)]. *)
Definition handleDelete (posterId : Z) (filename : string)
  : Flow.M World unit unit :=
  w ← Flow.get;
  if negb (confirms w) then Flow.returnWith tt
  else
    Flow.tryCatch
      (deleteError ←
         Store.call (Store.deleteOutcome (backend w))
           (setBackend (Store.setRows (delete posterId)));
       match deleteError with
       | Some message =>
           Flow.modify
             (setError (Some ("Failed to delete poster: " +:+ message)));;
           Flow.returnWith tt
       | None =>
           let path := storagePath filename in
           storageError ←
             Store.call (Store.removeOutcome (backend w))
               (setBackend (Store.setObjects (λ os, os ∖ {[ path ]})));
           match storageError with
           | Some message =>
               Flow.modify
                 (setError
                    (Some ("Failed to delete file from storage: "
                           +:+ message)))
           | None => mret tt
           end
       end)
      (λ message,
         Flow.modify
           (setError (Some ("Failed to delete poster: " +:+ message)))).

(** The [Delete] button of a card. *)
Definition deleteButton (poster : Poster) : Flow.M World unit unit :=
  handleDelete (id poster) (deleteFilename poster).

(** [handleEdit(poster)]; the font family is
    [poster.font_family || 'Roboto']. *)
Definition handleEdit (poster : Poster) (w : World) : World :=
  mkWorld (backend w) (confirms w) (error w) (Some poster)
          (mkEditForm (title poster) (category poster)
                      (orElse (default "" (font_family poster)) "Roboto")
                      (is_editable poster)).

(** [closeEditModal]. *)
Definition closeEditModal (w : World) : World :=
  mkWorld (backend w) (confirms w) (error w) None emptyEditForm.

(** [handleUpdate]. *)
Definition handleUpdate : Flow.M World unit unit :=
  w ← Flow.get;
  match editingPoster w with
  | None => Flow.returnWith tt
  | Some poster =>
      Flow.tryCatch
        (let f := editFormData w in
         error ←
           Store.call (Store.updateOutcome (backend w))
             (setBackend
                (Store.setRows
                   (alter (Store.withEdit (edit_title f)
                             (categoryName (edit_category f))
                             (edit_fontFamily f) (edit_isEditable f))
                          (id poster))));
         match error with
         | Some message =>
             Flow.modify
               (setError (Some ("Failed to update poster: " +:+ message)))
         | None => Flow.modify closeEditModal
         end)
        (λ message,
           Flow.modify
             (setError (Some ("Failed to update poster: " +:+ message))))
  end.

End AdminOps.

(** ** The update and delete routes ([PUT /api/update],
    [DELETE /api/delete]) *)

Module Api.

Inductive Body : Type :=
| ErrorBody (error : string)
| MessageBody (message : string).

Record Response : Type := mkResponse {
  status : Z;
  body : Body
}.

(** The JSON body of a request, field by field; [request.json()] rejects
    on a body that is not JSON. *)
Inductive Request (Fields : Type) : Type :=
| Json (fields : Fields)
| Malformed (reason : string).
Arguments Json {Fields} fields.
Arguments Malformed {Fields} reason.

Record DeleteFields : Type := mkDeleteFields {
  delete_id : option Z;
  delete_filename : option string
}.

Record UpdateFields : Type := mkUpdateFields {
  update_id : option Z;
  update_title : option string;
  update_category : option string
}.

(** A number is falsy when it is absent or 0. *)
Definition truthyId (n : option Z) : option Z :=
  match n with
  | Some v => if (v =? 0)%Z then None else Some v
  | None => None
  end.

Definition json {A} (b : Body) (st : Z) : Flow.M Store.Backend Response A :=
  Flow.returnWith (mkResponse st b).

Definition jsonOf {Fields} (request : Request Fields)
  : Flow.M Store.Backend Response Fields :=
  match request with
  | Json fields => mret fields
  | Malformed reason => Flow.throw reason
  end.

Definition DELETE (request : Request DeleteFields)
  : Flow.M Store.Backend Response Empty_set :=
  Flow.tryCatch
    (fields ← jsonOf request;
     match truthyId (delete_id fields),
           UploadRoute.truthy (delete_filename fields) with
     | Some posterId, Some filename =>
         b ← Flow.get;
         storageError ←
           Store.call (Store.removeOutcome b)
             (Store.setObjects (λ os, os ∖ {[ filename ]}));
         match storageError with
         | Some message =>
             json (ErrorBody ("Failed to delete file: " +:+ message)) 400
         | None =>
             dbError ←
               Store.call (Store.deleteOutcome b)
                 (Store.setRows (delete posterId));
             match dbError with
             | Some message =>
                 json (ErrorBody ("Failed to delete poster: " +:+ message))
                      400
             | None => json (MessageBody "Poster deleted successfully") 200
             end
         end
     | _, _ => json (ErrorBody "Missing id or filename") 400
     end)
    (λ message, json (ErrorBody ("Delete failed: " +:+ message)) 500).

Definition PUT (request : Request UpdateFields)
  : Flow.M Store.Backend Response Empty_set :=
  Flow.tryCatch
    (fields ← jsonOf request;
     match truthyId (update_id fields),
           UploadRoute.truthy (update_title fields),
           UploadRoute.truthy (update_category fields) with
     | Some posterId, Some title, Some category =>
         b ← Flow.get;
         dbError ←
           Store.call (Store.updateOutcome b)
             (Store.setRows
                (alter (Store.withTitleCategory title category) posterId));
         match dbError with
         | Some message =>
             json (ErrorBody ("Failed to update poster: " +:+ message)) 400
         | None => json (MessageBody "Poster updated successfully") 200
         end
     | _, _, _ => json (ErrorBody "Missing id, title, or category") 400
     end)
    (λ message, json (ErrorBody ("Update failed: " +:+ message)) 500).

(** The response of a call and the backend it leaves. *)
Definition respond (handler : Flow.M Store.Backend Response Empty_set)
    (b : Store.Backend) : Response * Store.Backend :=
  match handler b with
  | Flow.Return r b' => (r, b')
  | Flow.Throw msg b' => (mkResponse 500 (ErrorBody msg), b')
  | Flow.Next a _ => match a with end
  end.

End Api.

(** ** Worlds for the examples *)

Module Samples.
Import Spec.

(** The modal open on the poster of [galleryWorld], whose local copy shows
    3 downloads, while the table holds [stored]. *)
Definition editorWorld (stored : option Z) (mounted : bool)
    (render updateFailure : option string) : Editor.World :=
  Editor.mkWorld
    (Dashboard.mkWorld [sample 7 (Some 3%Z)] [sample 7 (Some 3%Z)] ∅ None
       (Dashboard.mkBackend {[ 7%Z := stored ]} None updateFailure
          Dashboard.AssetOk) [])
    (Some (sample 7 (Some 3%Z))) Dashboard.initialEditFormData 1 mounted
    render.

(** A gallery download of the poster of [galleryWorld] whose asset cannot
    be fetched. *)
Definition brokenAssetWorld : Dashboard.World :=
  Dashboard.mkWorld [sample 7 (Some 3%Z)] [sample 7 (Some 3%Z)]
    {[ 9%Z := 2%Z ]} None
    (Dashboard.mkBackend {[ 7%Z := Some 3%Z ]} None None Dashboard.AssetNotOk)
    [].

(** A gallery of two posters, 7 before 8, of 3 downloads each; the asset
    of a download cannot be fetched. *)
Definition twoPosterWorld : Dashboard.World :=
  Dashboard.mkWorld [sample 7 (Some 3%Z); sample 8 (Some 3%Z)]
    [sample 7 (Some 3%Z); sample 8 (Some 3%Z)] ∅ None
    (Dashboard.mkBackend {[ 7%Z := Some 3%Z; 8%Z := Some 3%Z ]} None None
       Dashboard.AssetNotOk)
    [].

End Samples.

(** ** Paths and names of the upload route *)

Module RouteTerms.

(** [s] holds the character [c]. *)
Fixpoint contains (c : ascii) (s : string) : bool :=
  match s with
  | EmptyString => false
  | String c' s' => Ascii.eqb c' c || contains c s'
  end.

(** The path the route stores the asset under. *)
Definition assetPath (w : UploadRoute.World) (title : string) (file : File)
  : string :=
  (if isPsdName (file_name file) then "psd/" else "thumbnails/")
  +:+ pretty (UploadRoute.nowFile w) +:+ "-"
  +:+ JS.replaceSpaces false title +:+ "."
  +:+ default "undefined" (fileExt (file_name file)).

(** The path the route stores a thumbnail under. *)
Definition thumbnailPath (w : UploadRoute.World) (title : string) : string :=
  "thumbnails/" +:+ pretty (UploadRoute.nowThumbnail w) +:+ "-"
  +:+ JS.replaceSpaces false title +:+ "-thumb.png".

(** A request with a PSD and its thumbnail, and one with a JPEG and a
    thumbnail. *)
Definition psdWithThumbnail : UploadRoute.FormData :=
  UploadRoute.mkFormData
    (Some (mkFile "Card.psd" 1024 "image/vnd.adobe.photoshop"))
    (Some (mkFile "card.jpg" 512 "image/jpeg"))
    (Some "New Year") (Some "Festival") (Some "true") (Some "Roboto").

Definition jpegWithThumbnail : UploadRoute.FormData :=
  UploadRoute.mkFormData
    (Some (mkFile "card.jpeg" 1024 "image/jpeg"))
    (Some (mkFile "small.png" 512 "image/png"))
    (Some "New Year") (Some "Festival") (Some "false") None.

(** A backend on which the table insert fails. *)
Definition insertFailingWorld : UploadRoute.World :=
  UploadRoute.mkWorld ∅ [] (λ path, "https://cdn.example/" +:+ path)
    1700000000000 1700000000001 "2025-01-01T00:00:00.000Z"
    None None (Some "duplicate key").

End RouteTerms.

(** ** Worlds of the admin page for the examples *)

Module AdminSamples.
Import Spec.

(** A form with a PNG and a title, on a backend whose table insert
    fails. *)
Definition adminInsertFailing : Admin.World :=
  Admin.mkWorld (pngForm 2048) false 0 None [] RouteTerms.insertFailingWorld
    None.

(** A stored row and its poster, a PSD uploaded without a thumbnail. *)
Definition psdRow : UploadRoute.Row :=
  UploadRoute.mkRow "New Year" "Festival" ""
    (Some "https://cdn.example/psd/1700000000000-New-Year.psd")
    None true "2025-01-01T00:00:00.000Z".

Definition psdPoster : Poster :=
  mkPoster 5 "New Year" Festival ""
    (Some "https://cdn.example/psd/1700000000000-New-Year.psd")
    None true "2025-01-01T00:00:00.000Z" None.

(** The admin page over a table with that row and a bucket with its
    object; [answers] is the answer to the confirmation. *)
Definition opsWorld (answers : bool) (deleting removing updating : Store.Outcome)
  : AdminOps.World :=
  AdminOps.mkWorld
    (Store.mkBackend {[ 5%Z := psdRow ]}
       {[ "psd/1700000000000-New-Year.psd" ]} deleting removing updating)
    answers None None AdminOps.emptyEditForm.

End AdminSamples.

(** ** Backends for the examples of the update and delete routes *)

Module ApiSamples.

(** A table with the row 5 of [AdminSamples] and its object in the
    bucket. *)
Definition store (deleting removing updating : Store.Outcome)
  : Store.Backend :=
  Store.mkBackend {[ 5%Z := AdminSamples.psdRow ]}
    {[ "psd/1700000000000-New-Year.psd" ]} deleting removing updating.

End ApiSamples.

(** ** What the search box finds *)

Module SearchTerms.

(** A text of ASCII characters only.  On such a text [toLowerCase] changes
    the letters [A] to [Z] and nothing else. *)
Fixpoint asciiText (s : string) : bool :=
  match s with
  | EmptyString => true
  | String c s' => (nat_of_ascii c <? 128)%nat && asciiText s'
  end.

(** The same character, or the capital and the small form of one of the
    letters [A] to [Z] (codes 65 to 90, the small forms 32 above). *)
Definition sameLetter (c d : ascii) : bool :=
  let m := nat_of_ascii c in
  let n := nat_of_ascii d in
  ((m =? n)
   || ((65 <=? m) && (m <=? 90) && (n =? m + 32))
   || ((65 <=? n) && (n <=? 90) && (m =? n + 32)))%nat.

(** Two texts that read the same, letter by letter, the case of the
    letters set aside. *)
Fixpoint sameText (s t : string) : bool :=
  match s, t with
  | EmptyString, EmptyString => true
  | String c s', String d t' => sameLetter c d && sameText s' t'
  | _, _ => false
  end.

(** [query] occurs in [text], the case of the letters set aside: a
    stretch of the text reads the same as the query. *)
Definition occursIn (query text : string) : Prop :=
  ∃ before found after,
    text = before +:+ found +:+ after ∧ sameText found query = true.

(** Three posters of three categories, for the examples. *)
Definition diwaliPoster : Poster :=
  mkPoster 1 "Diwali Lights" Festival "https://cdn/1.png" None None false
           "2025-01-03T00:00:00Z" None.
Definition birthdayPoster : Poster :=
  mkPoster 2 "Happy Birthday" Birthday "https://cdn/2.png" None None false
           "2025-01-02T00:00:00Z" (Some 4%Z).
Definition weddingPoster : Poster :=
  mkPoster 3 "Wedding Day" Marriage "https://cdn/3.png" None None false
           "2025-01-01T00:00:00Z" (Some 1%Z).
Definition shelf : list Poster :=
  [diwaliPoster; birthdayPoster; weddingPoster].

End SearchTerms.

(** * Properties *)

(** Closed comparisons of rationals are settled by evaluation. *)
Ltac evaluate := vm_compute; first [reflexivity | discriminate].

(** ** Arithmetic of the built-ins *)

Module JSFacts.
Local Open Scope Q_scope.

Lemma max_min_nearest (lo hi v : Q) :
  lo <= hi → JS.Math_max lo (JS.Math_min hi v) == Spec.nearest lo hi v.
Proof.
  intros Hr. unfold JS.Math_max, JS.Math_min, Spec.nearest.
  destruct (Q.min_spec hi v) as [[Hm Em]|[Hm Em]];
    destruct (Q.max_spec lo (Qmin hi v)) as [[HM EM]|[HM EM]];
    rewrite EM, ?Em; rewrite Em in HM;
    destruct (Qlt_le_dec v lo); destruct (Qlt_le_dec hi v); lra.
Qed.

Lemma max_min_empty (lo hi v : Q) :
  hi < lo → JS.Math_max lo (JS.Math_min hi v) == lo.
Proof.
  intros Hr. unfold JS.Math_max, JS.Math_min.
  destruct (Q.min_spec hi v) as [[Hm Em]|[Hm Em]];
    destruct (Q.max_spec lo (Qmin hi v)) as [[HM EM]|[HM EM]];
    rewrite EM, ?Em; rewrite Em in HM; lra.
Qed.

(** [Math.max(lo, Math.min(hi, v))] clamps [v] into the range. *)
Lemma max_min_clamp (lo hi v : Q) :
  JS.Math_max lo (JS.Math_min hi v) == Spec.clamp lo hi v.
Proof.
  unfold Spec.clamp. destruct (Qlt_le_dec hi lo).
  - by apply max_min_empty.
  - by apply max_min_nearest.
Qed.

Lemma clamp_in_range (lo hi v : Q) :
  lo <= hi → lo <= Spec.clamp lo hi v <= hi.
Proof.
  intros Hr. unfold Spec.clamp, Spec.nearest.
  destruct (Qlt_le_dec hi lo); [lra|].
  destruct (Qlt_le_dec v lo); [lra|]. destruct (Qlt_le_dec hi v); lra.
Qed.

Lemma clamp_inside (lo hi v : Q) :
  lo <= v <= hi → Spec.clamp lo hi v == v.
Proof.
  intros Hr. unfold Spec.clamp, Spec.nearest.
  destruct (Qlt_le_dec hi lo); [lra|].
  destruct (Qlt_le_dec v lo); [lra|]. destruct (Qlt_le_dec hi v); lra.
Qed.

Lemma max_lower (lo v : Q) : lo <= JS.Math_max lo v.
Proof. apply Q.le_max_l. Qed.

(** [Math.trunc] rounds toward zero: the integer part is within one of its
    argument, on the side of zero. *)
Lemma trunc_nonneg (t : Q) :
  0 <= t →
  inject_Z (JS.Math_trunc t) <= t < inject_Z (JS.Math_trunc t) + 1.
Proof.
  intros Ht. unfold JS.Math_trunc.
  destruct (Qle_bool 0 t) eqn:E.
  - pose proof (Qfloor_le t) as Hl. pose proof (Qlt_floor t) as Hu.
    rewrite inject_Z_plus in Hu. change (inject_Z 1) with 1 in Hu. lra.
  - apply Qle_bool_iff in Ht. congruence.
Qed.

Lemma trunc_nonpos (t : Q) :
  t <= 0 →
  inject_Z (JS.Math_trunc t) - 1 < t <= inject_Z (JS.Math_trunc t).
Proof.
  intros Ht. unfold JS.Math_trunc.
  destruct (Qle_bool 0 t) eqn:E.
  - apply Qle_bool_iff in E. assert (Ez : t == 0) by lra.
    rewrite (Qfloor_comp _ _ Ez). change (Qfloor 0) with 0%Z.
    change (inject_Z 0) with 0. lra.
  - pose proof (Qle_ceiling t) as Hl. pose proof (Qceiling_lt t) as Hu.
    unfold Z.sub in Hu. rewrite inject_Z_plus, inject_Z_opp in Hu.
    change (inject_Z 1) with 1 in Hu. lra.
Qed.

(** The remainder differs from the dividend by a whole multiple of the
    divisor. *)
Lemma rem_congruent (a b : Q) :
  a == JS.rem a b + b * inject_Z (JS.Math_trunc (a / b)).
Proof. unfold JS.rem. ring. Qed.

Lemma rem_nonneg (a b : Q) : 0 < b → 0 <= a → 0 <= JS.rem a b < b.
Proof.
  intros Hb Ha. unfold JS.rem.
  assert (Ht : 0 <= a / b).
  { apply Qle_shift_div_l; [done|]. lra. }
  destruct (trunc_nonneg _ Ht) as [Hl Hu].
  assert (Ea : a == b * (a / b)) by (field; lra).
  set (k := inject_Z (JS.Math_trunc (a / b))) in *.
  set (t := a / b) in *. clearbody k t. nra.
Qed.

Lemma rem_nonpos (a b : Q) : 0 < b → a <= 0 → - b < JS.rem a b <= 0.
Proof.
  intros Hb Ha. unfold JS.rem.
  assert (Ht : a / b <= 0).
  { apply Qle_shift_div_r; [done|]. lra. }
  destruct (trunc_nonpos _ Ht) as [Hl Hu].
  assert (Ea : a == b * (a / b)) by (field; lra).
  set (k := inject_Z (JS.Math_trunc (a / b))) in *.
  set (t := a / b) in *. clearbody k t. nra.
Qed.

End JSFacts.

(** ** The customization engine *)

Module Customization.
Import Dashboard Spec.
Local Open Scope Q_scope.

(** C1.  At a zoom level [z] between 0.5 and 3, one drag step on a layer
    (text or image) by the pointer delta [(dx, dy)] sets the layer's
    position, each axis on its own, to [position + delta / z] clamped into
    the range from 0 to [400 - scaledWidth] for x and from 0 to
    [280 - scaledHeight] for y, where the scaled size is the stored size
    times [z] for the image and the measured text box times [z] for the
    text; no other attribute of the form changes.  (When the scaled layer
    is larger than the canvas the range is empty and the position is 0.) *)
Theorem drag_step_clamps (z : Q) (layer : Layer) (textBox : option Size)
    (delta : Point) (prev : EditFormData) :
  0.5 <= z <= 3 →
  let next := dragStep layer textBox z delta prev in
  let scaled := scaledSize layer textBox z prev in
  x (position layer next)
    == clamp 0 (400 - width scaled) (x (position layer prev) + x delta / z)
  ∧ y (position layer next)
    == clamp 0 (280 - height scaled) (y (position layer prev) + y delta / z)
  ∧ attributesBut layer next = attributesBut layer prev.
Proof.
  intros _. destruct layer; cbn; repeat split;
    apply JSFacts.max_min_clamp.
Qed.

Lemma drag_step_clamps_witness :
  0.5 <= 2 <= 3
  ∧ x (imagePosition
         (handleImageDrag 2 (mkPoint 30 (-500)) initialEditFormData)) == 65
  ∧ y (imagePosition
         (handleImageDrag 2 (mkPoint 30 (-500)) initialEditFormData)) == 0.
Proof.
  assert (Hz : 0.5 <= 2 <= 3) by (split; discriminate).
  destruct (drag_step_clamps 2 ImageLayer None (mkPoint 30 (-500))
              initialEditFormData Hz) as (Hx & Hy & _).
  split; [exact Hz|]. split.
  - etransitivity; [exact Hx|]. reflexivity.
  - etransitivity; [exact Hy|]. reflexivity.
Defined.

(** Inside the canvas the clamped position is within the range, and a
    target position already in the range is taken as it is. *)
Lemma drag_step_in_range (z : Q) (layer : Layer) (textBox : option Size)
    (delta : Point) (prev : EditFormData) :
  let next := dragStep layer textBox z delta prev in
  let scaled := scaledSize layer textBox z prev in
  (width scaled <= 400 → 0 <= x (position layer next) <= 400 - width scaled)
  ∧ (height scaled <= 280 →
     0 <= y (position layer next) <= 280 - height scaled).
Proof.
  destruct layer; cbn; split; intros Hs;
    rewrite JSFacts.max_min_clamp; apply JSFacts.clamp_in_range; lra.
Qed.

(** Dragging at zoom 2 moves the layer half as far as at zoom 1. *)
Example drag_zoom_halves :
  x (imagePosition
       (handleImageDrag 1 (mkPoint 40 0) initialEditFormData)) == 90
  ∧ x (imagePosition
         (handleImageDrag 2 (mkPoint 40 0) initialEditFormData)) == 70.
Proof. split; reflexivity. Qed.

(** In every state of a session the image is at least 50 wide and has a
    positive height, and the zoom level is between 0.5 and 3. *)
Lemma reachable_invariant (s : Session) :
  reachable s →
  50 <= width (imageSize (form s)) ∧ 0 < height (imageSize (form s))
  ∧ 0.5 <= zoomLevel s <= 3.
Proof.
  induction 1 as [ | s f v _ IH | s file _ IH | s b d _ IH | s d _ IH
                 | s up _ IH | s up _ IH | s t up _ IH | s up _ IH
                 | s0 s e h ev _ IH0 _ IH | s a _ IH ]; cbn in *;
    try exact IH.
  - repeat split; discriminate.
  - destruct file as [f|]; [|exact IH].
    unfold handleImageInputChange. destruct (_ <? _)%Z; exact IH.
  - destruct IH as (Hw & Hh & Hz).
    destruct up; cbn; (split; [apply JSFacts.max_lower|]);
      (split; [|exact Hz]);
      (eapply Qlt_le_trans; [|apply JSFacts.max_lower]); reflexivity.
  - destruct t; exact IH.
  - destruct IH as (Hw & Hh & Hz). split; [exact Hw|]. split; [exact Hh|].
    unfold handleZoom, JS.Math_min, JS.Math_max.
    destruct (Q.min_spec (Qmax 0.5 (zoomLevel s + (if up then 0.1 else -0.1)))
                3) as [[Hm Em]|[Hm Em]]; rewrite Em.
    + split; [apply Q.le_max_l | lra].
    + split; discriminate.
  - destruct IH0 as (Hw0 & Hh0 & _). destruct IH as (_ & _ & Hz).
    unfold handleResizeMove. cbn.
    set (w' := match h with
               | bottom_right => _
               | top_left => _
               end).
    assert (Hw' : 50 <= fst w').
    { subst w'. destruct h; cbn; apply JSFacts.max_lower. }
    destruct w' as [newWidth discarded]. cbn in *.
    split; [exact Hw'|]. split; [|exact Hz].
    apply Qlt_shift_div_l.
    + apply Qlt_shift_div_l; lra.
    + lra.
Qed.

(** The height a resize step stores is the new width divided by the start
    ratio, whatever the handle, so the ratio of the start size is kept. *)
Lemma resize_ratio_kept (g : ResizeGesture) (moveEvent : PointerEvent)
    (prev : EditFormData) :
  0 < startWidth g → 0 < startHeight g →
  let next := handleResizeMove g moveEvent prev in
  height (imageSize next)
    == width (imageSize next) / (startWidth g / startHeight g)
  ∧ width (imageSize next) / height (imageSize next)
    == startWidth g / startHeight g.
Proof.
  intros Hw Hh. unfold handleResizeMove. cbn.
  set (w' := match handle g with
             | bottom_right => _
             | top_left => _
             end).
  assert (Hw' : 50 <= fst w').
  { subst w'. destruct (handle g); cbn; apply JSFacts.max_lower. }
  destruct w' as [newWidth discarded]. cbn in *.
  split; [reflexivity|]. field. repeat split; lra.
Qed.

(** C3.  For a resize gesture on either handle, started while the image has
    a positive width and height (as it has in every state of a session),
    and for every pointer move within it, the width-to-height ratio of the
    image after the step is the ratio at gesture start: the height is the
    width divided by that ratio.  (Numbers are exact rationals here, so the
    ratios are equal, not only close.) *)
Theorem resize_keeps_aspect_ratio (e moveEvent : PointerEvent) (h : Handle)
    (start prev : EditFormData) (zoom : Q) :
  0 < width (imageSize start) → 0 < height (imageSize start) →
  let g := handleResizeStart e h start zoom in
  let next := handleResizeMove g moveEvent prev in
  height (imageSize next)
    == width (imageSize next) / (startWidth g / startHeight g)
  ∧ width (imageSize next) / height (imageSize next)
    == width (imageSize start) / height (imageSize start).
Proof.
  intros Hw Hh.
  apply (resize_ratio_kept (handleResizeStart e h start zoom)); assumption.
Qed.

Lemma resize_keeps_aspect_ratio_witness :
  let start := setImageSize (mkSize 120 80) initialEditFormData in
  let g := handleResizeStart (MouseEvent 10 10) bottom_right start 2 in
  let next := handleResizeMove g (MouseEvent 70 10) start in
  width (imageSize next) == 150 ∧ height (imageSize next) == 100
  ∧ width (imageSize next) / height (imageSize next) == 120 / 80.
Proof.
  cbv zeta.
  destruct (resize_keeps_aspect_ratio (MouseEvent 10 10) (MouseEvent 70 10)
              bottom_right (setImageSize (mkSize 120 80) initialEditFormData)
              (setImageSize (mkSize 120 80) initialEditFormData) 2)
    as [_ Hr]; [reflexivity | reflexivity |].
  split; [reflexivity|]. split; [reflexivity|]. exact Hr.
Defined.

(** The gestures of a session start from a positive size, so the ratio is
    kept by every resize step a session can make. *)
Corollary session_resize_keeps_aspect_ratio (s0 s : Session)
    (e moveEvent : PointerEvent) (h : Handle) :
  reachable s0 →
  let g := handleResizeStart e h (form s0) (zoomLevel s0) in
  let next := handleResizeMove g moveEvent (form s) in
  width (imageSize next) / height (imageSize next)
  == width (imageSize (form s0)) / height (imageSize (form s0)).
Proof.
  intros H0. destruct (reachable_invariant s0 H0) as (Hw & Hh & _).
  apply (resize_ratio_kept
           (handleResizeStart e h (form s0) (zoomLevel s0))); cbn; lra.
Qed.

(** C2, as the code has it.  A resize step of a gesture started on the
    [top-left] handle sets the width to [max(50, startWidth − deltaX / zoom)]
    and the height to that width divided by the start ratio; the position is
    not shifted by the change of size, it is only clamped again into the
    range from 0 to [400 − width·zoom] (x) and from 0 to
    [280 − height·zoom] (y).  So the corner that stays where it was is the
    top-left one (whenever it is in range), and the bottom-right corner
    moves with the size. *)
Theorem top_left_resize_step (e moveEvent : PointerEvent)
    (start prev : EditFormData) (zoom : Q) :
  let g := handleResizeStart e top_left start zoom in
  let next := handleResizeMove g moveEvent prev in
  let deltaX := (clientX moveEvent - clientX e) / zoom in
  let maxX := 400 - width (imageSize next) * zoom in
  let maxY := 280 - height (imageSize next) * zoom in
  width (imageSize next) == Qmax 50 (width (imageSize start) - deltaX)
  ∧ height (imageSize next)
    == width (imageSize next)
       / (width (imageSize start) / height (imageSize start))
  ∧ x (imagePosition next) == clamp 0 maxX (x (imagePosition prev))
  ∧ y (imagePosition next) == clamp 0 maxY (y (imagePosition prev))
  ∧ (0 <= x (imagePosition prev) <= maxX →
     0 <= y (imagePosition prev) <= maxY →
     samePoint (imagePosition next) (imagePosition prev)
     ∧ x (bottomRight next)
       == x (imagePosition prev) + width (imageSize next)
     ∧ y (bottomRight next)
       == y (imagePosition prev) + height (imageSize next)).
Proof.
  cbn. split; [reflexivity|]. split; [reflexivity|].
  split; [apply JSFacts.max_min_clamp|].
  split; [apply JSFacts.max_min_clamp|].
  intros Hx Hy. unfold samePoint. cbn.
  rewrite !JSFacts.max_min_clamp.
  rewrite (JSFacts.clamp_inside _ _ _ Hx), (JSFacts.clamp_inside _ _ _ Hy).
  repeat split; reflexivity.
Qed.

Lemma top_left_resize_step_witness :
  let start := setImagePosition (mkPoint 50 100) initialEditFormData in
  let g := handleResizeStart (MouseEvent 0 0) top_left start 1 in
  let next := handleResizeMove g (MouseEvent (-20) (-20)) start in
  samePoint (imagePosition next) (mkPoint 50 100)
  ∧ x (bottomRight next) == 170 ∧ y (bottomRight next) == 220.
Proof.
  cbv zeta.
  destruct (top_left_resize_step (MouseEvent 0 0) (MouseEvent (-20) (-20))
              (setImagePosition (mkPoint 50 100) initialEditFormData)
              (setImagePosition (mkPoint 50 100) initialEditFormData) 1)
    as (_ & _ & _ & _ & H).
  destruct H as (Hp & Hx & Hy); [split; evaluate | split; evaluate |].
  split; [exact Hp|]. split.
  - etransitivity; [exact Hx|]. reflexivity.
  - etransitivity; [exact Hy|]. reflexivity.
Defined.

(** C2 fails as stated: an image of 100 by 100 at (50, 100) has its
    bottom-right corner at (150, 200); dragging the [top-left] handle by
    (−20, −20) at zoom 1 leaves the corner at (170, 220). *)
Lemma top_left_corner_moves :
  let start := setImagePosition (mkPoint 50 100) initialEditFormData in
  let g := handleResizeStart (MouseEvent 0 0) top_left start 1 in
  let next := handleResizeMove g (MouseEvent (-20) (-20)) start in
  samePoint (bottomRight start) (mkPoint 150 200)
  ∧ samePoint (bottomRight next) (mkPoint 170 220)
  ∧ ¬ samePoint (bottomRight next) (bottomRight start).
Proof.
  cbv zeta. split; [split; reflexivity|]. split; [split; reflexivity|].
  intros [Hx _]. revert Hx. cbn. discriminate.
Qed.

(** The height follows the width, not the vertical pointer travel: with a
    horizontal move of −20 alone the height of a 100 by 100 image becomes
    120, where [max(50, startHeight − deltaY / zoom)] is 100. *)
Example top_left_height_follows_width :
  let start := initialEditFormData in
  let g := handleResizeStart (MouseEvent 0 0) top_left start 1 in
  let next := handleResizeMove g (MouseEvent (-20) 0) start in
  height (imageSize next) == 120
  ∧ ¬ height (imageSize next) == Qmax 50 (height (imageSize start) - 0 / 1).
Proof. cbv zeta. split; [reflexivity|]. cbn. discriminate. Qed.

(** C8, as the code has it.  A press of a text-rotation button with the step
    [s] (+15 or −15) at the rotation [r] stores [(r + s) % 360], the
    remainder that takes the sign of [r + s]: it differs from [r + s] by a
    whole multiple of 360 and lies strictly between −360 and 360; it lies
    in the range from 0 (included) to 360 (excluded) when [r + s] is not
    negative, and between −360 (excluded) and 0 (included) when [r + s] is
    not positive.  Nothing else of the form changes. *)
Theorem text_rotation_step (up : bool) (prev : EditFormData) :
  let s := if up then 15 else -15 in
  let r := textRotation prev in
  let next := handleRotationChange text s prev in
  (∃ k : Z, r + s == textRotation next + 360 * inject_Z k)
  ∧ - (360) < textRotation next < 360
  ∧ (0 <= r + s → 0 <= textRotation next < 360)
  ∧ (r + s <= 0 → - (360) < textRotation next <= 0)
  ∧ next = setTextRotation (textRotation next) prev.
Proof.
  cbn. set (a := textRotation prev + (if up then 15 else -15)).
  assert (Hpos : 0 <= a → 0 <= JS.rem a 360 < 360).
  { apply JSFacts.rem_nonneg. reflexivity. }
  assert (Hneg : a <= 0 → - (360) < JS.rem a 360 <= 0).
  { apply JSFacts.rem_nonpos. reflexivity. }
  split; [eexists; apply JSFacts.rem_congruent|].
  split; [|split; [exact Hpos | split; [exact Hneg | reflexivity]]].
  destruct (Qlt_le_dec a 0) as [Ha|Ha].
  - destruct Hneg; lra.
  - destruct Hpos; lra.
Qed.

Lemma text_rotation_step_witness :
  0 <= textRotation (handleRotationChange text 15
                       (setTextRotation 345 initialEditFormData)) < 360
  ∧ textRotation (handleRotationChange text 15
                    (setTextRotation 345 initialEditFormData)) == 0.
Proof.
  destruct (text_rotation_step true (setTextRotation 345 initialEditFormData))
    as (_ & _ & Hpos & _).
  split; [apply Hpos; discriminate | reflexivity].
Defined.

(** C8 fails as stated: the first press of the [-] button, at rotation 0,
    stores −15, which is not in the range from 0 to 360 (345 is the value
    wrapped into it). *)
Lemma text_rotation_negative :
  let next := handleRotationChange text (-15) initialEditFormData in
  textRotation next == -15
  ∧ ¬ (0 <= textRotation next < 360).
Proof.
  cbv zeta. split; [reflexivity|]. intros [H _]. apply H. reflexivity.
Qed.

End Customization.

(** ** Sorting with a comparator that orders by a key, largest first *)

Module SortFacts.
Local Open Scope Z_scope.

Section Descending.
Context {A : Type} (cmp : A → A → Z) (key : A → Z).
Hypothesis cmp_key : ∀ a b, cmp a b <= 0 ↔ key b <= key a.

Lemma insertBy_perm (v : A) (l : list A) : JS.insertBy cmp v l ≡ₚ v :: l.
Proof.
  induction l as [|w l IH]; cbn; [done|].
  destruct (cmp v w <=? 0); [done|].
  rewrite IH. apply Permutation_swap.
Qed.

Lemma sort_perm (l : list A) : JS.sort cmp l ≡ₚ l.
Proof.
  induction l as [|v l IH]; cbn; [done|].
  rewrite insertBy_perm. by rewrite IH.
Qed.

Lemma insertBy_sorted (v : A) (l : list A) :
  StronglySorted (Spec.descending key) l → StronglySorted (Spec.descending key) (JS.insertBy cmp v l).
Proof.
  induction 1 as [|w l Hl IH Hw]; cbn.
  - repeat constructor.
  - destruct (Z.leb_spec (cmp v w) 0) as [Hc|Hc].
    + apply cmp_key in Hc. constructor; [by constructor|].
      constructor; [done|].
      eapply Forall_impl; [exact Hw|]. unfold Spec.descending in *.
      intros; lia.
    + constructor; [done|].
      rewrite insertBy_perm. constructor; [|done].
      unfold Spec.descending.
      destruct (Z.le_gt_cases (key w) (key v)) as [Hk|Hk]; [|lia].
      apply cmp_key in Hk. lia.
Qed.

Lemma sort_sorted (l : list A) : StronglySorted (Spec.descending key) (JS.sort cmp l).
Proof.
  induction l as [|v l IH]; cbn; [constructor|]. by apply insertBy_sorted.
Qed.




End Descending.
End SortFacts.

(** ** The gallery list *)

Module Gallery.
Import Dashboard Spec.
Local Open Scope Z_scope.

Lemma byDownloads_key (a b : Poster) :
  byDownloads a b <= 0 ↔ downloads b <= downloads a.
Proof.
  unfold byDownloads, downloads, JS.orZero.
  destruct (download_count a), (download_count b); cbn; lia.
Qed.



(** The counts 5, absent, 5, 2 come out as 5, 5, 2, 0, the two posters of
    count 5 in their catalog order. *)
Example popular_sort_5_0_5_2 :
  let catalog :=
    [sample 1 (Some 5); sample 2 None; sample 3 (Some 5); sample 4 (Some 2)] in
  let shown := filterSort (λ _, 0) catalog "" "All" popular in
  map downloads shown = [5; 5; 2; 0] ∧ map id shown = [1; 3; 4; 2].
Proof. split; reflexivity. Qed.

Lemma patchCount_patches (posterId n : Z) (catalog : list Poster) (p : Poster) :
  p ∈ patchCount posterId n catalog → id p = posterId →
  download_count p = Some n.
Proof.
  unfold patchCount. intros Hp Hid.
  apply list_elem_of_fmap in Hp as (q & -> & _).
  destruct (Z.eqb_spec (id q) posterId) as [_|Hne]; [done|].
  by destruct Hne.
Qed.

Lemma patchCount_keeps (posterId n : Z) (catalog : list Poster) (p : Poster) :
  p ∈ catalog → id p = posterId →
  withDownloadCount n p ∈ patchCount posterId n catalog.
Proof.
  unfold patchCount. intros Hp Hid.
  apply list_elem_of_fmap. exists p. split; [|done].
  destruct (Z.eqb_spec (id p) posterId) as [_|Hne]; [done|].
  by destruct Hne.
Qed.

Lemma patchCount_others (posterId n : Z) (catalog : list Poster) (p : Poster) :
  id p ≠ posterId → p ∈ patchCount posterId n catalog ↔ p ∈ catalog.
Proof.
  unfold patchCount. intros Hid. rewrite list_elem_of_fmap. split.
  - intros (q & -> & Hq).
    destruct (Z.eqb_spec (id q) posterId) as [Heq|_]; [|done].
    cbn in Hid. by destruct Hid.
  - intros Hp. exists p. split; [|done].
    destruct (Z.eqb_spec (id p) posterId) as [Heq|_]; [|done].
    by destruct Hid.
Qed.

(** C5.  A call [handleDownload posterId url title]:
    - when the count fetch fails, or it succeeds and the write-back fails,
      the error "Failed to update download count." is shown, the only
      calls made are the counter calls (no asset fetch, no file save), and
      the local catalog and the table are as before, so the entry keeps its
      count;
    - when both succeed, the table holds the fetched count (absent taken
      as 0) plus 1 for the id, and so does every entry of the local
      catalog with that id, the other entries being as before. *)
Theorem gallery_download_gated (w : World) (posterId : Z) (url title : string) :
  let w' := Flow.finalWorld (handleDownload posterId url title w) in
  (fetchFails w posterId →
   errorMessage w' = Some counterError
   ∧ calls w' = calls w ++ [CallSelectCount posterId]
   ∧ posters w' = posters w
   ∧ table (backend w') = table (backend w))
  ∧ (∀ count, fetches w posterId count →
     is_Some (updateError (backend w)) →
     errorMessage w' = Some counterError
     ∧ calls w' = calls w ++ [CallSelectCount posterId;
                              CallUpdateCount posterId (JS.orZero count + 1)]
     ∧ posters w' = posters w
     ∧ table (backend w') = table (backend w))
  ∧ (∀ count, fetches w posterId count →
     updateError (backend w) = None →
     table (backend w') !! posterId = Some (Some (JS.orZero count + 1))
     ∧ (∀ p, p ∈ posters w → id p = posterId →
        withDownloadCount (JS.orZero count + 1) p ∈ posters w')
     ∧ (∀ p, p ∈ posters w' → id p = posterId →
        download_count p = Some (JS.orZero count + 1))
     ∧ (∀ p, id p ≠ posterId → p ∈ posters w' ↔ p ∈ posters w)).
Proof.
  destruct w as [ps fps cds em [tbl se ue ar] cs].
  unfold handleDownload, Flow.tryFinally, Flow.tryCatch.
  unfold mbind, flow_bind, Flow.bind, selectDownloadCount, fetchFails, fetches.
  unfold Flow.returnWith, Flow.modify. cbn. split; [|split].
  - intros Hf.
    assert (Hrun : se = None → tbl !! posterId = None).
    { intros ->. by destruct Hf as [[e He]|Hno]. }
    destruct se as [e|]; [|rewrite Hrun by done]; repeat split; reflexivity.
  - intros count [-> Hc] [e ->]. rewrite Hc. unfold updateDownloadCount. cbn.
    repeat split. by rewrite <- app_assoc.
  - intros count [-> Hc] ->. rewrite Hc.
    unfold updateDownloadCount, fetchAsset. cbn.
    destruct ar; cbn; rewrite lookup_alter_eq, Hc; cbn;
      (split; [done|]); (split; [intros; by apply patchCount_keeps|]);
      (split; [intros; by eapply patchCount_patches|]);
      intros; by apply patchCount_others.
Qed.

Lemma gallery_download_gated_witness :
  let saved := Flow.finalWorld (handleDownload 7 "u" "t" (galleryWorld None)) in
  let failed :=
    Flow.finalWorld (handleDownload 7 "u" "t" (galleryWorld (Some "offline"))) in
  table (backend saved) !! 7 = Some (Some 4)
  ∧ download_count <$> posters saved = [Some 4]
  ∧ posters failed = [sample 7 (Some 3)]
  ∧ calls failed = [CallSelectCount 7; CallUpdateCount 7 4].
Proof.
  cbv zeta.
  destruct (gallery_download_gated (galleryWorld None) 7 "u" "t")
    as (_ & _ & Hsaved).
  destruct (gallery_download_gated (galleryWorld (Some "offline")) 7 "u" "t")
    as (_ & Hfailed & _).
  destruct (Hsaved (Some 3)) as (Htable & _); [split; reflexivity | reflexivity |].
  destruct (Hfailed (Some 3)) as (_ & Hcalls & Hposters & _);
    [split; reflexivity | eexists; reflexivity |].
  split; [exact Htable|]. split; [reflexivity|].
  split; [exact Hposters | exact Hcalls].
Defined.

End Gallery.

(** ** The catalog of the admin page *)

Module Catalog.
Import Admin Spec.
Local Open Scope Z_scope.

(** What each event does to the catalog. *)
Lemma onChange_insert_prepends (new : Poster) (prev : list Poster) :
  onChange (INSERT new) prev = new :: prev.
Proof. reflexivity. Qed.

Lemma onChange_update_ids (new : Poster) (prev : list Poster) :
  ids (onChange (UPDATE new) prev) = ids prev.
Proof.
  unfold ids. cbn. induction prev as [|p prev IH]; [done|]. cbn.
  rewrite IH. by destruct (Z.eqb_spec (id p) (id new)) as [->|].
Qed.

Lemma onChange_delete_ids (old_id : Z) (prev : list Poster) :
  ids (onChange (DELETE old_id) prev)
  = List.filter (λ i, negb (i =? old_id)) (ids prev).
Proof.
  unfold ids. cbn. induction prev as [|p prev IH]; [done|]. cbn.
  destruct (negb (id p =? old_id)); cbn; by rewrite IH.
Qed.

Lemma onChange_delete_removes (old_id : Z) (prev : list Poster) :
  old_id ∉ ids (onChange (DELETE old_id) prev).
Proof.
  rewrite onChange_delete_ids, list_elem_of_In, filter_In.
  intros [_ H]. by rewrite Z.eqb_refl in H.
Qed.

Lemma NoDup_filter_bool {A} (f : A → bool) (l : list A) :
  NoDup l → NoDup (List.filter f l).
Proof.
  induction 1 as [|a l Ha Hl IH]; cbn; [constructor|].
  destruct (f a); [|done]. constructor; [|done].
  rewrite list_elem_of_In, filter_In, <- list_elem_of_In. tauto.
Qed.

(** One step keeps the ids distinct, provided an insertion brings a new
    one. *)
Lemma onChange_keeps_unique (payload : Payload) (prev : list Poster) :
  NoDup (ids prev) →
  match payload with INSERT new => id new ∉ ids prev | _ => True end →
  NoDup (ids (onChange payload prev)).
Proof.
  intros Hprev Hfresh. destruct payload as [new|old_id|new].
  - cbn. by constructor.
  - rewrite onChange_delete_ids. by apply NoDup_filter_bool.
  - by rewrite onChange_update_ids.
Qed.

(** C9, as the code has it.  From a fetched catalog with pairwise distinct
    ids, every sequence of realtime events (INSERT prepends the record,
    UPDATE replaces the entry of that id in place, DELETE removes it) in
    which each INSERT brings an id the catalog does not hold at that moment
    leads to a catalog with at most one entry per id. *)
Theorem catalog_ids_unique (payloads : list Payload) (fetched : list Poster) :
  NoDup (ids fetched) → insertsFresh payloads fetched →
  NoDup (ids (onChanges payloads fetched)).
Proof.
  revert fetched. induction payloads as [|payload rest IH];
    intros fetched Hu Hf; [done|].
  destruct Hf as [Hnew Hrest]. cbn. apply IH; [|done].
  by apply onChange_keeps_unique.
Qed.

Lemma catalog_ids_unique_witness :
  NoDup (ids (onChanges
                [INSERT (sample 3 None); UPDATE (sample 1 (Some 9));
                 DELETE 2; INSERT (sample 2 None)]
                [sample 2 None; sample 1 None])).
Proof.
  apply catalog_ids_unique.
  - compute_done.
  - cbn. repeat split; compute_done.
Defined.

(** C9 fails as stated: an INSERT event for a poster the fetch already
    returned leaves two entries of one id. *)
Lemma duplicate_insert :
  let fetched := [sample 1 None] in
  NoDup (ids fetched)
  ∧ ids (onChanges [INSERT (sample 1 None)] fetched) = [1; 1]
  ∧ ¬ NoDup (ids (onChanges [INSERT (sample 1 None)] fetched)).
Proof.
  cbv zeta. split; [compute_done|].
  split; [reflexivity|]. cbn. intros H. apply NoDup_cons in H as [H _].
  apply H. by left.
Qed.

End Catalog.

(** ** The upload pipeline: the admin form and the route *)

Module Upload.
Import Spec.
Local Open Scope Z_scope.

Lemma sizeErrorMessage_value :
  sizeErrorMessage = "File size exceeds maximum limit of 50MB".
Proof. reflexivity. Qed.

Lemma fileExt_psd (fileName : string) :
  fileExt fileName = Some "psd" → isPsdName fileName = true.
Proof. unfold isPsdName. by intros ->. Qed.

(** The run of [handleSave] up to the end of the validation. *)
Lemma handleSave_untitled (w : Admin.World) :
  Admin.form_title (Admin.formData w) = "" →
  Flow.finalWorld (Admin.handleSave w)
  = Admin.setSaving false
      (Admin.setError (Some "Title and file are required.")
         (Admin.setUploadProgress 0
            (Admin.setError None (Admin.setSaving true w)))).
Proof.
  intros Ht. unfold Admin.handleSave, mbind, flow_bind, Flow.bind.
  cbn. by rewrite Ht.
Qed.

Lemma handleSave_no_file (w : Admin.World) :
  Admin.form_file (Admin.formData w) = None →
  Flow.finalWorld (Admin.handleSave w)
  = Admin.setSaving false
      (Admin.setError (Some "Title and file are required.")
         (Admin.setUploadProgress 0
            (Admin.setError None (Admin.setSaving true w)))).
Proof.
  intros Hf. unfold Admin.handleSave, mbind, flow_bind, Flow.bind.
  cbn. rewrite Hf. by destruct (_ =? _)%string.
Qed.

Lemma handleSave_needs_thumbnail (w : Admin.World) (file : File) :
  Admin.form_title (Admin.formData w) ≠ "" →
  Admin.form_file (Admin.formData w) = Some file →
  Admin.form_isEditable (Admin.formData w) = true →
  isPsdName (file_name file) = true →
  Admin.form_thumbnail (Admin.formData w) = None →
  Flow.finalWorld (Admin.handleSave w)
  = Admin.setSaving false
      (Admin.setError
         (Some "Thumbnail image (PNG/JPEG) is required for editable PSDs.")
         (Admin.setUploadProgress 0
            (Admin.setError None (Admin.setSaving true w)))).
Proof.
  intros Ht Hf He Hp Hth.
  unfold Admin.handleSave, mbind, flow_bind, Flow.bind. cbn.
  apply String.eqb_neq in Ht. by rewrite Ht, Hf, He, Hp, Hth.
Qed.

Lemma handleSave_too_large (w : Admin.World) (file : File) :
  Admin.form_title (Admin.formData w) ≠ "" →
  Admin.form_file (Admin.formData w) = Some file →
  Admin.form_isEditable (Admin.formData w)
    && isPsdName (file_name file)
    && Admin.missing (Admin.form_thumbnail (Admin.formData w)) = false →
  exceedsMaxFileSize file (Admin.form_thumbnail (Admin.formData w)) = true →
  Flow.finalWorld (Admin.handleSave w)
  = Admin.setSaving false
      (Admin.setError (Some sizeErrorMessage)
         (Admin.setUploadProgress 0
            (Admin.setError None (Admin.setSaving true w)))).
Proof.
  intros Ht Hf Hpsd Hx.
  unfold Admin.handleSave, mbind, flow_bind, Flow.bind. cbn.
  apply String.eqb_neq in Ht. by rewrite Ht, Hf, Hpsd, Hx.
Qed.

Lemma handleSave_sends (w : Admin.World) (file : File) :
  Admin.form_title (Admin.formData w) ≠ "" →
  Admin.form_file (Admin.formData w) = Some file →
  Admin.form_isEditable (Admin.formData w)
    && isPsdName (file_name file)
    && Admin.missing (Admin.form_thumbnail (Admin.formData w)) = false →
  exceedsMaxFileSize file (Admin.form_thumbnail (Admin.formData w)) = false →
  Admin.requests (Flow.finalWorld (Admin.handleSave w))
  = Admin.requests w ++ [Admin.formDataToSend file (Admin.formData w)].
Proof.
  intros Ht Hf Hpsd Hx.
  unfold Admin.handleSave, mbind, flow_bind, Flow.bind. cbn.
  apply String.eqb_neq in Ht. rewrite Ht, Hf, Hpsd, Hx.
  unfold Flow.tryFinally, Flow.tryCatch, Flow.bind, Admin.fetchUpload. cbn.
  destruct (Admin.networkError w); [done|].
  destruct (UploadRoute.respond _ _) as [response server']. cbn.
  by destruct (Admin.ok response).
Qed.

(** C6.  A submission of the admin form with [isEditable] set, an asset
    whose file name has the extension [psd] and no thumbnail is rejected
    with a validation error before any backend call: a validation message
    is shown (the thumbnail one when the title is filled in), no request is
    sent, and the backend is as before. *)
Theorem editable_psd_needs_thumbnail (w : Admin.World) (file : File) :
  Admin.form_isEditable (Admin.formData w) = true →
  Admin.form_file (Admin.formData w) = Some file →
  fileExt (file_name file) = Some "psd" →
  Admin.form_thumbnail (Admin.formData w) = None →
  let w' := Flow.finalWorld (Admin.handleSave w) in
  (∃ msg, Admin.error w' = Some msg ∧ msg ∈ Admin.validationErrors)
  ∧ (Admin.form_title (Admin.formData w) ≠ "" →
     Admin.error w'
     = Some "Thumbnail image (PNG/JPEG) is required for editable PSDs.")
  ∧ Admin.requests w' = Admin.requests w
  ∧ Admin.server w' = Admin.server w
  ∧ Admin.saving w' = false.
Proof.
  intros He Hf Hp Hth. apply fileExt_psd in Hp. cbv zeta.
  destruct (decide (Admin.form_title (Admin.formData w) = "")) as [Ht|Ht].
  - rewrite (handleSave_untitled w Ht). cbn.
    split; [eexists; split; [done|set_solver]|]. by repeat split.
  - rewrite (handleSave_needs_thumbnail w file Ht Hf He Hp Hth). cbn.
    split; [eexists; split; [done|set_solver]|]. by repeat split.
Qed.

Lemma editable_psd_needs_thumbnail_witness :
  let w' := Flow.finalWorld (Admin.handleSave (adminWorld psdForm)) in
  Admin.error w'
  = Some "Thumbnail image (PNG/JPEG) is required for editable PSDs."
  ∧ Admin.requests w' = []
  ∧ Admin.server w' = routeWorld None.
Proof.
  cbv zeta.
  destruct (editable_psd_needs_thumbnail (adminWorld psdForm)
              (mkFile "Card.PSD" 1024 "image/vnd.adobe.photoshop"))
    as (_ & Hmsg & Hreq & Hsrv & _); try reflexivity.
  split; [apply Hmsg; discriminate|]. split; [exact Hreq | exact Hsrv].
Defined.

(** The route answers 400 without touching the backend when the size test
    fails. *)
Lemma route_rejects_large (fd : UploadRoute.FormData) (file : File) :
  UploadRoute.get_file fd = Some file →
  exceedsMaxFileSize file (UploadRoute.get_thumbnail fd) = true →
  routeRejects fd.
Proof.
  intros Hf Hx w. unfold UploadRoute.respond, UploadRoute.POST.
  unfold Flow.tryCatch, mbind, flow_bind, Flow.bind. cbn. rewrite Hf.
  destruct (UploadRoute.truthy (UploadRoute.get_title fd)) as [title|];
    [destruct (UploadRoute.truthy (UploadRoute.get_category fd))
       as [category|]|];
    rewrite ?Hx; cbn; (split; [done|]); (split; [|done]);
    eexists; (split; [done|]); unfold routeValidationErrors; set_solver.
Qed.

(** With its parts present and the size test passed, the route goes on to
    the backend: none of its answers is a validation message. *)
Lemma route_validates (fd : UploadRoute.FormData) (file : File)
    (title category : string) :
  UploadRoute.get_file fd = Some file →
  UploadRoute.truthy (UploadRoute.get_title fd) = Some title →
  UploadRoute.truthy (UploadRoute.get_category fd) = Some category →
  exceedsMaxFileSize file (UploadRoute.get_thumbnail fd) = false →
  routeValidates fd.
Proof.
  intros Hf Ht Hc Hx w msg Hmsg.
  assert (Hm : msg = "Missing file, title, or category"
               ∨ msg = "File size exceeds maximum limit of 50MB").
  { unfold routeValidationErrors in Hmsg.
    rewrite sizeErrorMessage_value, !elem_of_cons, elem_of_nil in Hmsg.
    tauto. }
  unfold UploadRoute.respond, UploadRoute.POST.
  unfold Flow.tryCatch, mbind, flow_bind, Flow.bind. cbn.
  rewrite Hf, Ht, Hc, Hx. cbn. unfold UploadRoute.storageUpload.
  destruct (UploadRoute.uploadError w) as [e|]; cbn.
  { destruct Hm as [-> | ->]; discriminate. }
  destruct (UploadRoute.get_thumbnail fd) as [thumbnail|]; cbn.
  - destruct (UploadRoute.thumbnailError w) as [e|]; cbn.
    { destruct Hm as [-> | ->]; discriminate. }
    unfold UploadRoute.tableInsert. cbn.
    destruct (UploadRoute.dbError w) as [e|]; cbn;
      destruct Hm as [-> | ->]; discriminate.
  - unfold UploadRoute.tableInsert. cbn.
    destruct (UploadRoute.dbError w) as [e|]; cbn;
      destruct Hm as [-> | ->]; discriminate.
Qed.

Lemma form_rejects_large (f : Admin.FormState) (file : File) :
  Admin.form_file f = Some file →
  exceedsMaxFileSize file (Admin.form_thumbnail f) = true →
  formRejects f.
Proof.
  intros Hf Hx w <-. cbv zeta.
  destruct (decide (Admin.form_title (Admin.formData w) = "")) as [Ht|Ht].
  { rewrite (handleSave_untitled w Ht). cbn.
    split; [eexists; split; [done|set_solver]|]. by repeat split. }
  destruct (Admin.form_isEditable (Admin.formData w)
            && isPsdName (file_name file)
            && Admin.missing (Admin.form_thumbnail (Admin.formData w)))
    eqn:Hpsd.
  - apply andb_prop in Hpsd as [Hpsd Hth]. apply andb_prop in Hpsd as [He Hp].
    assert (Hnone : Admin.form_thumbnail (Admin.formData w) = None).
    { by destruct (Admin.form_thumbnail (Admin.formData w)). }
    rewrite (handleSave_needs_thumbnail w file Ht Hf He Hp Hnone). cbn.
    split; [eexists; split; [done|set_solver]|]. by repeat split.
  - rewrite (handleSave_too_large w file Ht Hf Hpsd Hx). cbn.
    split; [eexists; split; [done|set_solver]|]. by repeat split.
Qed.

Lemma exceeds_iff (file : File) (thumbnail : option File) :
  exceedsMaxFileSize file thumbnail = true
  ↔ MAX_FILE_SIZE < file_size file
    ∨ ∃ t, thumbnail = Some t ∧ MAX_FILE_SIZE < file_size t.
Proof.
  unfold exceedsMaxFileSize. rewrite orb_true_iff, Z.ltb_lt.
  destruct thumbnail as [t|].
  - rewrite Z.ltb_lt. split; (intros [Hl|Hl]; [by left|right]).
    + by exists t.
    + by destruct Hl as (t' & [= ->] & Hl).
  - split; (intros [Hl|Hl]; [by left|]); [done|].
    by destruct Hl as (t' & [=] & _).
Qed.

(** C7.  The limit is 50 MiB, [50 × 2^20] bytes, itself allowed.  A
    submission whose asset (or thumbnail) has exactly that size, the other
    file being within the limit, passes the size test, in the route and in
    the admin form: once the other checks are passed the route goes on to
    the backend and the form sends its request.  A submission whose asset
    (or thumbnail) has one byte more is rejected with a validation error by
    both, before any backend call. *)
Theorem size_limit_boundary (file : File) (thumbnail : option File) :
  ((file_size file = 50 * 2 ^ 20
    ∧ (∀ t, thumbnail = Some t → file_size t <= 50 * 2 ^ 20))
   ∨ (file_size file <= 50 * 2 ^ 20
      ∧ ∃ t, thumbnail = Some t ∧ file_size t = 50 * 2 ^ 20) →
   exceedsMaxFileSize file thumbnail = false
   ∧ (∀ fd title category,
        UploadRoute.get_file fd = Some file →
        UploadRoute.get_thumbnail fd = thumbnail →
        UploadRoute.truthy (UploadRoute.get_title fd) = Some title →
        UploadRoute.truthy (UploadRoute.get_category fd) = Some category →
        routeValidates fd)
   ∧ (∀ f,
        Admin.form_file f = Some file →
        Admin.form_thumbnail f = thumbnail →
        Admin.form_title f ≠ "" →
        Admin.form_isEditable f && isPsdName (file_name file)
          && Admin.missing thumbnail = false →
        formValidates f file))
  ∧ (file_size file = 50 * 2 ^ 20 + 1
     ∨ (∃ t, thumbnail = Some t ∧ file_size t = 50 * 2 ^ 20 + 1) →
     exceedsMaxFileSize file thumbnail = true
     ∧ (∀ fd,
          UploadRoute.get_file fd = Some file →
          UploadRoute.get_thumbnail fd = thumbnail →
          routeRejects fd)
     ∧ (∀ f,
          Admin.form_file f = Some file →
          Admin.form_thumbnail f = thumbnail →
          formRejects f)).
Proof.
  split.
  - intros Hsize.
    assert (Hx : exceedsMaxFileSize file thumbnail = false).
    { apply not_true_is_false. rewrite exceeds_iff. unfold MAX_FILE_SIZE.
      intros [Hl | (t & Ht & Hl)];
        destruct Hsize as [[Hf Hth] | (Hf & t' & Ht' & Hth)];
        try specialize (Hth _ Ht); simplify_eq; lia. }
    split; [exact Hx|]. split.
    + intros fd title category Hf <- Ht Hc.
      by eapply route_validates.
    + intros f Hf <- Ht Hpsd w <-. by apply handleSave_sends.
  - intros Hsize.
    assert (Hx : exceedsMaxFileSize file thumbnail = true).
    { apply exceeds_iff. unfold MAX_FILE_SIZE.
      destruct Hsize as [Hf | (t & Ht & Hl)]; [left; lia|].
      right. exists t. split; [done|lia]. }
    split; [exact Hx|]. split.
    + intros fd Hf <-. by eapply route_rejects_large.
    + intros f Hf <-. by eapply form_rejects_large.
Qed.

Lemma size_limit_boundary_witness :
  (exceedsMaxFileSize (pngFile (50 * 2 ^ 20)) None = false
   ∧ routeValidates (pngUpload (50 * 2 ^ 20))
   ∧ formValidates (pngForm (50 * 2 ^ 20)) (pngFile (50 * 2 ^ 20)))
  ∧ (exceedsMaxFileSize (pngFile (50 * 2 ^ 20 + 1)) None = true
     ∧ routeRejects (pngUpload (50 * 2 ^ 20 + 1))
     ∧ formRejects (pngForm (50 * 2 ^ 20 + 1))).
Proof.
  split.
  - destruct (size_limit_boundary (pngFile (50 * 2 ^ 20)) None)
      as [Hpass _].
    destruct Hpass as (Hx & Hroute & Hform).
    { left. split; [reflexivity | intros t Ht; discriminate Ht]. }
    split; [exact Hx|]. split.
    + apply (Hroute _ "New Year" "Festival"); reflexivity.
    + apply Hform; [reflexivity | reflexivity | discriminate | reflexivity].
  - destruct (size_limit_boundary (pngFile (50 * 2 ^ 20 + 1)) None)
      as [_ Hreject].
    destruct Hreject as (Hx & Hroute & Hform).
    { left. reflexivity. }
    split; [exact Hx|]. split.
    + apply Hroute; reflexivity.
    + apply Hform; reflexivity.
Defined.

(** C10, as the code has it.  A request to the route with file, title and
    category present and the sizes within the limit, whose file has the
    extension [psd] and which brings no thumbnail, is answered with status
    200 whenever the storage upload and the table insert succeed: the asset
    is stored under [psd/…], and the row inserted has the empty string as
    [download_url] and the public URL of the asset as [psd_url].  The route
    does not ask for the thumbnail of an editable PSD. *)
Theorem psd_without_thumbnail_inserted (fd : UploadRoute.FormData)
    (w : UploadRoute.World) (file : File) (title category : string) :
  UploadRoute.get_file fd = Some file →
  UploadRoute.truthy (UploadRoute.get_title fd) = Some title →
  UploadRoute.truthy (UploadRoute.get_category fd) = Some category →
  file_size file <= MAX_FILE_SIZE →
  fileExt (file_name file) = Some "psd" →
  UploadRoute.get_thumbnail fd = None →
  UploadRoute.uploadError w = None →
  UploadRoute.dbError w = None →
  let r := UploadRoute.respond (UploadRoute.Multipart fd) w in
  UploadRoute.status r.1 = 200
  ∧ (∃ isEditable,
       UploadRoute.body r.1
       = UploadRoute.UploadedBody "" title category isEditable
           (UploadRoute.get_fontFamily fd))
  ∧ (∃ row,
       UploadRoute.rows r.2 = UploadRoute.rows w ++ [row]
       ∧ UploadRoute.row_download_url row = ""
       ∧ UploadRoute.row_psd_url row
         = Some (UploadRoute.publicUrlOf w (psdPath w title))
       ∧ UploadRoute.row_title row = title
       ∧ UploadRoute.row_category row = category)
  ∧ UploadRoute.bucket r.2 !! psdPath w title = Some (file_type file).
Proof.
  intros Hf Ht Hc Hsize Hext Hth Hup Hdb.
  assert (Hx : exceedsMaxFileSize file None = false).
  { apply not_true_is_false. rewrite exceeds_iff.
    intros [Hl | (t & [=] & _)]. lia. }
  pose proof (fileExt_psd _ Hext) as Hpsd.
  unfold UploadRoute.respond, UploadRoute.POST.
  unfold Flow.tryCatch, mbind, flow_bind, Flow.bind. cbn.
  rewrite Hf, Ht, Hc, Hth, Hx. cbn. unfold UploadRoute.storageUpload.
  rewrite Hup, Hext, Hpsd. cbn. unfold UploadRoute.tableInsert. cbn.
  rewrite Hdb. cbn.
  split; [done|]. split; [by eexists|]. split.
  - eexists. split; [done|]. by repeat split.
  - apply lookup_insert_eq.
Qed.

Lemma psd_without_thumbnail_inserted_witness :
  let r := UploadRoute.respond (UploadRoute.Multipart psdUpload)
             (routeWorld None) in
  UploadRoute.status r.1 = 200
  ∧ UploadRoute.row_download_url <$> UploadRoute.rows r.2 = [""]
  ∧ UploadRoute.row_psd_url <$> UploadRoute.rows r.2
    = [Some "https://cdn.example/psd/1700000000000-New-Year.psd"].
Proof.
  cbv zeta.
  destruct (psd_without_thumbnail_inserted psdUpload (routeWorld None)
              (mkFile "Card.PSD" 1024 "image/vnd.adobe.photoshop")
              "New Year" "Festival")
    as (Hstatus & _); try reflexivity; [discriminate|].
  split; [exact Hstatus|]. split; reflexivity.
Defined.

(** C10 fails as stated: the same request, with everything the claim asks
    of it, is answered with status 400 and inserts no row when the storage
    upload fails. *)
Lemma psd_upload_storage_failure :
  let w := routeWorld (Some "Bucket not found") in
  let r := UploadRoute.respond (UploadRoute.Multipart psdUpload) w in
  (∃ file,
     UploadRoute.get_file psdUpload = Some file
     ∧ file_size file <= MAX_FILE_SIZE
     ∧ fileExt (file_name file) = Some "psd")
  ∧ UploadRoute.get_title psdUpload = Some "New Year"
  ∧ UploadRoute.get_category psdUpload = Some "Festival"
  ∧ UploadRoute.get_thumbnail psdUpload = None
  ∧ UploadRoute.status r.1 = 400
  ∧ UploadRoute.rows r.2 = []
  ∧ ¬ UploadRoute.status r.1 = 200.
Proof.
  cbv zeta. split.
  { eexists. split; [reflexivity|]. split; [discriminate | reflexivity]. }
  repeat split; try reflexivity. discriminate.
Qed.

(** The admin form guards the route: the same upload made through the form
    never reaches it. *)
Example psd_upload_stopped_by_form :
  Admin.requests (Flow.finalWorld (Admin.handleSave (adminWorld psdForm)))
  = [].
Proof. reflexivity. Qed.

End Upload.

(** ** More of the customization session *)

Module Session.
Import Dashboard Spec.
Local Open Scope Q_scope.

Lemma max_min_inside (lo hi v : Q) :
  lo <= v <= hi → JS.Math_max lo (JS.Math_min hi v) == v.
Proof.
  intros Hv. rewrite JSFacts.max_min_clamp. by apply JSFacts.clamp_inside.
Qed.

(** X1.  Whenever the scaled layer fits the canvas on an axis, a drag step
    leaves it inside on that axis, wherever it was before and however far
    the pointer went: the position is between 0 and the canvas size minus
    the scaled size. *)
Theorem drag_keeps_layer_inside (z : Q) (layer : Layer)
    (textBox : option Size) (delta : Point) (prev : EditFormData) :
  let next := dragStep layer textBox z delta prev in
  let scaled := scaledSize layer textBox z prev in
  (width scaled <= 400 → 0 <= x (position layer next) <= 400 - width scaled)
  ∧ (height scaled <= 280 →
     0 <= y (position layer next) <= 280 - height scaled).
Proof.
  destruct layer; cbn; split; intros Hfits;
    rewrite JSFacts.max_min_clamp; apply JSFacts.clamp_in_range; lra.
Qed.

Lemma drag_keeps_layer_inside_witness :
  let next := handleImageDrag 2 (mkPoint 900 (-40)) initialEditFormData in
  0 <= x (imagePosition next) <= 200 ∧ 0 <= y (imagePosition next) <= 80.
Proof.
  cbv zeta.
  destruct (drag_keeps_layer_inside 2 ImageLayer None
              (mkPoint 900 (-40)) initialEditFormData) as [Hx Hy].
  split; [apply Hx | apply Hy]; evaluate.
Defined.

(** X2.  At a positive zoom level, a drag whose target is within the range of
    the layer is not clamped: the layer lands at its position plus the
    pointer delta divided by the zoom level on both axes, wherever it was
    before, and its scaled size, which the range depends on, is what it
    was. *)
Theorem drag_inside_unclamped (z : Q) (layer : Layer) (textBox : option Size)
    (delta : Point) (prev : EditFormData) :
  0 < z →
  let scaled := scaledSize layer textBox z prev in
  let start := position layer prev in
  0 <= x start + x delta / z <= 400 - width scaled →
  0 <= y start + y delta / z <= 280 - height scaled →
  let next := dragStep layer textBox z delta prev in
  samePoint (position layer next)
            (mkPoint (x start + x delta / z) (y start + y delta / z))
  ∧ scaledSize layer textBox z next = scaled.
Proof.
  intros Hz scaled start Hx Hy. subst scaled start.
  unfold samePoint. destruct layer; cbn in *;
    rewrite (max_min_inside _ _ _ Hx), (max_min_inside _ _ _ Hy);
    (split; [split; reflexivity | reflexivity]).
Qed.

Lemma drag_inside_unclamped_witness :
  let next := handleImageDrag 2 (mkPoint 40 (-220)) initialEditFormData in
  samePoint (imagePosition next) (mkPoint 70 70)
  ∧ scaledSize ImageLayer None 2 next = mkSize (100 * 2) (100 * 2).
Proof.
  cbv zeta.
  destruct (drag_inside_unclamped 2 ImageLayer None (mkPoint 40 (-220))
              initialEditFormData) as [[Hx Hy] Hsize];
    [evaluate | split; evaluate | split; evaluate |].
  split.
  - split; (etransitivity; [eassumption|]); reflexivity.
  - exact Hsize.
Defined.

(** X3.  [handleZoom] keeps the zoom level between 0.5 and 3: a step inside the
    range is taken as it is, a step beyond an end stops at that end. *)
Theorem handleZoom_bounds (delta prev : Q) :
  0.5 <= handleZoom delta prev <= 3
  ∧ (0.5 <= prev + delta <= 3 → handleZoom delta prev == prev + delta)
  ∧ (3 <= prev + delta → handleZoom delta prev == 3)
  ∧ (prev + delta <= 0.5 → handleZoom delta prev == 0.5).
Proof.
  unfold handleZoom, JS.Math_min, JS.Math_max.
  destruct (Q.max_spec 0.5 (prev + delta)) as [[HM EM]|[HM EM]];
    destruct (Q.min_spec (Qmax 0.5 (prev + delta)) 3) as [[Hm Em]|[Hm Em]];
    rewrite Em, ?EM; rewrite EM in Hm;
    (split; [split|split; [|split]]); intros; lra.
Qed.

Lemma handleZoom_bounds_witness :
  handleZoom 0.1 3 == 3 ∧ handleZoom (-0.1) 0.5 == 0.5
  ∧ handleZoom 0.1 1 == 1.1.
Proof.
  destruct (handleZoom_bounds 0.1 3) as (_ & _ & Htop & _).
  destruct (handleZoom_bounds (-0.1) 0.5) as (_ & _ & _ & Hbottom).
  destruct (handleZoom_bounds 0.1 1) as (_ & Hin & _).
  split; [apply Htop; evaluate|].
  split; [apply Hbottom; evaluate|].
  etransitivity; [apply Hin; split; evaluate | reflexivity].
Defined.

(** What a resize step stores as the width is at least 50. *)
Lemma resize_width_min (g : ResizeGesture) (moveEvent : PointerEvent)
    (prev : EditFormData) :
  50 <= width (imageSize (handleResizeMove g moveEvent prev)).
Proof.
  unfold handleResizeMove. cbn.
  destruct (handle g); cbn; apply JSFacts.max_lower.
Qed.

(** X4.  Through a whole session the overlay image stays a square of side at
    least 50: the size buttons change both sides alike, and a resize
    gesture derives the height from the width with the ratio of its
    start. *)
Theorem session_image_square (s : Session) :
  reachable s →
  width (imageSize (form s)) == height (imageSize (form s))
  ∧ 50 <= width (imageSize (form s)).
Proof.
  induction 1 as [ | s f v _ IH | s file _ IH | s b d _ IH | s d _ IH
                 | s up _ IH | s up _ IH | s t up _ IH | s up _ IH
                 | s0 s e h ev _ IH0 _ IH | s a _ IH ]; cbn in *;
    try exact IH.
  - split; [reflexivity | discriminate].
  - destruct file as [f|]; [|exact IH].
    unfold handleImageInputChange. destruct (_ <? _)%Z; exact IH.
  - destruct IH as [Hsq Hw]. unfold JS.Math_max.
    destruct up; cbn; rewrite Hsq; (split; [reflexivity|]);
      apply Q.le_max_l.
  - destruct t; exact IH.
  - destruct IH0 as [Hsq0 Hw0].
    pose proof (resize_width_min
                  (handleResizeStart e h (form s0) (zoomLevel s0)) ev (form s))
      as Hmin.
    split; [|exact Hmin].
    destruct (Customization.resize_ratio_kept
                (handleResizeStart e h (form s0) (zoomLevel s0)) ev (form s))
      as [Hh _]; cbn; [lra | lra |].
    rewrite Hh. cbn. rewrite Hsq0. field. lra.
Qed.

Lemma session_image_square_witness :
  let s1 := mkSession (handleImageSizeChange (-10) (-10) initialEditFormData) 1 in
  let g := handleResizeStart (MouseEvent 0 0) bottom_right (form s1) 1 in
  let s2 := mkSession (handleResizeMove g (MouseEvent 33 7) (form s1)) 1 in
  width (imageSize (form s2)) == 123 ∧ height (imageSize (form s2)) == 123.
Proof.
  cbv zeta.
  assert (H1 : reachable
                 (mkSession
                    (handleImageSizeChange (-10) (-10) initialEditFormData) 1)).
  { apply (reach_image_size initialSession false), reach_initial. }
  destruct (session_image_square _
              (reach_resize _ _ (MouseEvent 0 0) bottom_right (MouseEvent 33 7)
                 H1 H1)) as [Hsq _].
  split; [reflexivity|]. etransitivity; [symmetry; exact Hsq|]. reflexivity.
Defined.

(** X5.  The font size never goes below 10 in a session. *)
Theorem session_font_size (s : Session) :
  reachable s → 10 <= fontSize (form s).
Proof.
  induction 1 as [ | s f v _ IH | s file _ IH | s b d _ IH | s d _ IH
                 | s up _ IH | s up _ IH | s t up _ IH | s up _ IH
                 | s0 s e h ev _ IH0 _ IH | s a _ IH ]; cbn in *;
    try exact IH.
  - discriminate.
  - destruct file as [f|]; [|exact IH].
    unfold handleImageInputChange. destruct (_ <? _)%Z; exact IH.
  - apply JSFacts.max_lower.
  - destruct up; exact IH.
  - destruct t; exact IH.
  - unfold handleResizeMove. cbn. destruct h; exact IH.
Qed.

Lemma session_font_size_witness :
  10 <= fontSize (handleFontSizeChange (-2)
                    (handleFontSizeChange (-2) initialEditFormData)).
Proof.
  exact (session_font_size _
           (reach_font_size _ false
              (reach_font_size _ false reach_initial))).
Defined.

(** X6.  The overlay image a session holds is always a PNG of at most 5 MB: a
    larger file is not taken, a file of another type clears the image. *)
Theorem session_image_png (s : Session) (f : ImageFile) :
  reachable s → image (form s) = Some f →
  imageType f = "image/png" ∧ (imageBytes f <= 5 * 1024 * 1024)%Z.
Proof.
  intros Hs. revert f.
  induction Hs as [ | s fd v _ IH | s file _ IH | s b d _ IH | s d _ IH
                  | s up _ IH | s up _ IH | s t up _ IH | s up _ IH
                  | s0 s e h ev _ IH0 _ IH | s a _ IH ]; cbn in *;
    try exact IH.
  - discriminate.
  - destruct file as [f'|]; [|discriminate].
    unfold handleImageInputChange.
    destruct (Z.ltb_spec (5 * 1024 * 1024) (imageBytes f')) as [Hl|Hl];
      [exact IH|]. cbn.
    destruct (String.eqb_spec (imageType f') "image/png") as [Hpng|Hpng];
      [|discriminate].
    intros f [= <-]. by split.
  - destruct up; exact IH.
  - destruct t; exact IH.
  - unfold handleResizeMove. cbn. destruct h; exact IH.
Qed.

Lemma session_image_png_witness :
  let kept :=
    handleImageInputChange (Some (mkImageFile "image/png" (6 * 1024 * 1024)))
      (handleImageInputChange (Some (mkImageFile "image/png" 2048))
         initialEditFormData) in
  image kept = Some (mkImageFile "image/png" 2048)
  ∧ (imageBytes (mkImageFile "image/png" 2048) <= 5 * 1024 * 1024)%Z.
Proof.
  cbv zeta. split; [reflexivity|].
  apply (session_image_png
           (mkSession
              (handleImageInputChange
                 (Some (mkImageFile "image/png" (6 * 1024 * 1024)))
                 (handleImageInputChange (Some (mkImageFile "image/png" 2048))
                    initialEditFormData)) 1)).
  - apply (reach_image
             (mkSession
                (handleImageInputChange (Some (mkImageFile "image/png" 2048))
                   initialEditFormData) 1)).
    apply (reach_image initialSession), reach_initial.
  - reflexivity.
Defined.

(** X7.  The text rotation of a session is a whole multiple of 15 degrees
    strictly between −360 and 360. *)
Theorem session_text_rotation (s : Session) :
  reachable s →
  (∃ k : Z, textRotation (form s) == 15 * inject_Z k)
  ∧ - (360) < textRotation (form s) < 360.
Proof.
  induction 1 as [ | s f v _ IH | s file _ IH | s b d _ IH | s d _ IH
                 | s up _ IH | s up _ IH | s t up _ IH | s up _ IH
                 | s0 s e h ev _ IH0 _ IH | s a _ IH ]; cbn in *;
    try exact IH.
  - split; [exists 0%Z; reflexivity | split; reflexivity].
  - destruct file as [f|]; [|exact IH].
    unfold handleImageInputChange. destruct (_ <? _)%Z; exact IH.
  - destruct up; exact IH.
  - destruct t; [|exact IH]. cbn. destruct IH as [[k Hk] _].
    set (a := textRotation (form s) + (if up then 15 else -15)).
    split.
    + unfold JS.rem. set (T := JS.Math_trunc (a / 360)). clearbody T.
      subst a. exists (k + (if up then 1 else -1) - 24 * T)%Z.
      rewrite Hk. unfold Z.sub. rewrite !inject_Z_plus, inject_Z_opp, inject_Z_mult.
      destruct up; cbn [inject_Z]; change (inject_Z 24) with 24;
        change (inject_Z 1) with 1; change (inject_Z (-1)) with (-1); ring.
    + destruct (Qlt_le_dec a 0) as [Ha|Ha].
      * destruct (JSFacts.rem_nonpos a 360); [reflexivity | lra | lra].
      * destruct (JSFacts.rem_nonneg a 360); [reflexivity | lra | lra].
  - unfold handleResizeMove. cbn. destruct h; exact IH.
Qed.

Lemma session_text_rotation_witness :
  let r :=
    textRotation
      (handleRotationChange text (-15)
         (handleRotationChange text (-15) initialEditFormData)) in
  r == -30 ∧ (∃ k : Z, r == 15 * inject_Z k) ∧ - (360) < r < 360.
Proof.
  cbv zeta. split; [reflexivity|].
  exact (session_text_rotation _
           (reach_rotation _ text false
              (reach_rotation _ text false reach_initial))).
Defined.

End Session.

(** ** More of the gallery list *)

Module GalleryList.
Import Dashboard Spec.
Local Open Scope Z_scope.

Section Descending.
Context {A : Type} (cmp : A → A → Z) (key : A → Z).
Hypothesis cmp_key : ∀ a b, cmp a b <= 0 ↔ key b <= key a.

(** Sorting a list that is in order already gives it back. *)
Lemma sort_sorted_id (l : list A) :
  StronglySorted (descending key) l → JS.sort cmp l = l.
Proof.
  induction 1 as [|v l Hl IH Hv]; [done|]. cbn [JS.sort foldr].
  fold (JS.sort cmp l). rewrite IH.
  destruct l as [|w l]; [done|]. cbn.
  apply Forall_cons in Hv as [Hw _]. unfold descending in Hw.
  apply cmp_key in Hw. by apply Z.leb_le in Hw as ->.
Qed.

Lemma sort_idempotent (l : list A) :
  JS.sort cmp (JS.sort cmp l) = JS.sort cmp l.
Proof. apply sort_sorted_id. by apply SortFacts.sort_sorted. Qed.
End Descending.

Lemma byCreation_key (getTime : string → Z) (a b : Poster) :
  byCreation getTime a b <= 0
  ↔ getTime (created_at b) <= getTime (created_at a).
Proof. unfold byCreation. lia. Qed.

Lemma filter_all {A} (f : A → bool) (l : list A) :
  (∀ a, a ∈ l → f a = true) → List.filter f l = l.
Proof.
  induction l as [|a l IH]; [done|]. intros H. cbn.
  rewrite (H a) by left. f_equal. apply IH. intros b Hb. apply H. by right.
Qed.

(** What the two filter steps keep. *)
Lemma filterPosters_spec (catalog : list Poster)
    (searchQuery selectedCategory : string) (p : Poster) :
  p ∈ filterPosters catalog searchQuery selectedCategory
  ↔ p ∈ catalog
    ∧ (searchQuery = "" ∨ matchesQuery searchQuery p = true)
    ∧ (selectedCategory = "All"
       ∨ categoryName (category p) = selectedCategory).
Proof.
  unfold filterPosters.
  destruct (String.eqb_spec searchQuery "") as [Hq|Hq];
    destruct (String.eqb_spec selectedCategory "All") as [Hc|Hc];
    rewrite ?list_elem_of_In, ?filter_In, ?String.eqb_eq; tauto.
Qed.

Lemma filterPosters_fixed (catalog l : list Poster)
    (searchQuery selectedCategory : string) :
  (∀ p, p ∈ l → p ∈ filterPosters catalog searchQuery selectedCategory) →
  filterPosters l searchQuery selectedCategory = l.
Proof.
  intros H. unfold filterPosters.
  assert (Hq : searchQuery ≠ "" →
               List.filter (matchesQuery searchQuery) l = l).
  { intros Hne. apply filter_all. intros p Hp.
    apply H, filterPosters_spec in Hp. tauto. }
  assert (Hc : selectedCategory ≠ "All" →
               List.filter
                 (λ poster, String.eqb (categoryName (category poster))
                                       selectedCategory) l = l).
  { intros Hne. apply filter_all. intros p Hp.
    apply H, filterPosters_spec in Hp. rewrite String.eqb_eq. tauto. }
  destruct (String.eqb_spec searchQuery "");
    destruct (String.eqb_spec selectedCategory "All");
    rewrite ?Hq, ?Hc by done; done.
Qed.

Lemma lowerAscii_code (c : ascii) :
  nat_of_ascii (JS.lowerAscii c)
  = if JS.isUpperAscii c then (nat_of_ascii c + 32)%nat else nat_of_ascii c.
Proof.
  unfold JS.lowerAscii. destruct (JS.isUpperAscii c) eqn:E; [|done].
  apply nat_ascii_embedding. unfold JS.isUpperAscii in E.
  apply andb_true_iff in E as [_ E]. apply Nat.leb_le in E. lia.
Qed.

(** Two characters have the same lower-case form exactly when they are
    the same letter. *)
Lemma lowerAscii_same (c d : ascii) :
  JS.lowerAscii c = JS.lowerAscii d ↔ SearchTerms.sameLetter c d = true.
Proof.
  assert (Hcode : nat_of_ascii (JS.lowerAscii c) = nat_of_ascii (JS.lowerAscii d)
                  ↔ SearchTerms.sameLetter c d = true).
  { rewrite !lowerAscii_code. unfold SearchTerms.sameLetter, JS.isUpperAscii.
    cbv zeta. generalize (nat_of_ascii c) (nat_of_ascii d). intros m n.
    destruct (Nat.leb_spec 65 m), (Nat.leb_spec m 90), (Nat.leb_spec 65 n),
      (Nat.leb_spec n 90), (Nat.eqb_spec m n), (Nat.eqb_spec n (m + 32)),
      (Nat.eqb_spec m (n + 32)); cbn; split; intros; (done || lia). }
  rewrite <- Hcode. split; [by intros ->|]. intros H.
  rewrite <- (ascii_nat_embedding (JS.lowerAscii c)),
    <- (ascii_nat_embedding (JS.lowerAscii d)). by rewrite H.
Qed.

Lemma toLowerCase_same (s t : string) :
  JS.toLowerCase s = JS.toLowerCase t ↔ SearchTerms.sameText s t = true.
Proof.
  revert t. induction s as [|c s IH]; intros [|d t];
    cbn [JS.toLowerCase SearchTerms.sameText]; try done.
  rewrite andb_true_iff, <- lowerAscii_same, <- IH. split.
  - intros H. by injection H.
  - by intros [-> ->].
Qed.

Lemma append_cons (c : ascii) (s t : string) :
  String c s +:+ t = String c (s +:+ t).
Proof. reflexivity. Qed.

Lemma toLowerCase_app (s t : string) :
  JS.toLowerCase (s +:+ t) = JS.toLowerCase s +:+ JS.toLowerCase t.
Proof.
  induction s as [|c s IH]; [done|].
  rewrite append_cons. cbn [JS.toLowerCase]. by rewrite append_cons, IH.
Qed.

(** A split of the lower-case form is the lower-case form of a split. *)
Lemma toLowerCase_split (s a b : string) :
  JS.toLowerCase s = a +:+ b →
  ∃ s1 s2, s = s1 +:+ s2 ∧ JS.toLowerCase s1 = a ∧ JS.toLowerCase s2 = b.
Proof.
  revert s. induction a as [|c a IH]; intros s H.
  - by exists "", s.
  - destruct s as [|d s]; [done|].
    rewrite append_cons in H. cbn [JS.toLowerCase] in H.
    injection H as Hc Hs.
    destruct (IH s Hs) as (s1 & s2 & -> & H1 & H2).
    exists (String d s1), s2. cbn [JS.toLowerCase].
    by rewrite Hc, H1, H2.
Qed.

Lemma prefix_spec (sub s : string) :
  String.prefix sub s = true ↔ ∃ after, s = sub +:+ after.
Proof.
  revert s. induction sub as [|c sub IH]; intros s.
  - split; [intros _; exists s; reflexivity | intros _; by destruct s].
  - destruct s as [|d s].
    + split; [intros H; discriminate H | intros [after H]; discriminate H].
    + cbn [String.prefix]. destruct (ascii_dec c d) as [->|Hne].
      * rewrite IH. split; intros [after H]; exists after.
        -- by rewrite append_cons, H.
        -- rewrite append_cons in H. by injection H.
      * split; [done|]. intros [after H]. rewrite append_cons in H.
        injection H as Hd _. by destruct Hne.
Qed.

Lemma includes_cons (c : ascii) (s sub : string) :
  JS.includes (String c s) sub
  = String.prefix sub (String c s) || JS.includes s sub.
Proof. reflexivity. Qed.

(** [includes] finds the texts that occur somewhere in the string. *)
Lemma includes_spec (s sub : string) :
  JS.includes s sub = true ↔ ∃ before after, s = before +:+ sub +:+ after.
Proof.
  induction s as [|c s IH].
  - change (JS.includes "" sub) with (String.prefix sub "" || false).
    rewrite orb_false_r, prefix_spec. split.
    + intros [after H]. by exists "", after.
    + intros (before & after & H). destruct before; [|done]. by exists after.
  - rewrite includes_cons, orb_true_iff, prefix_spec, IH. split.
    + intros [[after H] | (before & after & H)].
      * by exists "", after.
      * exists (String c before), after. by rewrite append_cons, H.
    + intros (before & after & H). destruct before as [|d before].
      * left. by exists after.
      * right. exists before, after. rewrite append_cons in H.
        by injection H.
Qed.

(** The test of the search filter on one text: the query occurs in it, the
    case of the letters set aside. *)
Lemma includes_lower_spec (text query : string) :
  JS.includes (JS.toLowerCase text) (JS.toLowerCase query) = true
  ↔ SearchTerms.occursIn query text.
Proof.
  rewrite includes_spec. unfold SearchTerms.occursIn. split.
  - intros (before & after & H).
    apply toLowerCase_split in H as (s1 & s23 & -> & H1 & H23).
    apply toLowerCase_split in H23 as (s2 & s3 & -> & H2 & H3).
    exists s1, s2, s3. split; [done|]. by apply toLowerCase_same.
  - intros (before & found & after & -> & Hsame).
    apply toLowerCase_same in Hsame.
    exists (JS.toLowerCase before), (JS.toLowerCase after).
    by rewrite !toLowerCase_app, Hsame.
Qed.

Lemma matchesQuery_spec (searchQuery : string) (p : Poster) :
  matchesQuery searchQuery p = true
  ↔ SearchTerms.occursIn searchQuery (title p)
    ∨ SearchTerms.occursIn searchQuery (categoryName (category p)).
Proof.
  unfold matchesQuery. by rewrite orb_true_iff, !includes_lower_spec.
Qed.

(** X8.  For titles and a search text of ASCII characters, the gallery
    shows, in either sort mode, exactly the posters of the catalog in whose
    title or category name the search text occurs, the case of the
    letters set aside (every poster when the text is empty), and whose
    category is the selected one (every category when ['All'] is
    selected). *)
Theorem filterSort_shows (getTime : string → Z) (catalog : list Poster)
    (searchQuery selectedCategory : string) (sortBy : SortBy) (p : Poster) :
  SearchTerms.asciiText searchQuery = true →
  (∀ q, q ∈ catalog → SearchTerms.asciiText (title q) = true) →
  p ∈ filterSort getTime catalog searchQuery selectedCategory sortBy
  ↔ p ∈ catalog
    ∧ (searchQuery = ""
       ∨ SearchTerms.occursIn searchQuery (title p)
       ∨ SearchTerms.occursIn searchQuery (categoryName (category p)))
    ∧ (selectedCategory = "All"
       ∨ categoryName (category p) = selectedCategory).
Proof.
  intros _ _. rewrite <- matchesQuery_spec, <- filterPosters_spec.
  unfold filterSort. destruct sortBy; by rewrite SortFacts.sort_perm.
Qed.

Lemma filterSort_shows_witness :
  let shown := filterSort (λ _, 0) SearchTerms.shelf "DAY" "All" latest in
  SearchTerms.birthdayPoster ∈ shown
  ∧ SearchTerms.weddingPoster ∈ shown
  ∧ SearchTerms.diwaliPoster ∉ shown.
Proof.
  cbv zeta.
  assert (Hshelf : ∀ q, q ∈ SearchTerms.shelf →
                        SearchTerms.asciiText (title q) = true).
  { intros q Hq. unfold SearchTerms.shelf in Hq.
    rewrite !elem_of_cons, elem_of_nil in Hq.
    destruct Hq as [-> | [-> | [-> | []]]]; reflexivity. }
  split; [|split].
  - apply (filterSort_shows (λ _, 0) SearchTerms.shelf "DAY" "All" latest _
             eq_refl Hshelf).
    split; [right; left|]. split; [|by left].
    right. left. by exists "Happy Birth", "day", "".
  - apply (filterSort_shows (λ _, 0) SearchTerms.shelf "DAY" "All" latest _
             eq_refl Hshelf).
    split; [right; right; left|]. split; [|by left].
    right. left. by exists "Wedding ", "Day", "".
  - intros Hshown.
    apply (filterSort_shows (λ _, 0) SearchTerms.shelf "DAY" "All" latest _
             eq_refl Hshelf) in Hshown as (_ & [Hq | Hfound] & _);
      [discriminate Hq|].
    rewrite <- !includes_lower_spec in Hfound.
    destruct Hfound as [Hfound | Hfound]; discriminate Hfound.
Defined.

(** X9.  Running the filter and sort effect on its own output, with the same
    inputs, changes nothing. *)
Theorem filterSort_idempotent (getTime : string → Z) (catalog : list Poster)
    (searchQuery selectedCategory : string) (sortBy : SortBy) :
  let shown := filterSort getTime catalog searchQuery selectedCategory sortBy in
  filterSort getTime shown searchQuery selectedCategory sortBy = shown.
Proof.
  cbv zeta. unfold filterSort at 1.
  rewrite (filterPosters_fixed catalog).
  - unfold filterSort. destruct sortBy.
    + apply (sort_idempotent _ (λ p, getTime (created_at p))
               (byCreation_key getTime)).
    + apply (sort_idempotent _ downloads Gallery.byDownloads_key).
  - intros p Hp. unfold filterSort in Hp.
    destruct sortBy; by rewrite SortFacts.sort_perm in Hp.
Qed.


Lemma prefix_refl (s : string) : String.prefix s s = true.
Proof. induction s as [|c s IH]; [done|]. cbn. by destruct (ascii_dec c c). Qed.

Lemma includes_refl (s : string) : JS.includes s s = true.
Proof.
  destruct s as [|c s]; [done|].
  change (String.prefix (String c s) (String c s)
          || JS.includes s (String c s) = true).
  by rewrite prefix_refl.
Qed.

(** Typing the name of a category into the search box, in any letter
    case, finds every poster of that category. *)
Theorem search_by_category_name (catalog : list Poster) (c : Category)
    (searchQuery : string) (p : Poster) :
  JS.toLowerCase searchQuery = JS.toLowerCase (categoryName c) →
  p ∈ catalog → category p = c →
  p ∈ filterPosters catalog searchQuery "All".
Proof.
  intros Hq Hp Hc. apply filterPosters_spec. split; [done|].
  split; [|by left]. right. unfold matchesQuery.
  rewrite Hq, Hc, includes_refl. apply orb_true_r.
Qed.

Lemma search_by_category_name_witness :
  sample 3 (Some 1) ∈ filterPosters [sample 3 (Some 1)] "FESTival" "All".
Proof.
  apply (search_by_category_name _ Festival); [reflexivity | | reflexivity].
  by left.
Defined.

End GalleryList.

(** ** More of the downloads *)

Module Downloads.
Import Dashboard Spec Samples.
Local Open Scope Z_scope.

(** X11.  The cooldown of a gallery download is cleared however the call ends,
    and the cooldowns of the other posters are not touched. *)
Theorem download_clears_countdown (w : World) (posterId : Z)
    (url title : string) :
  let w' := Flow.finalWorld (handleDownload posterId url title w) in
  countdowns w' !! posterId = None
  ∧ ∀ other, other ≠ posterId → countdowns w' !! other = countdowns w !! other.
Proof.
  destruct w as [ps fps cds em [tbl se ue ar] cs].
  unfold handleDownload, Flow.tryFinally, Flow.tryCatch.
  unfold mbind, flow_bind, Flow.bind, selectDownloadCount.
  unfold Flow.returnWith, Flow.modify, updateDownloadCount, fetchAsset. cbn.
  destruct se as [e|]; cbn;
    [|destruct (tbl !! posterId) as [count|]; cbn;
      [destruct ue as [e|]; cbn; [|destruct ar; cbn]|]];
    (split; [apply lookup_delete_eq|]);
    intros other Hne; by rewrite lookup_delete_ne, lookup_insert_ne.
Qed.

Lemma download_clears_countdown_witness :
  let w' := Flow.finalWorld (handleDownload 7 "u" "t" brokenAssetWorld) in
  countdowns w' !! 7 = None ∧ countdowns w' !! 9 = Some 2.
Proof.
  cbv zeta.
  destruct (download_clears_countdown brokenAssetWorld 7 "u" "t")
    as [Hmine Hother].
  split; [exact Hmine|]. rewrite Hother by lia. reflexivity.
Defined.

(** The search and the category filter do not read the count. *)
Lemma filterPosters_patchCount (posterId n : Z) (catalog : list Poster)
    (searchQuery selectedCategory : string) :
  filterPosters (patchCount posterId n catalog) searchQuery selectedCategory
  = patchCount posterId n (filterPosters catalog searchQuery selectedCategory).
Proof.
  assert (Hfilter : ∀ (f : Poster → bool) l,
             (∀ p, f (withDownloadCount n p) = f p) →
             List.filter f (patchCount posterId n l)
             = patchCount posterId n (List.filter f l)).
  { intros f l Hf. unfold patchCount.
    induction l as [|p l IH]; [done|]. cbn.
    assert (Hp : f (if id p =? posterId then withDownloadCount n p else p)
                 = f p) by (destruct (id p =? posterId); [apply Hf | done]).
    rewrite Hp, IH. by destruct (f p). }
  unfold filterPosters.
  destruct (String.eqb searchQuery ""), (String.eqb selectedCategory "All");
    by rewrite ?Hfilter.
Qed.

(** Sorting commutes with a change of the entries that the comparator
    does not see. *)
Lemma sort_map {A} (cmp : A → A → Z) (g : A → A) (l : list A) :
  (∀ a b, cmp (g a) (g b) = cmp a b) →
  JS.sort cmp (map g l) = map g (JS.sort cmp l).
Proof.
  intros Hg.
  assert (Hins : ∀ v s,
             JS.insertBy cmp (g v) (map g s) = map g (JS.insertBy cmp v s)).
  { intros v s. induction s as [|w s IH]; [done|]. cbn.
    rewrite Hg. destruct (cmp v w <=? 0); [done|]. cbn. by rewrite IH. }
  induction l as [|v l IH]; [done|]. cbn [map JS.sort foldr].
  fold (JS.sort cmp (map g l)). fold (JS.sort cmp l). by rewrite IH, Hins.
Qed.

(** The list of the filter and sort effect for a catalog with one count
    patched: the entries of the list for the catalog as it was, with that
    count patched; in the [latest] mode in the same order. *)
Lemma filterSort_patchCount (getTime : string → Z) (posterId n : Z)
    (catalog : list Poster) (searchQuery selectedCategory : string)
    (sortBy : SortBy) :
  let shown := λ l, filterSort getTime l searchQuery selectedCategory sortBy in
  shown (patchCount posterId n catalog) ≡ₚ patchCount posterId n (shown catalog)
  ∧ (sortBy = latest →
     shown (patchCount posterId n catalog)
     = patchCount posterId n (shown catalog)).
Proof.
  cbv zeta. unfold filterSort. rewrite filterPosters_patchCount. split.
  - unfold patchCount. destruct sortBy; by rewrite !SortFacts.sort_perm.
  - intros ->. unfold patchCount. apply sort_map.
    intros a b. by destruct (id a =? posterId), (id b =? posterId).
Qed.

(** X12.  Once the counter is updated the download goes on to the asset: the
    count stays raised, in the table and in the local catalog, whether or
    not the asset can be fetched.  The list that the filter and sort
    effect computes from the new catalog holds the entries it held for the
    old one, with that count raised: in the same order in the [latest]
    mode, in possibly another order in the [popular] mode.  A fetched
    asset is saved under the title ([poster] when the title is empty) and
    no error is shown; an asset that cannot be fetched is not saved and
    the download error is shown. *)
Theorem download_after_count (getTime : string → Z) (w : World)
    (posterId : Z) (url title : string) (count : option Z)
    (searchQuery selectedCategory : string) (sortBy : SortBy) :
  fetches w posterId count → updateError (backend w) = None →
  let n := JS.orZero count + 1 in
  let w' := Flow.finalWorld (handleDownload posterId url title w) in
  let shown := λ l, filterSort getTime l searchQuery selectedCategory sortBy in
  table (backend w') !! posterId = Some (Some n)
  ∧ posters w' = patchCount posterId n (posters w)
  ∧ shown (posters w') ≡ₚ patchCount posterId n (shown (posters w))
  ∧ (sortBy = latest →
     shown (posters w') = patchCount posterId n (shown (posters w)))
  ∧ (assetResponse (backend w) = AssetOk →
     calls w' = calls w ++ [CallSelectCount posterId;
                            CallUpdateCount posterId n; CallFetchAsset url;
                            CallSaveFile (if String.eqb title "" then "poster"
                                          else title)]
     ∧ errorMessage w' = errorMessage w)
  ∧ (assetResponse (backend w) ≠ AssetOk →
     calls w' = calls w ++ [CallSelectCount posterId;
                            CallUpdateCount posterId n; CallFetchAsset url]
     ∧ errorMessage w'
       = Some "Failed to download the poster. Please try again.").
Proof.
  intros Hfetch Hupdate n w' shown.
  assert (Hposters : posters w' = patchCount posterId n (posters w)
                     ∧ table (backend w') !! posterId = Some (Some n)
                     ∧ (assetResponse (backend w) = AssetOk →
                        calls w' = calls w ++ [CallSelectCount posterId;
                            CallUpdateCount posterId n; CallFetchAsset url;
                            CallSaveFile (if String.eqb title "" then "poster"
                                          else title)]
                        ∧ errorMessage w' = errorMessage w)
                     ∧ (assetResponse (backend w) ≠ AssetOk →
                        calls w' = calls w ++ [CallSelectCount posterId;
                            CallUpdateCount posterId n; CallFetchAsset url]
                        ∧ errorMessage w'
                          = Some "Failed to download the poster. Please try again.")).
  { subst n w'. clear shown.
    destruct w as [ps fps cds em [tbl se ue ar] cs].
    unfold fetches in Hfetch. cbn in Hfetch, Hupdate.
    destruct Hfetch as [-> Hc]. subst ue.
    unfold handleDownload, Flow.tryFinally, Flow.tryCatch.
    unfold mbind, flow_bind, Flow.bind, selectDownloadCount.
    unfold Flow.returnWith, Flow.modify, updateDownloadCount, fetchAsset. cbn.
    rewrite Hc. cbn.
    destruct ar; cbn; rewrite lookup_alter_eq, Hc; cbn;
      repeat split; try done; intros; try done;
      by rewrite <- !app_assoc. }
  destruct Hposters as (Hp & Ht & Hok & Hbroken).
  destruct (filterSort_patchCount getTime posterId n (posters w) searchQuery
              selectedCategory sortBy) as [Hperm Hlatest].
  split; [exact Ht|]. split; [exact Hp|].
  subst shown. cbv beta. rewrite Hp.
  split; [exact Hperm|]. split; [exact Hlatest|].
  split; [exact Hok | exact Hbroken].
Qed.

Lemma download_after_count_witness :
  let w' := Flow.finalWorld (handleDownload 8 "u" "" twoPosterWorld) in
  let shown := filterSort (λ _, 0) (posters w') "" "All" popular in
  table (backend w') !! 8 = Some (Some 4)
  ∧ download_count <$> posters w' = [Some 3; Some 4]
  ∧ shown ≡ₚ [sample 7 (Some 3); sample 8 (Some 4)]
  ∧ id <$> shown = [8; 7]
  ∧ calls w' = [CallSelectCount 8; CallUpdateCount 8 4; CallFetchAsset "u"]
  ∧ errorMessage w'
    = Some "Failed to download the poster. Please try again.".
Proof.
  cbv zeta.
  destruct (download_after_count (λ _, 0) twoPosterWorld 8 "u" "" (Some 3)
              "" "All" popular)
    as (Ht & Hp & Hshown & _ & _ & Hbroken);
    [split; reflexivity | reflexivity |].
  destruct Hbroken as [Hcalls Herr]; [discriminate|].
  split; [exact Ht|]. split; [by rewrite Hp|].
  split; [exact Hshown|]. split; [reflexivity|].
  split; [exact Hcalls | exact Herr].
Defined.

(** X13.  One tick of the cooldown: the other posters are left alone, a value of
    at least 1 goes down by one, and a value that is missing or 0 starts
    again from 5 and becomes 4; the value stored is never negative. *)
Theorem countdownTick_step (posterId : Z) (prev : gmap Z Z) :
  let next := countdownTick posterId prev in
  (∀ other, other ≠ posterId → next !! other = prev !! other)
  ∧ (∃ n, next !! posterId = Some n ∧ 0 <= n)
  ∧ (∀ c, prev !! posterId = Some c → 1 <= c →
     next !! posterId = Some (c - 1))
  ∧ (prev !! posterId = None ∨ prev !! posterId = Some 0 →
     next !! posterId = Some 4).
Proof.
  cbv zeta. unfold countdownTick.
  set (newCount := (match prev !! posterId with
                    | Some c => if c =? 0 then 5 else c
                    | None => 5
                    end - 1)).
  assert (Hn : countdownTick posterId prev !! posterId
               = Some (if newCount <=? 0 then 0 else newCount)).
  { unfold countdownTick. fold newCount.
    destruct (newCount <=? 0); apply lookup_insert_eq. }
  unfold countdownTick in Hn. fold newCount in Hn.
  split; [|split; [|split]].
  - intros other Hne. destruct (newCount <=? 0); by rewrite lookup_insert_ne.
  - eexists. split; [exact Hn|]. destruct (Z.leb_spec newCount 0); lia.
  - intros c Hc Hpos. rewrite Hn. subst newCount. rewrite Hc.
    destruct (Z.eqb_spec c 0); [lia|].
    destruct (Z.leb_spec (c - 1) 0); f_equal; lia.
  - intros H. rewrite Hn. subst newCount.
    by destruct H as [-> | ->].
Qed.

Lemma countdownTick_step_witness :
  countdownTick 7 {[ 7 := 5 ]} !! 7 = Some 4
  ∧ countdownTick 7 {[ 7 := 1 ]} !! 7 = Some 0
  ∧ countdownTick 7 {[ 7 := 0 ]} !! 7 = Some 4
  ∧ countdownTick 7 {[ 7 := 5; 9 := 2 ]} !! 9 = Some 2.
Proof.
  destruct (countdownTick_step 7 {[ 7 := 5 ]}) as (_ & _ & H5 & _).
  destruct (countdownTick_step 7 {[ 7 := 1 ]}) as (_ & _ & H1 & _).
  destruct (countdownTick_step 7 {[ 7 := 0 ]}) as (_ & _ & _ & H0).
  destruct (countdownTick_step 7 {[ 7 := 5; 9 := 2 ]}) as (Hother & _).
  split; [apply (H5 5); [reflexivity | lia]|].
  split; [apply (H1 1); [reflexivity | lia]|].
  split; [apply H0; right; reflexivity|].
  rewrite Hother by lia. reflexivity.
Defined.

End Downloads.

(** ** The customized download *)

Module CustomDownload.
Import Dashboard Spec Samples.
Local Open Scope Z_scope.

(** X14.  Without a rendered canvas nothing is saved or counted: when the canvas
    is not mounted, or the rendering fails, the only change is the error
    message; the modal stays open with the form as it is. *)
Theorem save_needs_canvas (w : Editor.World) :
  Editor.canvasMounted w = false ∨ is_Some (Editor.renderError w) →
  let w' := Flow.finalWorld (Editor.handleEditSave w) in
  Editor.gallery w'
  = setErrorMessage
      (Some (if Editor.canvasMounted w
             then "Failed to save customized poster: "
                  +:+ default "" (Editor.renderError w)
             else "Cannot save: Canvas not found")) (Editor.gallery w)
  ∧ Editor.editingPoster w' = Editor.editingPoster w
  ∧ Editor.editFormData w' = Editor.editFormData w
  ∧ Editor.zoomLevel w' = Editor.zoomLevel w.
Proof.
  destruct w as [g ep fd zl mounted render]. cbn.
  unfold Editor.handleEditSave, Flow.tryCatch, mbind, flow_bind, Flow.bind.
  cbn. intros [-> | [msg ->]]; [done|].
  destruct mounted; cbn; done.
Qed.

Lemma save_needs_canvas_witness :
  let failed :=
    Flow.finalWorld
      (Editor.handleEditSave (editorWorld (Some 3) true (Some "tainted") None)) in
  let unmounted :=
    Flow.finalWorld
      (Editor.handleEditSave (editorWorld (Some 3) false None None)) in
  errorMessage (Editor.gallery failed)
  = Some "Failed to save customized poster: tainted"
  ∧ calls (Editor.gallery failed) = []
  ∧ errorMessage (Editor.gallery unmounted)
    = Some "Cannot save: Canvas not found"
  ∧ is_Some (Editor.editingPoster unmounted).
Proof.
  cbv zeta.
  destruct (save_needs_canvas (editorWorld (Some 3) true (Some "tainted") None))
    as (Hg & _); [right; by eexists|].
  destruct (save_needs_canvas (editorWorld (Some 3) false None None))
    as (Hg' & Hep & _); [by left|].
  rewrite Hg, Hg', Hep. repeat split; try reflexivity. by eexists.
Defined.

(** X15.  A rendered poster is saved first, as [<title>-customized.png], and
    the counter is updated after it.  When the update fails the error is
    shown, the table and the local catalog are as before, the file stays
    saved, and the modal is closed with the form and the zoom reset. *)
Theorem save_survives_counter_failure (w : Editor.World) (poster : Poster) :
  Editor.canvasMounted w = true → Editor.renderError w = None →
  Editor.editingPoster w = Some poster →
  is_Some (updateError (backend (Editor.gallery w))) →
  let w' := Flow.finalWorld (Editor.handleEditSave w) in
  calls (Editor.gallery w')
  = calls (Editor.gallery w)
    ++ [CallSaveFile (title poster +:+ "-customized.png");
        CallUpdateCount (id poster) (JS.orZero (download_count poster) + 1)]
  ∧ errorMessage (Editor.gallery w') = Some counterError
  ∧ posters (Editor.gallery w') = posters (Editor.gallery w)
  ∧ table (backend (Editor.gallery w')) = table (backend (Editor.gallery w))
  ∧ Editor.editingPoster w' = None
  ∧ Editor.editFormData w' = initialEditFormData
  ∧ Editor.zoomLevel w' = initialZoomLevel.
Proof.
  destruct w as [[ps fps cds em [tbl se ue ar] cs] ep fd zl mounted render].
  cbn. intros -> -> -> [e ->].
  unfold Editor.handleEditSave, Flow.tryCatch, mbind, flow_bind, Flow.bind.
  cbn. repeat split. by rewrite <- app_assoc.
Qed.

Lemma save_survives_counter_failure_witness :
  let w' :=
    Flow.finalWorld
      (Editor.handleEditSave
         (editorWorld (Some 3) true None (Some "offline"))) in
  calls (Editor.gallery w')
  = [CallSaveFile "Diwali-customized.png"; CallUpdateCount 7 4]
  ∧ download_count <$> posters (Editor.gallery w') = [Some 3]
  ∧ Editor.editingPoster w' = None.
Proof.
  cbv zeta.
  destruct (save_survives_counter_failure
              (editorWorld (Some 3) true None (Some "offline"))
              (sample 7 (Some 3)))
    as (Hc & _ & Hp & _ & Hep & _); try reflexivity; [by eexists|].
  rewrite Hc, Hp, Hep. by repeat split.
Defined.

Lemma bumpCount_entry (posterId : Z) (prev : list Poster) (p : Poster) :
  p ∈ prev → id p = posterId →
  withDownloadCount (JS.orZero (download_count p) + 1) p
  ∈ Editor.bumpCount posterId prev.
Proof.
  intros Hp Hid. unfold Editor.bumpCount. apply list_elem_of_fmap.
  exists p. split; [|done]. by apply Z.eqb_eq in Hid as ->.
Qed.

(** X16.  A customized download that succeeds never reads the counter from the
    backend: the table row receives the count of the poster as the modal
    holds it, plus 1, whatever the table held; each local entry of that id
    gets its own count plus 1; the modal is closed. *)
Theorem save_counts_from_local_copy (w : Editor.World) (poster : Poster)
    (stored : option Z) :
  Editor.canvasMounted w = true → Editor.renderError w = None →
  Editor.editingPoster w = Some poster →
  updateError (backend (Editor.gallery w)) = None →
  table (backend (Editor.gallery w)) !! id poster = Some stored →
  let w' := Flow.finalWorld (Editor.handleEditSave w) in
  table (backend (Editor.gallery w')) !! id poster
  = Some (Some (JS.orZero (download_count poster) + 1))
  ∧ calls (Editor.gallery w')
    = calls (Editor.gallery w)
      ++ [CallSaveFile (title poster +:+ "-customized.png");
          CallUpdateCount (id poster)
            (JS.orZero (download_count poster) + 1)]
  ∧ posters (Editor.gallery w')
    = Editor.bumpCount (id poster) (posters (Editor.gallery w))
  ∧ (∀ p, p ∈ posters (Editor.gallery w) → id p = id poster →
     withDownloadCount (JS.orZero (download_count p) + 1) p
     ∈ posters (Editor.gallery w'))
  ∧ errorMessage (Editor.gallery w') = errorMessage (Editor.gallery w)
  ∧ Editor.editingPoster w' = None.
Proof.
  destruct w as [[ps fps cds em [tbl se ue ar] cs] ep fd zl mounted render].
  cbn. intros -> -> -> -> Hrow.
  unfold Editor.handleEditSave, Flow.tryCatch, mbind, flow_bind, Flow.bind.
  cbn. rewrite lookup_alter_eq, Hrow. cbn.
  repeat split; try done.
  - by rewrite <- app_assoc.
  - intros p Hp Hid. by apply bumpCount_entry.
Qed.

Lemma save_counts_from_local_copy_witness :
  let w' :=
    Flow.finalWorld
      (Editor.handleEditSave (editorWorld (Some 10) true None None)) in
  table (backend (Editor.gallery w')) !! 7 = Some (Some 4)
  ∧ download_count <$> posters (Editor.gallery w') = [Some 4].
Proof.
  cbv zeta.
  destruct (save_counts_from_local_copy
              (editorWorld (Some 10) true None None) (sample 7 (Some 3))
              (Some 10))
    as (Ht & _ & Hp & _); try reflexivity.
  rewrite Hp. split; [exact Ht | reflexivity].
Defined.

End CustomDownload.

(** ** The category bar *)

Module Paging.
Import CategoryScroll.
Local Open Scope Z_scope.

Lemma totalSets_covers (shown : list string) :
  Z.of_nat (length (withoutAll shown)) <= categoriesPerSet * totalSets shown.
Proof.
  unfold totalSets. set (n := Z.of_nat (length (withoutAll shown))).
  pose proof (Qle_ceiling (inject_Z n / inject_Z categoriesPerSet)) as H.
  set (T := Qceiling _) in *. clearbody T.
  assert (E : (inject_Z n
               == inject_Z categoriesPerSet
                  * (inject_Z n / inject_Z categoriesPerSet))%Q).
  { field. discriminate. }
  rewrite Zle_Qle, inject_Z_mult, E.
  apply Qmult_le_l; [reflexivity | exact H].
Qed.

Lemma totalSets_positive (shown : list string) :
  (1 < length shown)%nat → 0 < totalSets shown.
Proof.
  intros Hlen. pose proof (totalSets_covers shown) as H.
  unfold withoutAll, categoriesPerSet in H. rewrite length_drop in H. lia.
Qed.

(** X17.  With more than ['All'] to show, the two arrows keep the index of the
    set within the sets there are, wrap around at the ends, and undo one
    another. *)
Theorem set_arrows_cycle (shown : list string) (index : Z) :
  (1 < length shown)%nat → 0 <= index < totalSets shown →
  0 <= handleNextSet shown index < totalSets shown
  ∧ 0 <= handlePrevSet shown index < totalSets shown
  ∧ handlePrevSet shown (handleNextSet shown index) = index
  ∧ handleNextSet shown (handlePrevSet shown index) = index
  ∧ (index = totalSets shown - 1 → handleNextSet shown index = 0)
  ∧ (index = 0 → handlePrevSet shown index = totalSets shown - 1).
Proof.
  intros Hlen Hi. pose proof (totalSets_positive shown Hlen) as HT.
  unfold handleNextSet, handlePrevSet. set (T := totalSets shown) in *.
  clearbody T.
  assert (Hnext : ∀ i, 0 <= i < T →
                  Z.rem (i + 1) T = if i =? T - 1 then 0 else i + 1).
  { intros i Hr. destruct (Z.eqb_spec i (T - 1)) as [Hd|Hd].
    - replace (i + 1) with T by lia. apply Z.rem_same. lia.
    - apply Z.rem_small. lia. }
  assert (Hprev : ∀ i, 0 <= i < T →
                  Z.rem (i - 1 + T) T = if i =? 0 then T - 1 else i - 1).
  { intros i Hr. destruct (Z.eqb_spec i 0) as [Hd|Hd].
    - replace (i - 1 + T) with (T - 1) by lia. apply Z.rem_small. lia.
    - replace (i - 1 + T) with (i - 1 + 1 * T) by lia.
      rewrite Z.rem_add by nia. apply Z.rem_small. lia. }
  rewrite (Hnext index Hi), (Hprev index Hi).
  assert (Hn : 0 <= (if index =? T - 1 then 0 else index + 1) < T).
  { destruct (Z.eqb_spec index (T - 1)); lia. }
  assert (Hp : 0 <= (if index =? 0 then T - 1 else index - 1) < T).
  { destruct (Z.eqb_spec index 0); lia. }
  rewrite (Hprev _ Hn), (Hnext _ Hp).
  split; [exact Hn|]. split; [exact Hp|].
  destruct (Z.eqb_spec index (T - 1)), (Z.eqb_spec index 0);
    repeat split; intros;
    repeat match goal with
           | |- context [?a =? ?b] => destruct (Z.eqb_spec a b)
           end; lia.
Qed.

Lemma set_arrows_cycle_witness :
  let shown := ["All"; "a"; "b"; "c"; "d"; "e"; "f"; "g"] in
  totalSets shown = 3
  ∧ handleNextSet shown 2 = 0 ∧ handlePrevSet shown 0 = 2
  ∧ handlePrevSet shown (handleNextSet shown 1) = 1.
Proof.
  cbv zeta.
  destruct (set_arrows_cycle ["All"; "a"; "b"; "c"; "d"; "e"; "f"; "g"] 2)
    as (_ & _ & _ & _ & Hlast & _); [cbn; lia | split; [lia | reflexivity] |].
  destruct (set_arrows_cycle ["All"; "a"; "b"; "c"; "d"; "e"; "f"; "g"] 0)
    as (_ & _ & _ & _ & _ & Hfirst); [cbn; lia | split; [lia | reflexivity] |].
  destruct (set_arrows_cycle ["All"; "a"; "b"; "c"; "d"; "e"; "f"; "g"] 1)
    as (_ & _ & Hback & _); [cbn; lia | split; [lia | reflexivity] |].
  split; [reflexivity|]. split; [by apply Hlast|].
  split; [by apply Hfirst | exact Hback].
Defined.

Lemma pages_cover (k : nat) (l : list string) (n : nat) :
  (0 < k)%nat → (length l <= k * n)%nat →
  concat ((λ i, take k (drop (i * k) l)) <$> seq 0 n) = l.
Proof.
  intros Hk. revert l. induction n as [|n IH]; intros l Hl.
  - destruct l; [done|]. cbn in Hl. lia.
  - cbn [seq fmap list_fmap concat]. rewrite <- fmap_S_seq, <- list_fmap_compose.
    cbn [Nat.mul drop].
    transitivity (take k l ++ drop k l); [|apply take_drop]. f_equal.
    rewrite <- (IH (drop k l)) by (rewrite length_drop; lia).
    f_equal. apply list_fmap_ext. intros _ i _. cbn.
    by rewrite drop_drop.
Qed.

(** On a phone the sets shown one after another are the categories
    without ['All'], each exactly once and in order; on a desktop the bar
    shows them all. *)
Theorem sets_cover_categories (shown : list string) :
  concat ((λ i : nat, currentCategories shown false (Z.of_nat i))
          <$> seq 0 (Z.to_nat (totalSets shown)))
  = withoutAll shown
  ∧ ∀ index, currentCategories shown true index = shown.
Proof.
  split; [|done].
  pose proof (totalSets_covers shown) as Hc. unfold categoriesPerSet in Hc.
  etransitivity;
    [|apply (pages_cover 3 (withoutAll shown) (Z.to_nat (totalSets shown)));
      lia].
  f_equal. apply list_fmap_ext. intros _ i _.
  unfold currentCategories, slice, categoriesPerSet. f_equal; [lia|].
  f_equal. lia.
Qed.

(** The bar of the source has one set: a phone shows the three categories
    and the arrows stay on it. *)
Example source_categories_one_set :
  totalSets categories = 1
  ∧ currentCategories categories false 0 = ["Festival"; "Birthday"; "Marriage"]
  ∧ handleNextSet categories 0 = 0 ∧ handlePrevSet categories 0 = 0.
Proof. repeat split. Qed.

End Paging.

(** ** More of the upload route *)

Module Route.
Import Spec RouteTerms.
Local Open Scope Z_scope.

(** X18.  A request that is not a form is answered with status 500, and one
    that lacks the file, or has no or an empty title or category, with
    status 400; neither touches the backend. *)
Theorem route_refuses_incomplete (w : UploadRoute.World) :
  (∀ reason,
     UploadRoute.respond (UploadRoute.Malformed reason) w
     = (UploadRoute.mkResponse 500
          (UploadRoute.ErrorBody ("Upload failed: " +:+ reason)), w))
  ∧ (∀ fd,
       UploadRoute.get_file fd = None
       ∨ UploadRoute.get_title fd = None ∨ UploadRoute.get_title fd = Some ""
       ∨ UploadRoute.get_category fd = None
       ∨ UploadRoute.get_category fd = Some "" →
       UploadRoute.respond (UploadRoute.Multipart fd) w
       = (UploadRoute.mkResponse 400
            (UploadRoute.ErrorBody "Missing file, title, or category"), w)).
Proof.
  split; [done|]. intros [file thumb title category ed ff] H. cbn in H.
  unfold UploadRoute.respond, UploadRoute.POST.
  unfold Flow.tryCatch, mbind, flow_bind, Flow.bind. cbn.
  destruct H as [-> | [-> | [-> | [-> | ->]]]]; cbn;
    repeat match goal with
           | |- context [match ?o with Some _ => _ | None => _ end] =>
               destruct o; cbn
           end; done.
Qed.

Lemma route_refuses_incomplete_witness :
  UploadRoute.status
    (UploadRoute.respond
       (UploadRoute.Multipart
          (UploadRoute.mkFormData (Some (pngFile 10)) None (Some "")
             (Some "Festival") None None)) (routeWorld None)).1
  = 400.
Proof.
  destruct (route_refuses_incomplete (routeWorld None)) as [_ H].
  rewrite H; [reflexivity|]. right. right. left. reflexivity.
Defined.

(** The answers of the route, case by case. *)
Lemma route_cases (request : UploadRoute.Request) (w : UploadRoute.World) :
  let r := UploadRoute.respond request w in
  ((UploadRoute.status r.1 = 200
    ∧ (∃ row, UploadRoute.rows r.2 = UploadRoute.rows w ++ [row])
    ∧ ∃ link title category editable font,
        UploadRoute.body r.1
        = UploadRoute.UploadedBody link title category editable font)
   ∨ ((UploadRoute.status r.1 = 400 ∨ UploadRoute.status r.1 = 500)
      ∧ UploadRoute.rows r.2 = UploadRoute.rows w
      ∧ ∃ e, UploadRoute.body r.1 = UploadRoute.ErrorBody e ∧ e ≠ ""))
  ∧ ∀ path, is_Some (UploadRoute.bucket w !! path) →
            is_Some (UploadRoute.bucket r.2 !! path).
Proof.
  assert (Hkeep : ∀ (b : gmap string string) p c path,
             is_Some (b !! path) → is_Some (<[p := c]> b !! path)).
  { intros b p c path H. destruct (decide (p = path)) as [->|Hne].
    - rewrite lookup_insert_eq. by eexists.
    - by rewrite lookup_insert_ne. }
  destruct request as [[file thumb title category ed ff]|reason]; cbn.
  2: { split; [|done]. right. split; [by right|]. split; [done|].
       eexists. split; [done|]. discriminate. }
  unfold UploadRoute.respond, UploadRoute.POST.
  unfold Flow.tryCatch, mbind, flow_bind, Flow.bind. cbn.
  destruct file as [file|]; cbn;
    [destruct (UploadRoute.truthy title) as [t|]; cbn;
     [destruct (UploadRoute.truthy category) as [c|]; cbn|]|].
  2-4: split; [|done]; right; split; [by left|]; split; [done|];
       eexists; split; [done|]; discriminate.
  destruct (exceedsMaxFileSize file thumb); cbn.
  { split; [|done]. right. split; [by left|]. split; [done|].
    eexists. split; [done|]. rewrite Upload.sizeErrorMessage_value.
    discriminate. }
  unfold UploadRoute.storageUpload.
  destruct (UploadRoute.uploadError w) as [e|]; cbn.
  { split; [|done]. right. split; [by left|]. split; [done|].
    eexists. split; [done|]. discriminate. }
  destruct thumb as [thumb|]; cbn;
    [destruct (UploadRoute.thumbnailError w) as [e|]; cbn|].
  - split; [|intros; by apply Hkeep]. right. split; [by left|].
    split; [done|]. eexists. split; [done|]. discriminate.
  - unfold UploadRoute.tableInsert. cbn.
    destruct (UploadRoute.dbError w) as [e|]; cbn;
      (split; [|intros; by apply Hkeep, Hkeep]).
    + right. split; [by left|]. split; [done|].
      eexists. split; [done|]. discriminate.
    + left. split; [done|]. split; [by eexists|]. by repeat eexists.
  - unfold UploadRoute.tableInsert. cbn.
    destruct (UploadRoute.dbError w) as [e|]; cbn;
      (split; [|intros; by apply Hkeep]).
    + right. split; [by left|]. split; [done|].
      eexists. split; [done|]. discriminate.
    + left. split; [done|]. split; [by eexists|]. by repeat eexists.
Qed.

(** X19.  Whatever the request and the backend, the route answers 200, 400
    or 500; it adds exactly one row when it answers 200 and none
    otherwise, an answer other than 200 carries an error message, and no
    object of the bucket is ever removed. *)
Theorem route_outcome (request : UploadRoute.Request) (w : UploadRoute.World) :
  let r := UploadRoute.respond request w in
  ((UploadRoute.status r.1 = 200
    ∧ (∃ row, UploadRoute.rows r.2 = UploadRoute.rows w ++ [row])
    ∧ ∃ link title category editable font,
        UploadRoute.body r.1
        = UploadRoute.UploadedBody link title category editable font)
   ∨ ((UploadRoute.status r.1 = 400 ∨ UploadRoute.status r.1 = 500)
      ∧ UploadRoute.rows r.2 = UploadRoute.rows w
      ∧ ∃ e, UploadRoute.body r.1 = UploadRoute.ErrorBody e ∧ e ≠ ""))
  ∧ ∀ path, is_Some (UploadRoute.bucket w !! path) →
            is_Some (UploadRoute.bucket r.2 !! path).
Proof. apply route_cases. Qed.

Lemma route_outcome_witness :
  let r := UploadRoute.respond (UploadRoute.Multipart psdWithThumbnail)
             insertFailingWorld in
  UploadRoute.status r.1 = 400 ∧ UploadRoute.rows r.2 = [].
Proof.
  cbv zeta.
  destruct (route_outcome (UploadRoute.Multipart psdWithThumbnail)
              insertFailingWorld) as [[(Hs & _) | (_ & Hrows & _)] _].
  - discriminate Hs.
  - split; [reflexivity | exact Hrows].
Defined.

(** X20.  An asset that is not a PSD becomes the poster itself: on success the
    row has the public URL of the asset, stored under [thumbnails/…], as
    [download_url] and no [psd_url].  A thumbnail sent along is stored too,
    but the row does not refer to it. *)
Theorem plain_upload_ignores_thumbnail (fd : UploadRoute.FormData)
    (w : UploadRoute.World) (file : File) (title category : string) :
  UploadRoute.get_file fd = Some file →
  UploadRoute.truthy (UploadRoute.get_title fd) = Some title →
  UploadRoute.truthy (UploadRoute.get_category fd) = Some category →
  exceedsMaxFileSize file (UploadRoute.get_thumbnail fd) = false →
  isPsdName (file_name file) = false →
  UploadRoute.uploadError w = None → UploadRoute.thumbnailError w = None →
  UploadRoute.dbError w = None →
  let r := UploadRoute.respond (UploadRoute.Multipart fd) w in
  let assetUrl := UploadRoute.publicUrlOf w (assetPath w title file) in
  UploadRoute.status r.1 = 200
  ∧ (∃ row,
       UploadRoute.rows r.2 = UploadRoute.rows w ++ [row]
       ∧ UploadRoute.row_download_url row = assetUrl
       ∧ UploadRoute.row_psd_url row = None)
  ∧ (∃ editable,
       UploadRoute.body r.1
       = UploadRoute.UploadedBody assetUrl title category editable
           (UploadRoute.get_fontFamily fd))
  ∧ is_Some (UploadRoute.bucket r.2 !! assetPath w title file)
  ∧ ∀ t, UploadRoute.get_thumbnail fd = Some t →
         UploadRoute.bucket r.2 !! thumbnailPath w title
         = Some (file_type t).
Proof.
  intros Hf Ht Hc Hx Hpsd Hup Hth Hdb.
  unfold UploadRoute.respond, UploadRoute.POST, assetPath.
  unfold Flow.tryCatch, mbind, flow_bind, Flow.bind. cbn.
  rewrite Hf, Ht, Hc, Hx. cbn. unfold UploadRoute.storageUpload.
  rewrite Hup, Hpsd. cbn.
  destruct (UploadRoute.get_thumbnail fd) as [thumb|]; cbn;
    rewrite ?Hth; cbn; unfold UploadRoute.tableInsert; cbn; rewrite Hdb; cbn;
    (split; [done|]); (split; [by eexists|]); (split; [by eexists|]).
  - split.
    + match goal with
      | |- is_Some (<[?p := _]> _ !! ?q) => destruct (decide (p = q)) as [E|E]
      end.
      * rewrite E, lookup_insert_eq. by eexists.
      * rewrite lookup_insert_ne, lookup_insert_eq by done. by eexists.
    + intros t [= <-]. apply lookup_insert_eq.
  - split; [|done]. rewrite lookup_insert_eq. by eexists.
Qed.

Lemma plain_upload_ignores_thumbnail_witness :
  let r := UploadRoute.respond (UploadRoute.Multipart jpegWithThumbnail)
             (routeWorld None) in
  UploadRoute.row_download_url <$> UploadRoute.rows r.2
  = ["https://cdn.example/thumbnails/1700000000000-New-Year.jpeg"]
  ∧ UploadRoute.row_psd_url <$> UploadRoute.rows r.2 = [None]
  ∧ UploadRoute.bucket r.2 !! "thumbnails/1700000000001-New-Year-thumb.png"
    = Some "image/png".
Proof.
  cbv zeta.
  destruct (plain_upload_ignores_thumbnail jpegWithThumbnail (routeWorld None)
              (mkFile "card.jpeg" 1024 "image/jpeg") "New Year" "Festival")
    as (_ & _ & _ & _ & Hthumb); try reflexivity.
  split; [reflexivity|]. split; [reflexivity|].
  exact (Hthumb _ eq_refl).
Defined.

(** X21.  A PSD sent with its thumbnail: on success the row shows the thumbnail
    ([download_url] is its public URL) and keeps the original as
    [psd_url]; both objects are in the bucket. *)
Theorem psd_upload_with_thumbnail (fd : UploadRoute.FormData)
    (w : UploadRoute.World) (file thumbnail : File) (title category : string) :
  UploadRoute.get_file fd = Some file →
  UploadRoute.get_thumbnail fd = Some thumbnail →
  UploadRoute.truthy (UploadRoute.get_title fd) = Some title →
  UploadRoute.truthy (UploadRoute.get_category fd) = Some category →
  exceedsMaxFileSize file (Some thumbnail) = false →
  isPsdName (file_name file) = true →
  UploadRoute.uploadError w = None → UploadRoute.thumbnailError w = None →
  UploadRoute.dbError w = None →
  let r := UploadRoute.respond (UploadRoute.Multipart fd) w in
  let thumbnailUrl := UploadRoute.publicUrlOf w (thumbnailPath w title) in
  UploadRoute.status r.1 = 200
  ∧ (∃ row,
       UploadRoute.rows r.2 = UploadRoute.rows w ++ [row]
       ∧ UploadRoute.row_download_url row = thumbnailUrl
       ∧ UploadRoute.row_psd_url row
         = Some (UploadRoute.publicUrlOf w (assetPath w title file)))
  ∧ (∃ editable,
       UploadRoute.body r.1
       = UploadRoute.UploadedBody thumbnailUrl title category editable
           (UploadRoute.get_fontFamily fd))
  ∧ UploadRoute.bucket r.2 !! assetPath w title file = Some (file_type file)
  ∧ UploadRoute.bucket r.2 !! thumbnailPath w title
    = Some (file_type thumbnail).
Proof.
  intros Hf Hthumb Ht Hc Hx Hpsd Hup Hth Hdb.
  unfold UploadRoute.respond, UploadRoute.POST, assetPath.
  unfold Flow.tryCatch, mbind, flow_bind, Flow.bind. cbn.
  rewrite Hf, Ht, Hc, Hthumb, Hx. cbn. unfold UploadRoute.storageUpload.
  rewrite Hup, Hpsd. cbn. rewrite Hth. cbn.
  unfold UploadRoute.tableInsert. cbn. rewrite Hdb. cbn.
  split; [done|]. split; [by eexists|]. split; [by eexists|].
  split; [|apply lookup_insert_eq].
  rewrite lookup_insert_ne by discriminate. apply lookup_insert_eq.
Qed.

Lemma psd_upload_with_thumbnail_witness :
  let r := UploadRoute.respond (UploadRoute.Multipart psdWithThumbnail)
             (routeWorld None) in
  UploadRoute.row_download_url <$> UploadRoute.rows r.2
  = ["https://cdn.example/thumbnails/1700000000001-New-Year-thumb.png"]
  ∧ UploadRoute.row_psd_url <$> UploadRoute.rows r.2
    = [Some "https://cdn.example/psd/1700000000000-New-Year.psd"]
  ∧ UploadRoute.bucket r.2 !! "psd/1700000000000-New-Year.psd"
    = Some "image/vnd.adobe.photoshop".
Proof.
  cbv zeta.
  destruct (psd_upload_with_thumbnail psdWithThumbnail (routeWorld None)
              (mkFile "Card.psd" 1024 "image/vnd.adobe.photoshop")
              (mkFile "card.jpg" 512 "image/jpeg") "New Year" "Festival")
    as (_ & _ & _ & Hasset & _); try reflexivity.
  split; [reflexivity|]. split; [reflexivity|]. exact Hasset.
Defined.

(** X22.  Nothing is rolled back: when the thumbnail upload or the table insert
    fails after the asset was stored, the route answers 400 with the
    message of the failure, adds no row, and the asset stays in the
    bucket. *)
Theorem upload_not_rolled_back (fd : UploadRoute.FormData)
    (w : UploadRoute.World) (file : File) (title category : string) :
  UploadRoute.get_file fd = Some file →
  UploadRoute.truthy (UploadRoute.get_title fd) = Some title →
  UploadRoute.truthy (UploadRoute.get_category fd) = Some category →
  exceedsMaxFileSize file (UploadRoute.get_thumbnail fd) = false →
  UploadRoute.uploadError w = None →
  let r := UploadRoute.respond (UploadRoute.Multipart fd) w in
  (∀ e, is_Some (UploadRoute.get_thumbnail fd) →
        UploadRoute.thumbnailError w = Some e →
        r.1 = UploadRoute.mkResponse 400
                (UploadRoute.ErrorBody ("Thumbnail upload failed: " +:+ e))
        ∧ UploadRoute.rows r.2 = UploadRoute.rows w
        ∧ UploadRoute.bucket r.2
          = <[assetPath w title file := file_type file]>
              (UploadRoute.bucket w))
  ∧ (∀ e, (is_Some (UploadRoute.get_thumbnail fd) →
           UploadRoute.thumbnailError w = None) →
          UploadRoute.dbError w = Some e →
          r.1 = UploadRoute.mkResponse 400
                  (UploadRoute.ErrorBody ("Database insert failed: " +:+ e))
          ∧ UploadRoute.rows r.2 = UploadRoute.rows w
          ∧ is_Some (UploadRoute.bucket r.2 !! assetPath w title file)).
Proof.
  intros Hf Ht Hc Hx Hup.
  assert (Hpath :
    (if isPsdName (file_name file)
     then "psd/" +:+ pretty (UploadRoute.nowFile w) +:+ "-"
          +:+ JS.replaceSpaces false title +:+ "."
          +:+ default "undefined" (fileExt (file_name file))
     else "thumbnails/" +:+ pretty (UploadRoute.nowFile w) +:+ "-"
          +:+ JS.replaceSpaces false title +:+ "."
          +:+ default "undefined" (fileExt (file_name file)))
    = assetPath w title file).
  { unfold assetPath. by destruct (isPsdName (file_name file)). }
  unfold UploadRoute.respond, UploadRoute.POST.
  unfold Flow.tryCatch, mbind, flow_bind, Flow.bind. cbn.
  rewrite Hf, Ht, Hc, Hx. cbn. unfold UploadRoute.storageUpload.
  rewrite Hup. cbn. rewrite !Hpath. split.
  - intros e [t Hsome] He. rewrite Hsome. cbn. rewrite He. cbn. done.
  - intros e Hth Hdb.
    destruct (UploadRoute.get_thumbnail fd) as [thumb|]; cbn;
      rewrite ?(Hth ltac:(by eexists)); cbn;
      unfold UploadRoute.tableInsert; cbn; rewrite Hdb; cbn;
      (split; [done|]); (split; [done|]).
    + match goal with
      | |- is_Some (<[?p := _]> _ !! ?q) => destruct (decide (p = q)) as [E|E]
      end.
      * rewrite E, lookup_insert_eq. by eexists.
      * rewrite lookup_insert_ne, lookup_insert_eq by done. by eexists.
    + rewrite lookup_insert_eq. by eexists.
Qed.

Lemma upload_not_rolled_back_witness :
  let r := UploadRoute.respond (UploadRoute.Multipart psdWithThumbnail)
             insertFailingWorld in
  r.1 = UploadRoute.mkResponse 400
          (UploadRoute.ErrorBody "Database insert failed: duplicate key")
  ∧ UploadRoute.rows r.2 = []
  ∧ is_Some (UploadRoute.bucket r.2 !! "psd/1700000000000-New-Year.psd").
Proof.
  cbv zeta.
  destruct (upload_not_rolled_back psdWithThumbnail insertFailingWorld
              (mkFile "Card.psd" 1024 "image/vnd.adobe.photoshop")
              "New Year" "Festival") as [_ Hdb]; try reflexivity.
  exact (Hdb "duplicate key" (λ _, eq_refl) eq_refl).
Defined.

End Route.

(** ** File names *)

Module FileNames.
Import RouteTerms.

Lemma split_nonempty (sep : ascii) (s : string) : JS.split sep s ≠ [].
Proof.
  induction s as [|c s IH]; cbn [JS.split]; [done|].
  destruct (Ascii.eqb c sep); [done|]. by destruct (JS.split sep s).
Qed.

Lemma split_no_separator (sep : ascii) (s : string) :
  contains sep s = false → JS.split sep s = [s].
Proof.
  induction s as [|c s IH]; cbn [JS.split contains]; [done|].
  intros [Hc Hs]%orb_false_elim. by rewrite Hc, (IH Hs).
Qed.

Lemma split_at_separator (sep : ascii) (s1 s2 : string) :
  JS.split sep (s1 +:+ String sep s2) = JS.split sep s1 ++ JS.split sep s2.
Proof.
  induction s1 as [|c s1 IH].
  - change (JS.split sep (String sep s2) = "" :: JS.split sep s2).
    cbn [JS.split]. by rewrite Ascii.eqb_refl.
  - change (JS.split sep (String c (s1 +:+ String sep s2))
            = JS.split sep (String c s1) ++ JS.split sep s2).
    cbn [JS.split]. rewrite IH. destruct (Ascii.eqb c sep); [done|].
    pose proof (split_nonempty sep s1) as Hne.
    by destruct (JS.split sep s1).
Qed.

Lemma last_app_nonempty {A} (l1 l2 : list A) :
  l2 ≠ [] → last (l1 ++ l2) = last l2.
Proof.
  intros Hne. destruct l2 as [|a l2] using rev_ind; [done|].
  by rewrite app_assoc, !last_snoc.
Qed.

(** X23.  The extension the upload checks read is what follows the last dot of
    the file name, in lower case; a name without a dot is its own
    extension, so a file called [PSD] counts as a PSD. *)
Theorem fileExt_after_last_dot (base ext : string) :
  contains "." ext = false →
  fileExt (base +:+ "." +:+ ext) = Some (JS.toLowerCase ext)
  ∧ fileExt ext = Some (JS.toLowerCase ext)
  ∧ isPsdName (base +:+ "." +:+ ext)
    = String.eqb (JS.toLowerCase ext) "psd".
Proof.
  intros Hext. unfold isPsdName, fileExt, JS.pop.
  change ("." +:+ ext) with (String "." ext).
  rewrite split_at_separator, last_app_nonempty by apply split_nonempty.
  by rewrite (split_no_separator _ _ Hext).
Qed.

Lemma fileExt_after_last_dot_witness :
  fileExt "poster.final.PsD" = Some "psd"
  ∧ isPsdName "PSD" = true ∧ isPsdName "psd.png" = false.
Proof.
  destruct (fileExt_after_last_dot "poster.final" "PsD") as (H1 & _);
    [reflexivity|].
  destruct (fileExt_after_last_dot "" "PSD") as (_ & H2 & _); [reflexivity|].
  destruct (fileExt_after_last_dot "psd" "png") as (_ & _ & H3);
    [reflexivity|].
  split; [exact H1|]. split; [|exact H3].
  unfold isPsdName. by rewrite H2.
Defined.

End FileNames.

(** ** The admin form, end to end *)

Module AdminSave.
Import Spec.
Local Open Scope Z_scope.

(** The run of [handleSave] once the form has passed its validation. *)
Lemma handleSave_sent (w : Admin.World) (file : File) :
  Admin.form_title (Admin.formData w) ≠ "" →
  Admin.form_file (Admin.formData w) = Some file →
  Admin.form_isEditable (Admin.formData w)
    && isPsdName (file_name file)
    && Admin.missing (Admin.form_thumbnail (Admin.formData w)) = false →
  exceedsMaxFileSize file (Admin.form_thumbnail (Admin.formData w)) = false →
  let body := Admin.formDataToSend file (Admin.formData w) in
  let r := UploadRoute.respond (UploadRoute.Multipart body) (Admin.server w) in
  Flow.finalWorld (Admin.handleSave w)
  = match Admin.networkError w with
    | Some msg =>
        Admin.mkWorld (Admin.formData w) false 0 (Some msg)
          (Admin.requests w ++ [body]) (Admin.server w) (Admin.networkError w)
    | None =>
        if Admin.ok r.1 then
          Admin.mkWorld Admin.emptyForm false 100 None
            (Admin.requests w ++ [body]) r.2 (Admin.networkError w)
        else
          Admin.mkWorld (Admin.formData w) false 0 (Some (Admin.errorOf r.1))
            (Admin.requests w ++ [body]) r.2 (Admin.networkError w)
    end.
Proof.
  intros Ht Hf Hpsd Hx.
  unfold Admin.handleSave, mbind, flow_bind, Flow.bind. cbn.
  apply String.eqb_neq in Ht. rewrite Ht, Hf, Hpsd, Hx.
  unfold Flow.tryFinally, Flow.tryCatch, Flow.bind, Admin.fetchUpload. cbn.
  destruct (Admin.networkError w); [done|].
  destruct (UploadRoute.respond _ _) as [response server']. cbn.
  by destruct (Admin.ok response).
Qed.

(** The validation of [handleSave], case by case: the form is rejected
    with one of the validation messages, or it is sent. *)
Lemma handleSave_cases (w : Admin.World) :
  (∃ msg, msg ∈ Admin.validationErrors
          ∧ Flow.finalWorld (Admin.handleSave w)
            = Admin.mkWorld (Admin.formData w) false 0 (Some msg)
                (Admin.requests w) (Admin.server w) (Admin.networkError w))
  ∨ (∃ file,
       Admin.form_title (Admin.formData w) ≠ ""
       ∧ Admin.form_file (Admin.formData w) = Some file
       ∧ Admin.form_isEditable (Admin.formData w)
           && isPsdName (file_name file)
           && Admin.missing (Admin.form_thumbnail (Admin.formData w)) = false
       ∧ exceedsMaxFileSize file (Admin.form_thumbnail (Admin.formData w))
         = false).
Proof.
  destruct (decide (Admin.form_title (Admin.formData w) = "")) as [Ht|Ht].
  { left. eexists. split; [|by rewrite (Upload.handleSave_untitled w Ht)].
    unfold Admin.validationErrors. rewrite !elem_of_cons. tauto. }
  destruct (Admin.form_file (Admin.formData w)) as [file|] eqn:Hf.
  2: { left. eexists. split; [|by rewrite (Upload.handleSave_no_file w Hf)].
       unfold Admin.validationErrors. rewrite !elem_of_cons. tauto. }
  destruct (Admin.form_isEditable (Admin.formData w)
            && isPsdName (file_name file)
            && Admin.missing (Admin.form_thumbnail (Admin.formData w)))
    eqn:Hpsd.
  { left. apply andb_prop in Hpsd as [Hpsd Hth].
    apply andb_prop in Hpsd as [He Hp].
    assert (Hnone : Admin.form_thumbnail (Admin.formData w) = None).
    { by destruct (Admin.form_thumbnail (Admin.formData w)). }
    eexists. split;
      [|by rewrite (Upload.handleSave_needs_thumbnail w file Ht Hf He Hp Hnone)].
    unfold Admin.validationErrors. rewrite !elem_of_cons. tauto. }
  destruct (exceedsMaxFileSize file (Admin.form_thumbnail (Admin.formData w)))
    eqn:Hx.
  { left. eexists. split;
      [|by rewrite (Upload.handleSave_too_large w file Ht Hf Hpsd Hx)].
    unfold Admin.validationErrors. rewrite !elem_of_cons. tauto. }
  right. by exists file.
Qed.

(** X24.  However a save ends, the form is no longer [saving].  The
    handler puts the progress at 100 only when the route has inserted the
    row, and then the form is empty again and no error is shown; in every
    other case the handler leaves the progress below 100, an error is
    shown, the form is as typed and the table has no new row. *)
Theorem save_progress_means_inserted (w : Admin.World) :
  let w' := Flow.finalWorld (Admin.handleSave w) in
  Admin.saving w' = false
  ∧ ((Admin.uploadProgress w' = 100
      ∧ Admin.formData w' = Admin.emptyForm
      ∧ Admin.error w' = None
      ∧ ∃ row, UploadRoute.rows (Admin.server w')
               = UploadRoute.rows (Admin.server w) ++ [row])
     ∨ (Admin.uploadProgress w' < 100
        ∧ Admin.formData w' = Admin.formData w
        ∧ is_Some (Admin.error w')
        ∧ UploadRoute.rows (Admin.server w')
          = UploadRoute.rows (Admin.server w))).
Proof.
  cbv zeta.
  destruct (handleSave_cases w) as [(msg & _ & ->)|(file & Ht & Hf & Hpsd & Hx)].
  { cbn. split; [done|]. right. repeat split; by eexists. }
  rewrite (handleSave_sent w file Ht Hf Hpsd Hx).
  destruct (Admin.networkError w) as [msg|]; cbn.
  { split; [done|]. right. repeat split; by eexists. }
  destruct (Route.route_cases
              (UploadRoute.Multipart
                 (Admin.formDataToSend file (Admin.formData w)))
              (Admin.server w)) as [Hout _].
  unfold Admin.ok.
  destruct Hout as [(Hs & Hrows & _) | (Hs & Hrows & _)].
  - rewrite Hs. cbn. split; [done|]. left. by repeat split.
  - destruct Hs as [-> | ->]; cbn; (split; [done|]); right;
      repeat split; try done; by eexists.
Qed.

(** X25.  A form that passes the validation of the page also passes the
    validation of the route: when the route refuses the upload, its
    message is a backend failure, never a validation message, and the page
    shows it word for word.  When the request itself fails, the page shows
    that error and the backend is untouched. *)
Theorem save_shows_route_error (w : Admin.World) (file : File) :
  Admin.form_title (Admin.formData w) ≠ "" →
  Admin.form_file (Admin.formData w) = Some file →
  Admin.form_isEditable (Admin.formData w)
    && isPsdName (file_name file)
    && Admin.missing (Admin.form_thumbnail (Admin.formData w)) = false →
  exceedsMaxFileSize file (Admin.form_thumbnail (Admin.formData w)) = false →
  let w' := Flow.finalWorld (Admin.handleSave w) in
  let r := UploadRoute.respond
             (UploadRoute.Multipart
                (Admin.formDataToSend file (Admin.formData w)))
             (Admin.server w) in
  (∀ msg, Admin.networkError w = Some msg →
          Admin.error w' = Some msg ∧ Admin.server w' = Admin.server w)
  ∧ (Admin.networkError w = None → UploadRoute.status r.1 ≠ 200 →
     ∃ e, UploadRoute.body r.1 = UploadRoute.ErrorBody e
          ∧ Admin.error w' = Some e
          ∧ (e ∉ routeValidationErrors)
          ∧ Admin.server w' = r.2).
Proof.
  intros Ht Hf Hpsd Hx. cbv zeta.
  rewrite (handleSave_sent w file Ht Hf Hpsd Hx). split.
  - intros msg ->. done.
  - intros -> Hstatus.
    destruct (Route.route_cases
                (UploadRoute.Multipart
                   (Admin.formDataToSend file (Admin.formData w)))
                (Admin.server w)) as [Hout _].
    destruct Hout as [(Hs & _) | (Hs & _ & e & He & Hne)]; [done|].
    exists e. split; [done|].
    assert (Hok : Admin.ok
                    (UploadRoute.respond
                       (UploadRoute.Multipart
                          (Admin.formDataToSend file (Admin.formData w)))
                       (Admin.server w)).1 = false).
    { unfold Admin.ok. by destruct Hs as [-> | ->]. }
    rewrite Hok. cbn. unfold Admin.errorOf. rewrite He.
    apply String.eqb_neq in Hne. rewrite Hne.
    split; [done|]. split; [|done].
    intros Hin.
    refine (Upload.route_validates
              (Admin.formDataToSend file (Admin.formData w)) file
              (Admin.form_title (Admin.formData w))
              (categoryName (Admin.form_category (Admin.formData w)))
              eq_refl _ _ Hx (Admin.server w) e Hin He).
    + cbn. apply String.eqb_neq in Ht. by rewrite Ht.
    + cbn. by destruct (Admin.form_category (Admin.formData w)).
Qed.

Lemma save_shows_route_error_witness :
  let w' := Flow.finalWorld (Admin.handleSave AdminSamples.adminInsertFailing) in
  Admin.error w' = Some "Database insert failed: duplicate key"
  ∧ Admin.saving w' = false.
Proof.
  cbv zeta.
  destruct (save_shows_route_error AdminSamples.adminInsertFailing
              (pngFile 2048)) as [_ H]; try reflexivity; [discriminate|].
  destruct H as (e & He & Herr & _); [reflexivity | discriminate |].
  injection He as <-. split; [exact Herr | reflexivity].
Defined.

End AdminSave.

(** ** More of the realtime events *)

Module Realtime.
Import Admin Spec.
Local Open Scope Z_scope.

(** X26.  An UPDATE event replaces the entries of its id where they stand: the
    ids and their order are as before, the other entries are untouched,
    and an event for an id the catalog does not hold changes nothing. *)
Theorem realtime_update_in_place (new : Poster) (prev : list Poster) :
  let next := onChange (UPDATE new) prev in
  ids next = ids prev
  ∧ (∀ i p, prev !! i = Some p →
            next !! i = Some (if id p =? id new then new else p))
  ∧ (id new ∉ ids prev → next = prev).
Proof.
  cbv zeta. split; [apply Catalog.onChange_update_ids|]. split.
  - intros i p Hp. cbn. by rewrite list_lookup_fmap, Hp.
  - intros Hnew. cbn. induction prev as [|p prev IH]; [done|]. cbn.
    unfold ids in Hnew. cbn in Hnew.
    apply not_elem_of_cons in Hnew as [Hne Hnew].
    rewrite (IH Hnew). by destruct (Z.eqb_spec (id p) (id new)) as [Heq|].
Qed.

Lemma realtime_update_in_place_witness :
  onChange (UPDATE (sample 9 (Some 1))) [sample 1 None; sample 2 None]
  = [sample 1 None; sample 2 None]
  ∧ ids (onChange (UPDATE (sample 2 (Some 1))) [sample 1 None; sample 2 None])
    = [1; 2].
Proof.
  destruct (realtime_update_in_place (sample 9 (Some 1))
              [sample 1 None; sample 2 None]) as (_ & _ & Hsame).
  destruct (realtime_update_in_place (sample 2 (Some 1))
              [sample 1 None; sample 2 None]) as (Hids & _).
  split; [apply Hsame; compute_done | exact Hids].
Defined.

(** X27.  A DELETE event removes every entry of its id and nothing else, the
    rest keeping its order; it undoes the INSERT of a poster whose id was
    new. *)
Theorem realtime_delete_removes (old_id : Z) (prev : list Poster) :
  let next := onChange (DELETE old_id) prev in
  (old_id ∉ ids next)
  ∧ (∀ p, p ∈ next ↔ p ∈ prev ∧ id p ≠ old_id)
  ∧ sublist next prev
  ∧ (old_id ∉ ids prev →
     next = prev
     ∧ ∀ new, id new = old_id →
              onChange (DELETE old_id) (onChange (INSERT new) prev) = prev).
Proof.
  cbv zeta. split; [apply Catalog.onChange_delete_removes|].
  assert (Hfresh : old_id ∉ ids prev → onChange (DELETE old_id) prev = prev).
  { intros Hnew. cbn. apply GalleryList.filter_all. intros p Hp.
    destruct (Z.eqb_spec (id p) old_id) as [Heq|]; [|done].
    destruct Hnew. rewrite <- Heq. unfold ids.
    apply list_elem_of_fmap. by exists p. }
  split; [|split].
  - intros p. cbn. rewrite list_elem_of_In, filter_In, <- list_elem_of_In.
    rewrite negb_true_iff, Z.eqb_neq. tauto.
  - clear Hfresh. cbn. induction prev as [|p prev IH]; [constructor|]. cbn.
    destruct (negb (id p =? old_id)); [by apply sublist_skip|].
    by apply sublist_cons.
  - intros Hnew. split; [by apply Hfresh|]. intros new Hid.
    cbn [onChange List.filter]. rewrite Hid, Z.eqb_refl. cbn.
    by apply Hfresh.
Qed.

Lemma realtime_delete_removes_witness :
  onChange (DELETE 3) (onChange (INSERT (sample 3 None)) [sample 1 None])
  = [sample 1 None].
Proof.
  destruct (realtime_delete_removes 3 [sample 1 None]) as (_ & _ & _ & H).
  destruct H as [_ H]; [compute_done|]. by apply H.
Defined.

End Realtime.

(** ** The admin page: delete and update *)

Module AdminPage.
Import AdminOps RouteTerms AdminSamples.
Local Open Scope Z_scope.

Lemma split_segments_clean (sep : ascii) (s seg : string) :
  seg ∈ JS.split sep s → contains sep seg = false.
Proof.
  revert seg. induction s as [|c s IH]; intros seg; cbn [JS.split].
  - by intros ->%list_elem_of_singleton.
  - destruct (Ascii.eqb c sep) eqn:Hc.
    + intros [-> | Hin]%elem_of_cons; [done | by apply IH].
    + pose proof (FileNames.split_nonempty sep s) as Hne.
      destruct (JS.split sep s) as [|seg0 rest]; [done|].
      intros [-> | Hin]%elem_of_cons.
      * cbn [contains]. rewrite Hc. apply IH. by left.
      * apply IH. by right.
Qed.

Lemma prefix_contains (c : ascii) (sub s : string) :
  String.prefix sub s = true → contains c sub = true → contains c s = true.
Proof.
  revert s. induction sub as [|a sub IH]; intros s; [done|].
  destruct s as [|b s]; [done|]. cbn [String.prefix contains].
  destruct (ascii_dec a b) as [<-|]; [|done].
  intros Hp [Ha | Hs]%orb_prop; [by rewrite Ha|].
  rewrite (IH s Hp Hs). apply orb_true_r.
Qed.

Lemma includes_contains (c : ascii) (s sub : string) :
  JS.includes s sub = true → contains c sub = true → contains c s = true.
Proof.
  intros Hi Hc. induction s as [|b s IH].
  - cbn in Hi. rewrite orb_false_r in Hi. by eapply prefix_contains.
  - change (String.prefix sub (String b s) || JS.includes s sub = true) in Hi.
    apply orb_prop in Hi as [Hp | Hs]; [by eapply prefix_contains|].
    cbn [contains]. rewrite (IH Hs). apply orb_true_r.
Qed.

Lemma deleteFilename_clean (poster : Poster) :
  contains "/" (deleteFilename poster) = false.
Proof.
  unfold deleteFilename, JS.pop.
  destruct (last (JS.split "/" (assetUrl poster))) as [seg|] eqn:Hl; [|done].
  apply (split_segments_clean "/" (assetUrl poster)).
  apply last_Some in Hl as [l' ->]. apply elem_of_app. right. by left.
Qed.

(** X28.  The [Delete] button passes the last segment of the poster's URL, which
    holds no slash, so the object it asks the bucket to remove is always
    [thumbnails/<that segment>]: every other object, and so every object
    under [psd/], is still in the bucket afterwards. *)
Theorem delete_button_path (poster : Poster) (w : World) :
  storagePath (deleteFilename poster)
  = "thumbnails/" +:+ deleteFilename poster
  ∧ ∀ path, path ∈ Store.objects (backend w) →
            path ≠ "thumbnails/" +:+ deleteFilename poster →
            path ∈ Store.objects
                     (backend (Flow.finalWorld (deleteButton poster w))).
Proof.
  assert (Hpath : storagePath (deleteFilename poster)
                  = "thumbnails/" +:+ deleteFilename poster).
  { unfold storagePath.
    destruct (JS.includes (deleteFilename poster) "psd/") eqn:Hi; [|done].
    pose proof (includes_contains "/" _ _ Hi eq_refl) as Hc.
    by rewrite deleteFilename_clean in Hc. }
  split; [exact Hpath|]. intros path Hin Hne.
  unfold deleteButton, handleDelete, Flow.tryCatch, mbind, flow_bind, Flow.bind.
  cbn. rewrite Hpath.
  destruct w as [[rows objects [|e|e] [|e'|e'] uo] [|] err ep fd]; cbn;
    try done.
  apply elem_of_difference. split; [done|]. by intros ->%elem_of_singleton.
Qed.

Lemma delete_button_path_witness :
  let w' :=
    Flow.finalWorld
      (deleteButton psdPoster (opsWorld true Store.Succeeds Store.Succeeds
                                 Store.Succeeds)) in
  Store.rows (backend w') !! 5 = None
  ∧ "psd/1700000000000-New-Year.psd" ∈ Store.objects (backend w').
Proof.
  cbv zeta.
  destruct (delete_button_path psdPoster
              (opsWorld true Store.Succeeds Store.Succeeds Store.Succeeds))
    as [_ Hkeep].
  split; [reflexivity|]. apply Hkeep; compute_done.
Defined.

(** X29.  [handleDelete]: without confirmation nothing happens.  The row goes
    first: when that fails, the row and the bucket are as before.  When
    the row is deleted and removing the object fails, the row is gone and
    the object stays; only when both succeed is the object removed too. *)
Theorem handleDelete_outcomes (w : World) (posterId : Z) (filename : string) :
  let w' := Flow.finalWorld (handleDelete posterId filename w) in
  (confirms w = false → w' = w)
  ∧ (confirms w = true →
     (∀ e, Store.deleteOutcome (backend w) = Store.Fails e
           ∨ Store.deleteOutcome (backend w) = Store.Throws e →
           Store.rows (backend w') = Store.rows (backend w)
           ∧ Store.objects (backend w') = Store.objects (backend w)
           ∧ error w' = Some ("Failed to delete poster: " +:+ e))
     ∧ (Store.deleteOutcome (backend w) = Store.Succeeds →
        Store.rows (backend w') = delete posterId (Store.rows (backend w))
        ∧ (∀ e, Store.removeOutcome (backend w) = Store.Fails e →
                Store.objects (backend w') = Store.objects (backend w)
                ∧ error w'
                  = Some ("Failed to delete file from storage: " +:+ e))
        ∧ (Store.removeOutcome (backend w) = Store.Succeeds →
           Store.objects (backend w')
           = Store.objects (backend w) ∖ {[ storagePath filename ]}
           ∧ error w' = error w))).
Proof.
  destruct w as [[rows objects dout rout uo] answers err ep fd].
  unfold handleDelete, Flow.tryCatch, mbind, flow_bind, Flow.bind. cbn.
  split; [by intros ->|]. intros ->. cbn. split.
  - intros e [-> | ->]; done.
  - intros ->. cbn. split; [by destruct rout|]. split.
    + by intros e ->.
    + by intros ->.
Qed.

Lemma handleDelete_outcomes_witness :
  let w' :=
    Flow.finalWorld
      (handleDelete 5 "psd/1700000000000-New-Year.psd"
         (opsWorld true Store.Succeeds (Store.Fails "timeout") Store.Succeeds)) in
  Store.rows (backend w') !! 5 = None
  ∧ "psd/1700000000000-New-Year.psd" ∈ Store.objects (backend w')
  ∧ error w' = Some "Failed to delete file from storage: timeout".
Proof.
  cbv zeta.
  destruct (handleDelete_outcomes
              (opsWorld true Store.Succeeds (Store.Fails "timeout")
                 Store.Succeeds) 5 "psd/1700000000000-New-Year.psd")
    as [_ H].
  destruct (H eq_refl) as [_ Hdel].
  destruct (Hdel eq_refl) as (Hrows & Hfail & _).
  destruct (Hfail "timeout" eq_refl) as [Hobj Herr].
  rewrite Hrows, Hobj. split; [reflexivity|]. split; [|exact Herr].
  compute_done.
Defined.

(** X30.  [handleUpdate]: with no poster being edited nothing happens.  A
    successful update writes the four fields of the form into the row of
    the edited poster, leaves its URLs and date and every other row alone,
    and closes the modal; a failed one changes no row and keeps the modal
    open with the form as typed. *)
Theorem handleUpdate_outcomes (w : World) :
  let w' := Flow.finalWorld (handleUpdate w) in
  (editingPoster w = None → w' = w)
  ∧ (∀ poster, editingPoster w = Some poster →
     (Store.updateOutcome (backend w) = Store.Succeeds →
      (∀ row, Store.rows (backend w) !! id poster = Some row →
              Store.rows (backend w') !! id poster
              = Some (UploadRoute.mkRow
                        (edit_title (editFormData w))
                        (categoryName (edit_category (editFormData w)))
                        (UploadRoute.row_download_url row)
                        (UploadRoute.row_psd_url row)
                        (Some (edit_fontFamily (editFormData w)))
                        (edit_isEditable (editFormData w))
                        (UploadRoute.row_created_at row)))
      ∧ (∀ other, other ≠ id poster →
                  Store.rows (backend w') !! other
                  = Store.rows (backend w) !! other)
      ∧ editingPoster w' = None ∧ editFormData w' = emptyEditForm)
     ∧ (∀ e, Store.updateOutcome (backend w) = Store.Fails e
             ∨ Store.updateOutcome (backend w) = Store.Throws e →
             backend w' = backend w
             ∧ editingPoster w' = Some poster
             ∧ editFormData w' = editFormData w
             ∧ error w' = Some ("Failed to update poster: " +:+ e))).
Proof.
  destruct w as [[rows objects dout rout uout] answers err ep fd].
  unfold handleUpdate, Flow.tryCatch, mbind, flow_bind, Flow.bind. cbn.
  split; [by intros ->|]. intros poster ->. cbn. split.
  - intros ->. cbn. split; [|split; [|done]].
    + intros row Hrow. by rewrite lookup_alter_eq, Hrow.
    + intros other Hne. by rewrite lookup_alter_ne.
  - intros e [-> | ->]; done.
Qed.

Lemma handleUpdate_outcomes_witness :
  let opened :=
    handleEdit psdPoster
      (opsWorld true Store.Succeeds Store.Succeeds Store.Succeeds) in
  let w' := Flow.finalWorld (handleUpdate opened) in
  Store.rows (backend w') !! 5
  = Some (UploadRoute.mkRow "New Year" "Festival" ""
            (Some "https://cdn.example/psd/1700000000000-New-Year.psd")
            (Some "Roboto") true "2025-01-01T00:00:00.000Z")
  ∧ editingPoster w' = None.
Proof.
  cbv zeta.
  destruct (handleUpdate_outcomes
              (handleEdit psdPoster
                 (opsWorld true Store.Succeeds Store.Succeeds Store.Succeeds)))
    as [_ H].
  destruct (H psdPoster eq_refl) as [Hok _].
  destruct (Hok eq_refl) as (Hrow & _ & Hclosed & _).
  split; [exact (Hrow psdRow eq_refl) | exact Hclosed].
Defined.

End AdminPage.

(** ** The update and delete routes *)

Module ApiRoutes.
Import Api ApiSamples.
Local Open Scope Z_scope.

(** [DELETE /api/delete] removes the object first and the row after it.
    A request without an id (0 counts as none) or without a file name is
    answered 400 and changes nothing, as does a failed removal of the
    object; when the object is removed and the row cannot be deleted, the
    answer is 400 and the row is left without its object; when both
    succeed the answer is 200 and both are gone. *)
Theorem api_delete_outcomes (fields : DeleteFields) (b : Store.Backend) :
  let r := respond (DELETE (Json fields)) b in
  (truthyId (delete_id fields) = None
   ∨ UploadRoute.truthy (delete_filename fields) = None →
   r = (mkResponse 400 (ErrorBody "Missing id or filename"), b))
  ∧ (∀ posterId filename,
       truthyId (delete_id fields) = Some posterId →
       UploadRoute.truthy (delete_filename fields) = Some filename →
       (∀ e, Store.removeOutcome b = Store.Fails e →
             r = (mkResponse 400
                    (ErrorBody ("Failed to delete file: " +:+ e)), b))
       ∧ (Store.removeOutcome b = Store.Succeeds →
          Store.objects r.2 = Store.objects b ∖ {[ filename ]}
          ∧ (∀ e, Store.deleteOutcome b = Store.Fails e →
                  r.1 = mkResponse 400
                          (ErrorBody ("Failed to delete poster: " +:+ e))
                  ∧ Store.rows r.2 = Store.rows b)
          ∧ (Store.deleteOutcome b = Store.Succeeds →
             r.1 = mkResponse 200 (MessageBody "Poster deleted successfully")
             ∧ Store.rows r.2 = delete posterId (Store.rows b)))).
Proof.
  destruct b as [rows objects dout rout uout].
  unfold respond, DELETE, Flow.tryCatch, mbind, flow_bind, Flow.bind. cbn.
  split.
  - intros [-> | H]; [done|]. rewrite H. by destruct (truthyId _).
  - intros posterId filename -> ->. cbn. split.
    + by intros e ->.
    + intros ->. cbn. split; [by destruct dout|]. split.
      * by intros e ->.
      * by intros ->.
Qed.

Lemma api_delete_outcomes_witness :
  let refused :=
    respond (DELETE (Json (mkDeleteFields (Some 0) (Some "psd/x.psd"))))
            (store Store.Succeeds Store.Succeeds Store.Succeeds) in
  let dangling :=
    respond (DELETE (Json (mkDeleteFields (Some 5)
                             (Some "psd/1700000000000-New-Year.psd"))))
            (store (Store.Fails "locked") Store.Succeeds Store.Succeeds) in
  status refused.1 = 400
  ∧ status dangling.1 = 400
  ∧ Store.objects dangling.2 = ∅
  ∧ Store.rows dangling.2 !! 5 = Some AdminSamples.psdRow.
Proof.
  cbv zeta.
  destruct (api_delete_outcomes (mkDeleteFields (Some 0) (Some "psd/x.psd"))
              (store Store.Succeeds Store.Succeeds Store.Succeeds))
    as [Hrefused _].
  destruct (api_delete_outcomes
              (mkDeleteFields (Some 5) (Some "psd/1700000000000-New-Year.psd"))
              (store (Store.Fails "locked") Store.Succeeds Store.Succeeds))
    as [_ H].
  destruct (H 5 "psd/1700000000000-New-Year.psd" eq_refl eq_refl) as [_ Hrm].
  destruct (Hrm eq_refl) as (Hobj & Hfail & _).
  destruct (Hfail "locked" eq_refl) as [Hr Hrows].
  rewrite Hrefused by (left; reflexivity). rewrite Hr, Hobj, Hrows.
  repeat split; compute_done.
Defined.

(** [PUT /api/update] needs an id other than 0 and a title and category
    that are not empty, else it answers 400 and changes nothing.  A
    successful update rewrites the title and the category of that row
    only; a failed one changes no row. *)
Theorem api_update_outcomes (fields : UpdateFields) (b : Store.Backend) :
  let r := respond (PUT (Json fields)) b in
  (truthyId (update_id fields) = None
   ∨ UploadRoute.truthy (update_title fields) = None
   ∨ UploadRoute.truthy (update_category fields) = None →
   r = (mkResponse 400 (ErrorBody "Missing id, title, or category"), b))
  ∧ (∀ posterId title category,
       truthyId (update_id fields) = Some posterId →
       UploadRoute.truthy (update_title fields) = Some title →
       UploadRoute.truthy (update_category fields) = Some category →
       (∀ e, Store.updateOutcome b = Store.Fails e →
             r = (mkResponse 400
                    (ErrorBody ("Failed to update poster: " +:+ e)), b))
       ∧ (Store.updateOutcome b = Store.Succeeds →
          r.1 = mkResponse 200 (MessageBody "Poster updated successfully")
          ∧ Store.objects r.2 = Store.objects b
          ∧ Store.rows r.2 !! posterId
            = Store.withTitleCategory title category
              <$> Store.rows b !! posterId
          ∧ ∀ other, other ≠ posterId →
                     Store.rows r.2 !! other = Store.rows b !! other)).
Proof.
  destruct b as [rows objects dout rout uout].
  unfold respond, PUT, Flow.tryCatch, mbind, flow_bind, Flow.bind. cbn.
  split.
  - intros [-> | [H | H]]; [done| |]; rewrite H;
      destruct (truthyId _); try done.
    by destruct (UploadRoute.truthy (update_title fields)).
  - intros posterId title category -> -> ->. cbn. split.
    + by intros e ->.
    + intros ->. cbn. split; [done|]. split; [done|]. split.
      * apply lookup_alter_eq.
      * intros other Hne. by apply lookup_alter_ne.
Qed.

Lemma api_update_outcomes_witness :
  let r :=
    respond (PUT (Json (mkUpdateFields (Some 5) (Some "Diwali")
                          (Some "Birthday"))))
            (store Store.Succeeds Store.Succeeds Store.Succeeds) in
  status r.1 = 200
  ∧ UploadRoute.row_title <$> Store.rows r.2 !! 5 = Some "Diwali"
  ∧ UploadRoute.row_psd_url <$> Store.rows r.2 !! 5
    = Some (Some "https://cdn.example/psd/1700000000000-New-Year.psd").
Proof.
  cbv zeta.
  destruct (api_update_outcomes
              (mkUpdateFields (Some 5) (Some "Diwali") (Some "Birthday"))
              (store Store.Succeeds Store.Succeeds Store.Succeeds))
    as [_ H].
  destruct (H 5 "Diwali" "Birthday" eq_refl eq_refl eq_refl) as [_ Hok].
  destruct (Hok eq_refl) as (Hr & _ & Hrow & _).
  rewrite Hr, Hrow. repeat split.
Defined.

End ApiRoutes.
